(** * ai-youtube-agent: merge, analysis and schema layer

    A shallow embedding of [utils.py], [agent.py] and [models.py].

    Python values are embedded twice.  The type [value] is the immutable
    view: what a structure looks like when it is printed or compared.  It is
    the view in which the return values of the analysis functions and of the
    merge are described.  The module [Store] further down keeps the objects
    in a heap addressed by references, the way CPython does, and is used
    wherever it matters which object a write lands in. *)

From Stdlib Require Import ZArith QArith Bool String List Lia.
From stdpp Require Import base list gmap.
Import ListNotations.
Open Scope Z_scope.
Open Scope string_scope.
Set Warnings "-register-all,-clear-no-such-hyp".

(** ** Python values *)

(** Dictionaries keep their insertion order, as Python's do, so a dictionary
    is the list of its items in that order.  A float is represented by the
    rational it denotes; rounding is not modelled. *)
Inductive value : Type :=
| VNone
| VBool (b : bool)
| VInt (n : Z)
| VFloat (q : Q)
| VStr (s : string)
| VList (elems : list value)
| VDict (items : list (string * value)).

Definition dict := list (string * value).

(** The exceptions the embedded code can raise. *)
Inductive exn : Type :=
| KeyError (key : string)
| TypeError
| AttributeError
| ZeroDivisionError
| RecursionError
| RuntimeError.

Inductive result (A : Type) : Type :=
| Ok (a : A)
| Raise (e : exn).
Arguments Ok {A} a.
Arguments Raise {A} e.

Definition bind {A B} (r : result A) (k : A -> result B) : result B :=
  match r with
  | Ok a => k a
  | Raise e => Raise e
  end.

Notation "x <- r ;; k" := (bind r (fun x => k))
  (at level 100, r at next level, right associativity).

(** [d.get(key)], [key in d] and [d[key] = v] on the item list. *)
Fixpoint dict_get {V} (key : string) (d : list (string * V)) : option V :=
  match d with
  | [] => None
  | (k, v) :: rest => if String.eqb key k then Some v else dict_get key rest
  end.

Definition dict_mem {V} (key : string) (d : list (string * V)) : bool :=
  match dict_get key d with
  | Some _ => true
  | None => false
  end.

(** An existing key keeps its position; a new key goes to the end. *)
Fixpoint dict_set {V} (key : string) (v : V) (d : list (string * V))
  : list (string * V) :=
  match d with
  | [] => [(key, v)]
  | (k, w) :: rest =>
      if String.eqb key k then (k, v) :: rest else (k, w) :: dict_set key v rest
  end.

Definition keys {V} (d : list (string * V)) : list string := map fst d.

Fixpoint mem_string (s : string) (l : list string) : bool :=
  match l with
  | [] => false
  | x :: rest => String.eqb s x || mem_string s rest
  end.

(** A Python dictionary never holds a key twice. *)
Fixpoint unique_keys {V} (d : list (string * V)) : bool :=
  match d with
  | [] => true
  | (k, _) :: rest => negb (mem_string k (keys rest)) && unique_keys rest
  end.

(** No key of [d1] is a key of [d2]. *)
Definition disjoint_keys {V} (d1 d2 : list (string * V)) : bool :=
  forallb (fun k => negb (mem_string k (keys d2))) (keys d1).

(** ** utils.py: the merge, seen on values *)

Module Utils.

(** [recursive_merge], the inner function of [merge_content_creator_info].
    The loop runs over the items of [update]; each step reads and writes
    [base], which is threaded through the loop as [b]. *)
Fixpoint recursive_merge (base update : value) {struct update} : value :=
  match base, update with
  | VDict b, VDict u =>
      VDict ((fix loop (items : dict) (b : dict) {struct items} : dict :=
                match items with
                | [] => b
                | (key, val) :: rest =>
                    loop rest
                      (if dict_mem key b
                       then match dict_get key b with
                            | Some old => dict_set key (recursive_merge old val) b
                            | None => b
                            end
                       else dict_set key val b)
                end) u b)
  | VList b, VList u => VList (b ++ u)
  | _, _ => update
  end.

(** The loop of [recursive_merge] on its own. *)
Fixpoint merge_items (items : dict) (b : dict) : dict :=
  match items with
  | [] => b
  | (key, val) :: rest =>
      merge_items rest
        (if dict_mem key b
         then match dict_get key b with
              | Some old => dict_set key (recursive_merge old val) b
              | None => b
              end
         else dict_set key val b)
  end.

(** One step of the loop: [base[key]] is merged with [val] when
    [key in base], and set to [val] otherwise. *)
Definition merge_step (key : string) (val : value) (b : dict) : dict :=
  match dict_get key b with
  | Some old => dict_set key (recursive_merge old val) b
  | None => dict_set key val b
  end.

(** [source1.copy()]: dictionaries and lists have a [copy] method, the other
    values do not.  On values a shallow copy is the value itself. *)
Definition copy (v : value) : result value :=
  match v with
  | VDict _ | VList _ => Ok v
  | _ => Raise AttributeError
  end.

Definition merge_content_creator_info (source1 source2 : value) : result value :=
  merged <- copy source1 ;;
  Ok (recursive_merge merged source2).

End Utils.

(** ** Python's built-in operations on values *)

Module Py.

(** Numbers: [bool] is a subtype of [int], and an operation with a float
    operand is carried out on floats. *)
Inductive num : Type :=
| NInt (n : Z)
| NFloat (q : Q).

Definition to_num (v : value) : option num :=
  match v with
  | VBool b => Some (NInt (if b then 1 else 0))
  | VInt n => Some (NInt n)
  | VFloat q => Some (NFloat q)
  | _ => None
  end.

Definition num_Q (x : num) : Q :=
  match x with
  | NInt n => inject_Z n
  | NFloat q => q
  end.

(** [bool(v)], the test of [if v] *)
Definition truthy (v : value) : bool :=
  match v with
  | VNone => false
  | VBool b => b
  | VInt n => negb (n =? 0)%Z
  | VFloat q => negb (Qeq_bool q 0)
  | VStr s => negb (String.eqb s "")
  | VList elems => negb (Nat.eqb (length elems) 0)
  | VDict items => negb (Nat.eqb (length items) 0)
  end.

(** [len(v)] *)
Definition len (v : value) : result Z :=
  match v with
  | VStr s => Ok (Z.of_nat (String.length s))
  | VList elems => Ok (Z.of_nat (length elems))
  | VDict items => Ok (Z.of_nat (length items))
  | _ => Raise TypeError
  end.

(** The elements [for x in v] runs over: a dictionary yields its keys and a
    string its characters. *)
Definition iter (v : value) : result (list value) :=
  match v with
  | VList elems => Ok elems
  | VDict items => Ok (map (fun kv => VStr (fst kv)) items)
  | VStr s =>
      Ok (map (fun c => VStr (String c EmptyString)) (list_ascii_of_string s))
  | _ => Raise TypeError
  end.

(** [x.get(key, default)]: only dictionaries have the method. *)
Definition get (x : value) (key : string) (default : value) : result value :=
  match x with
  | VDict items =>
      Ok (match dict_get key items with
          | Some v => v
          | None => default
          end)
  | _ => Raise AttributeError
  end.

(** [x[key]] for a string [key] *)
Definition getitem (x : value) (key : string) : result value :=
  match x with
  | VDict items =>
      match dict_get key items with
      | Some v => Ok v
      | None => Raise (KeyError key)
      end
  | _ => Raise TypeError
  end.

(** [a + b] *)
Definition add (a b : value) : result value :=
  match to_num a, to_num b with
  | Some (NInt x), Some (NInt y) => Ok (VInt (x + y))
  | Some x, Some y => Ok (VFloat (num_Q x + num_Q y))
  | _, _ =>
      match a, b with
      | VStr s, VStr t => Ok (VStr (s ++ t))
      | VList l, VList m => Ok (VList (l ++ m))
      | _, _ => Raise TypeError
      end
  end.

(** [a - b] *)
Definition sub (a b : value) : result value :=
  match to_num a, to_num b with
  | Some (NInt x), Some (NInt y) => Ok (VInt (x - y))
  | Some x, Some y => Ok (VFloat (num_Q x - num_Q y))
  | _, _ => Raise TypeError
  end.

(** [a / b], true division: always a float, and an error on a zero divisor *)
Definition truediv (a b : value) : result value :=
  match to_num a, to_num b with
  | Some x, Some y =>
      if Qeq_bool (num_Q y) 0 then Raise ZeroDivisionError
      else Ok (VFloat (num_Q x / num_Q y))
  | _, _ => Raise TypeError
  end.

(** [a == b]: numbers by value, dictionaries regardless of the order of
    their items. *)
Fixpoint eq (a b : value) {struct a} : bool :=
  match a, b with
  | VNone, VNone => true
  | VStr s, VStr t => String.eqb s t
  | VList l, VList m =>
      (fix eq_list (l m : list value) {struct l} : bool :=
         match l, m with
         | [], [] => true
         | x :: l', y :: m' => eq x y && eq_list l' m'
         | _, _ => false
         end) l m
  | VDict d, VDict e =>
      Nat.eqb (length d) (length e) &&
      (fix all_in (d : dict) {struct d} : bool :=
         match d with
         | [] => true
         | (k, v) :: d' =>
             match dict_get k e with
             | Some w => eq v w
             | None => false
             end && all_in d'
         end) d
  | _, _ =>
      match to_num a, to_num b with
      | Some x, Some y => Qeq_bool (num_Q x) (num_Q y)
      | _, _ => false
      end
  end.

(** [a < b]: defined between numbers, between strings and between lists
    (by the first pair of elements that differ); a [TypeError] otherwise. *)
Fixpoint lt (a b : value) {struct a} : result bool :=
  match a, b with
  | VStr s, VStr t => Ok (String.ltb s t)
  | VList l, VList m =>
      (fix lt_list (l m : list value) {struct l} : result bool :=
         match l, m with
         | [], [] => Ok false
         | [], _ :: _ => Ok true
         | _ :: _, [] => Ok false
         | x :: l', y :: m' => if eq x y then lt_list l' m' else lt x y
         end) l m
  | _, _ =>
      match to_num a, to_num b with
      | Some (NInt x), Some (NInt y) => Ok (x <? y)%Z
      | Some x, Some y => Ok (negb (Qle_bool (num_Q y) (num_Q x)))
      | _, _ => Raise TypeError
      end
  end.

(** One step of an insertion sort on (key, element) pairs: the new pair goes
    in front of the first pair whose key is greater, thus behind every pair
    with an equal key. *)
Fixpoint insert_sorted (x : value * value) (l : list (value * value))
  : result (list (value * value)) :=
  match l with
  | [] => Ok [x]
  | y :: rest =>
      smaller <- lt (fst x) (fst y) ;;
      if smaller then Ok (x :: y :: rest)
      else (rest' <- insert_sorted x rest ;; Ok (y :: rest'))
  end.

Fixpoint sort_pairs (todo acc : list (value * value))
  : result (list (value * value)) :=
  match todo with
  | [] => Ok acc
  | x :: rest => acc' <- insert_sorted x acc ;; sort_pairs rest acc'
  end.

(** The keys of all the elements, computed before any comparison. *)
Fixpoint decorate (key : value -> result value) (xs : list value)
  : result (list (value * value)) :=
  match xs with
  | [] => Ok []
  | x :: rest =>
      k <- key x ;;
      rest' <- decorate key rest ;;
      Ok ((k, x) :: rest')
  end.

(** [sorted(xs, key=key)].  Python's sort is stable and compares keys with
    [<] only; on keys that can all be compared a stable sort has one possible
    result, which the insertion sort computes. *)
Definition sorted (key : value -> result value) (xs : list value)
  : result (list value) :=
  pairs <- decorate key xs ;;
  ordered <- sort_pairs pairs [] ;;
  Ok (map snd ordered).

End Py.

(** ** agent.py: the analysis *)

Module Agent.

(** [data.get(key, [])] on the record under analysis, which [ensure_dict]
    has made a dictionary. *)
Definition get_list (data : dict) (key : string) : value :=
  match dict_get key data with
  | Some v => v
  | None => VList []
  end.

Definition _calculate_basic_stats (data : dict) : result value :=
  total_life_events <- Py.len (get_list data "life_events") ;;
  total_challenges <- Py.len (get_list data "challenges") ;;
  total_achievements <- Py.len (get_list data "achievements") ;;
  business_count <- Py.len (get_list data "businesses") ;;
  Ok (VDict [("total_life_events", VInt total_life_events);
             ("total_challenges", VInt total_challenges);
             ("total_achievements", VInt total_achievements);
             ("business_count", VInt business_count)]).

(** [sum(1 for b in businesses if b.get("is_active", False))] *)
Fixpoint count_active (businesses : list value) (acc : Z) : result Z :=
  match businesses with
  | [] => Ok acc
  | b :: rest =>
      flag <- Py.get b "is_active" (VBool false) ;;
      count_active rest (if Py.truthy flag then acc + 1 else acc)
  end.

(** [sum(b.get("revenue", 0) for b in businesses)] *)
Fixpoint sum_revenue (businesses : list value) (acc : value) : result value :=
  match businesses with
  | [] => Ok acc
  | b :: rest =>
      revenue <- Py.get b "revenue" (VInt 0) ;;
      acc' <- Py.add acc revenue ;;
      sum_revenue rest acc'
  end.

Definition _analyze_business (data : dict) : result value :=
  let businesses := get_list data "businesses" in
  total_businesses <- Py.len businesses ;;
  active_businesses <- (bs <- Py.iter businesses ;; count_active bs 0) ;;
  average_revenue <-
    (if Py.truthy businesses
     then (bs <- Py.iter businesses ;;
           total <- sum_revenue bs (VInt 0) ;;
           n <- Py.len businesses ;;
           Py.truediv total (VInt n))
     else Ok (VInt 0)) ;;
  Ok (VDict [("total_businesses", VInt total_businesses);
             ("active_businesses", VInt active_businesses);
             ("average_revenue", average_revenue)]).

(** [[v["name"] for v in values]] *)
Fixpoint value_names (values : list value) : result (list value) :=
  match values with
  | [] => Ok []
  | v :: rest =>
      name <- Py.getitem v "name" ;;
      names <- value_names rest ;;
      Ok (name :: names)
  end.

Definition _assess_values (data : dict) : result value :=
  let values := get_list data "values" in
  core_values <- (vs <- Py.iter values ;; value_names vs) ;;
  n <- Py.len values ;;
  score <- Py.truediv (VInt n) (VInt 10) ;;
  Ok (VDict [("core_values", VList core_values);
             ("value_consistency_score", score)]).

(** [sorted(data.get("life_events", []), key=lambda x: x.get("year", 0))] *)
Definition sorted_events (data : dict) : result (list value) :=
  es <- Py.iter (get_list data "life_events") ;;
  Py.sorted (fun x => Py.get x "year" (VInt 0)) es.

(** [now_year] is [datetime.now().year] at the time of the call. *)
Definition _analyze_timelines (now_year : Z) (data : dict) : result value :=
  events <- sorted_events data ;;
  career_start <-
    match events with
    | first :: _ => Py.getitem first "year"
    | [] => Ok VNone
    end ;;
  milestone_frequency <-
    match events with
    | first :: _ =>
        year <- Py.getitem first "year" ;;
        elapsed <- Py.sub (VInt now_year) year ;;
        Py.truediv (VInt (Z.of_nat (length events))) elapsed
    | [] => Ok (VInt 0)
    end ;;
  Ok (VDict [("career_start", career_start);
             ("milestone_frequency", milestone_frequency)]).

Definition analyze_creator (now_year : Z) (data : dict) : result value :=
  basic_stats <- _calculate_basic_stats data ;;
  business_analysis <- _analyze_business data ;;
  values_assessment <- _assess_values data ;;
  timeline_analysis <- _analyze_timelines now_year data ;;
  Ok (VDict [("basic_stats", basic_stats);
             ("business_analysis", business_analysis);
             ("values_assessment", values_assessment);
             ("timeline_analysis", timeline_analysis)]).

End Agent.

(** ** models.py: the schema *)

(** The classes are pydantic models: a class body declares the fields and
    their [Field] constraints, and constructing an instance checks every
    field and fails with one [ValidationError] listing the fields whose
    constraint is violated.  A string is the sequence of its characters. *)

Module Models.

Inductive constraint : Type :=
| Ge (bound : Z)
| Le (bound : Z)
| GeFloat (bound : Q)
| MinLength (n : nat)
| MaxLength (n : nat)
| Pattern (alternatives : list string)
| Validator (message : string).

Record error : Type := { loc : string; violated : constraint }.

Inductive validation (A : Type) : Type :=
| Valid (a : A)
| ValidationError (errors : list error).
Arguments Valid {A} a.
Arguments ValidationError {A} errors.

(** [Field(..., ge=lo, le=hi)] on an [int] *)
Definition check_int (field : string) (lo hi : Z) (v : Z) : list error :=
  if (v <? lo)%Z then [{| loc := field; violated := Ge lo |}]
  else if (hi <? v)%Z then [{| loc := field; violated := Le hi |}]
  else [].

(** [Field(..., min_length=lo, max_length=hi)] on a [str] *)
Definition check_str (field : string) (lo hi : nat) (s : string) : list error :=
  if Nat.ltb (String.length s) lo then [{| loc := field; violated := MinLength lo |}]
  else if Nat.ltb hi (String.length s) then [{| loc := field; violated := MaxLength hi |}]
  else [].

(** [Field(..., pattern="^(a|b|...)$")] *)
Definition check_pattern (field : string) (alternatives : list string) (s : string)
  : list error :=
  if mem_string s alternatives then []
  else [{| loc := field; violated := Pattern alternatives |}].

(** An [Optional] field is checked only when it is given. *)
Definition check_optional {A} (check : A -> list error) (v : option A) : list error :=
  match v with
  | Some a => check a
  | None => []
  end.

Definition optional_value {A} (inj : A -> value) (v : option A) : value :=
  match v with
  | Some a => inj a
  | None => VNone
  end.

Module ChallengeObject.

Record t : Type := {
  description : string;
  year : Z;
  learnings : string;
  duration : option Z
}.

Section Construction.

(** [datetime.now().year] when the class body was evaluated *)
Variable current_year : Z.

Definition errors (c : t) : list error :=
  check_str "description" 10 200 (description c) ++
  check_int "year" 2005 current_year (year c) ++
  check_str "learnings" 10 500 (learnings c) ++
  check_optional (check_int "duration" 1 120) (duration c).

(** [ChallengeObject(description=..., year=..., learnings=..., duration=...)] *)
Definition new (c : t) : validation t :=
  match errors c with
  | [] => Valid c
  | errs => ValidationError errs
  end.

End Construction.

End ChallengeObject.

Module LifeEventObject.

Record t : Type := {
  name : string;
  year : Z;
  description : string;
  impact : string;
  category : option string
}.

Section Construction.

Variable current_year : Z.

Definition errors (e : t) : list error :=
  check_str "name" 2 100 (name e) ++
  check_int "year" 1900 current_year (year e) ++
  check_str "description" 10 500 (description e) ++
  check_str "impact" 10 500 (impact e) ++
  check_optional
    (check_pattern "category" ["personal"; "professional"; "financial"])
    (category e).

Definition new (e : t) : validation t :=
  match errors e with
  | [] => Valid e
  | errs => ValidationError errs
  end.

End Construction.

(** [e.dict()] *)
Definition to_dict (e : t) : value :=
  VDict [("name", VStr (name e));
         ("year", VInt (year e));
         ("description", VStr (description e));
         ("impact", VStr (impact e));
         ("category", optional_value VStr (category e))].

End LifeEventObject.

Module BusinessObject.

Record t : Type := {
  name : string;
  description : string;
  year_started : Z;
  annual_revenue : option Q;
  business_type : string;
  status : string
}.

(** The default of the [status] field *)
Definition default_status : string := "active".

Section Construction.

(** [current_year] is the year when the class body was evaluated,
    [now_year] the year when the instance is constructed. *)
Variables current_year now_year : Z.

(** The [field_validator] of [year_started]; it runs on a value that has
    passed the [Field] constraints. *)
Definition validate_year_started (v : Z) : list error :=
  if (now_year <? v)%Z
  then [{| loc := "year_started";
           violated := Validator "Business cannot start in the future" |}]
  else [].

Definition check_year_started (v : Z) : list error :=
  match check_int "year_started" 2005 current_year v with
  | [] => validate_year_started v
  | errs => errs
  end.

Definition check_revenue (q : Q) : list error :=
  if Qle_bool 0 q then []
  else [{| loc := "annual_revenue"; violated := GeFloat 0 |}].

Definition errors (b : t) : list error :=
  check_str "name" 2 100 (name b) ++
  check_str "description" 10 500 (description b) ++
  check_year_started (year_started b) ++
  check_optional check_revenue (annual_revenue b) ++
  check_pattern "business_type"
    ["merchandise"; "courses"; "sponsorships"; "production"; "other"]
    (business_type b) ++
  check_pattern "status" ["active"; "inactive"; "sold"; "acquired"] (status b).

Definition new (b : t) : validation t :=
  match errors b with
  | [] => Valid b
  | errs => ValidationError errs
  end.

End Construction.

(** [b.dict()] *)
Definition to_dict (b : t) : value :=
  VDict [("name", VStr (name b));
         ("description", VStr (description b));
         ("year_started", VInt (year_started b));
         ("annual_revenue", optional_value VFloat (annual_revenue b));
         ("business_type", VStr (business_type b));
         ("status", VStr (status b))].

End BusinessObject.

End Models.

(** ** utils.py: the merge, on the objects *)

(** Dictionaries and lists are objects: a variable, a dictionary entry and a
    list element hold a reference, and [d[key] = v] changes the object every
    holder of the reference sees.  The heap lists the objects; a reference
    is an index into it. *)

Module Store.

Definition ref := nat.

Inductive pyval : Type :=
| PNone
| PBool (b : bool)
| PInt (n : Z)
| PFloat (q : Q)
| PStr (s : string)
| PRef (r : ref).

Inductive obj : Type :=
| ODict (items : list (string * pyval))
| OList (elems : list pyval).

Definition heap := list obj.

(** A new object gets the next free reference. *)
Definition alloc (o : obj) (h : heap) : pyval * heap :=
  (PRef (length h), (h ++ [o])%list).

(** [d[key] = v] on the dictionary at [r] *)
Definition setitem (r : ref) (key : string) (v : pyval) (h : heap) : result heap :=
  match h !! r with
  | Some (ODict items) => Ok (<[r := ODict (dict_set key v items)]> h)
  | _ => Raise TypeError
  end.

(** [v.copy()]: a new object with the same entries, which still refer to the
    same objects. *)
Definition copy (v : pyval) (h : heap) : result (pyval * heap) :=
  match v with
  | PRef r =>
      match h !! r with
      | Some o => Ok (alloc o h)
      | None => Raise AttributeError
      end
  | _ => Raise AttributeError
  end.

(** The loop [for key, val in update.items()] of [recursive_merge], with
    [rec] for the recursive call.  [b] and [u] are the dictionaries [base]
    and [update]; [size] is the number of items [update] had when the loop
    began, [pos] the position of the next item.  The items of [update] are
    read from the heap at every step, as the iterator does: it stops with a
    [RuntimeError] when the dictionary has changed size, and sees a value
    that was replaced meanwhile. *)
Fixpoint merge_loop (rec : pyval -> pyval -> heap -> result (pyval * heap))
  (b u : ref) (size remaining pos : nat) (h : heap) {struct remaining}
  : result heap :=
  match h !! u with
  | Some (ODict cur) =>
      if negb (Nat.eqb (length cur) size) then Raise RuntimeError
      else
        match remaining, cur !! pos with
        | S remaining', Some (key, val) =>
            match h !! b with
            | Some (ODict bitems) =>
                match dict_get key bitems with
                | Some old =>
                    r <- rec old val h ;;
                    h2 <- setitem b key (fst r) (snd r) ;;
                    merge_loop rec b u size remaining' (S pos) h2
                | None =>
                    h2 <- setitem b key val h ;;
                    merge_loop rec b u size remaining' (S pos) h2
                end
            | _ => Raise TypeError
            end
        | _, _ => Ok h
        end
  | _ => Raise TypeError
  end.

(** [recursive_merge].  [depth] is the number of nested calls the interpreter
    still allows. *)
Fixpoint recursive_merge (depth : nat) (base update : pyval) (h : heap)
  {struct depth} : result (pyval * heap) :=
  match depth with
  | O => Raise RecursionError
  | S depth' =>
      match base, update with
      | PRef b, PRef u =>
          match h !! b, h !! u with
          | Some (ODict _), Some (ODict uitems) =>
              h' <- merge_loop (recursive_merge depth') b u
                      (length uitems) (length uitems) 0%nat h ;;
              Ok (PRef b, h')
          | Some (OList belems), Some (OList uelems) =>
              Ok (alloc (OList (belems ++ uelems)) h)
          | _, _ => Ok (update, h)
          end
      | _, _ => Ok (update, h)
      end
  end.

Definition merge_content_creator_info (depth : nat) (source1 source2 : pyval)
  (h : heap) : result (pyval * heap) :=
  r <- copy source1 h ;;
  recursive_merge depth (fst r) source2 (snd r).

(** The value a reference stands for: the objects reachable from it, read
    down to [depth] levels. *)
Fixpoint snapshot (depth : nat) (h : heap) (v : pyval) {struct depth}
  : option value :=
  match v with
  | PNone => Some VNone
  | PBool b => Some (VBool b)
  | PInt n => Some (VInt n)
  | PFloat q => Some (VFloat q)
  | PStr s => Some (VStr s)
  | PRef r =>
      match depth with
      | O => None
      | S depth' =>
          match h !! r with
          | Some (OList elems) =>
              VList <$> mapM (snapshot depth' h) elems
          | Some (ODict items) =>
              VDict <$> mapM (fun kv => pair (fst kv) <$> snapshot depth' h (snd kv))
                             items
          | None => None
          end
      end
  end.

(** The elements of [l] built one after the other by [f], each in the heap
    the one before has left. *)
Fixpoint store_all {A B} (f : A -> heap -> B * heap) (l : list A) (h : heap)
  : list B * heap :=
  match l with
  | [] => ([], h)
  | x :: l' =>
      let p := f x h in
      let ps := store_all f l' (snd p) in
      (fst p :: fst ps, snd ps)
  end.

(** A value built in the heap, every dictionary and list of it a new
    object. *)
Fixpoint store (v : value) (h : heap) {struct v} : pyval * heap :=
  match v with
  | VNone => (PNone, h)
  | VBool b => (PBool b, h)
  | VInt n => (PInt n, h)
  | VFloat q => (PFloat q, h)
  | VStr s => (PStr s, h)
  | VList elems =>
      let r := store_all store elems h in
      alloc (OList (fst r)) (snd r)
  | VDict items =>
      let r := store_all
                 (fun kv h => let p := store (snd kv) h in ((fst kv, fst p), snd p))
                 items h in
      alloc (ODict (fst r)) (snd r)
  end.

(** The number of objects nested in one another, which is the depth of
    recursion it takes to walk the value. *)
Fixpoint height (v : value) : nat :=
  match v with
  | VList elems => S (fold_right (fun x n => Nat.max (height x) n) 0%nat elems)
  | VDict items => S (fold_right (fun kv n => Nat.max (height (snd kv)) n) 0%nat items)
  | _ => 0%nat
  end.

End Store.

(** ** Notions the statements use *)

Module Spec.

(** The year a life event carries, if it is a mapping with an integer under
    ["year"]. *)
Definition event_year (e : value) : option Z :=
  match e with
  | VDict items =>
      match dict_get "year" items with
      | Some (VInt y) => Some y
      | _ => None
      end
  | _ => None
  end.

(** The key the events are sorted by, [x.get("year", 0)], when it is an
    integer. *)
Definition event_key (e : value) : option Z :=
  match e with
  | VDict items =>
      match dict_get "year" items with
      | Some (VInt y) => Some y
      | Some _ => None
      | None => Some 0
      end
  | _ => None
  end.

(** The results of [f] on the events, in their order, if [f] is defined on
    every event. *)
Fixpoint all_some (f : value -> option Z) (events : list value) : option (list Z) :=
  match events with
  | [] => Some []
  | e :: rest =>
      match f e, all_some f rest with
      | Some y, Some ys => Some (y :: ys)
      | _, _ => None
      end
  end.

(** The years of the events, if every event carries one. *)
Definition years_of (events : list value) : option (list Z) :=
  all_some event_year events.

Definition keys_of (events : list value) : option (list Z) :=
  all_some event_key events.

(** The event is a mapping without a ["year"] entry. *)
Definition lacks_year (e : value) : bool :=
  match e with
  | VDict items => negb (dict_mem "year" items)
  | _ => false
  end.

(** The least of the years [y :: ys]. *)
Definition minimum (y : Z) (ys : list Z) : Z := fold_left Z.min ys y.

(** The number of businesses whose status is "active". *)
Definition active_status_count (bs : list Models.BusinessObject.t) : nat :=
  length (List.filter (fun b => String.eqb (Models.BusinessObject.status b) "active") bs).


(** The creator record whose only field is the list of [key]. *)
Definition record_of (key : string) (entries : list value) : dict :=
  [(key, VList entries)].

(** An insertion sort on pairs with integer keys, the pure counterpart of
    [Py.sort_pairs]. *)
Fixpoint insert_Z (x : Z * value) (l : list (Z * value)) : list (Z * value) :=
  match l with
  | [] => [x]
  | y :: rest =>
      if (fst x <? fst y)%Z then x :: y :: rest else y :: insert_Z x rest
  end.

Fixpoint sort_Z (todo acc : list (Z * value)) : list (Z * value) :=
  match todo with
  | [] => acc
  | x :: rest => sort_Z rest (insert_Z x acc)
  end.

Definition tag (p : Z * value) : value * value := (VInt (fst p), snd p).

End Spec.

(** ** Sample data *)

Module Sample.

Definition merch_store : Models.BusinessObject.t :=
  {| Models.BusinessObject.name := "Merch Store";
     Models.BusinessObject.description := "Shirts and mugs of the channel";
     Models.BusinessObject.year_started := 2018;
     Models.BusinessObject.annual_revenue := Some (inject_Z 5000);
     Models.BusinessObject.business_type := "merchandise";
     Models.BusinessObject.status := Models.BusinessObject.default_status |}.

(** A life event dated [year]. *)
Definition channel_launch (year : Z) : Models.LifeEventObject.t :=
  {| Models.LifeEventObject.name := "Channel Launch";
     Models.LifeEventObject.year := year;
     Models.LifeEventObject.description := "The first video went online";
     Models.LifeEventObject.impact := "Start of the whole career";
     Models.LifeEventObject.category := Some "professional" |}.

Definition burnout (year : Z) : Models.ChallengeObject.t :=
  {| Models.ChallengeObject.description := "Burnout after daily uploads";
     Models.ChallengeObject.year := year;
     Models.ChallengeObject.learnings := "Plan breaks into the schedule";
     Models.ChallengeObject.duration := Some 6 |}.

(** A record with a nested mapping, and an update for the same key. *)
Definition nested_base : value := VDict [("a", VDict [("x", VInt 1)])].
Definition nested_update : value := VDict [("a", VDict [("y", VInt 2)])].

(** Python's default limit on the depth of recursion *)
Definition recursion_limit : nat := 1000.

End Sample.

(** ** Further notions and operations *)

Module Notions.

(** Both values are mappings, or both are sequences: the cases in which
    [recursive_merge] combines instead of overwriting. *)
Definition same_container (base update : value) : bool :=
  match base, update with
  | VDict _, VDict _ => true
  | VList _, VList _ => true
  | _, _ => false
  end.

(** The keys of [update] that [base] does not have, in [update]'s order. *)
Definition new_keys (base update : dict) : list string :=
  List.filter (fun k => negb (mem_string k (keys base))) (keys update).


Definition total (ns : list Z) : Z := fold_left Z.add ns 0.

(** The names of the entries, if every entry has one. *)
Fixpoint names_of (entries : list dict) : option (list value) :=
  match entries with
  | [] => Some []
  | d :: rest =>
      match dict_get "name" d, names_of rest with
      | Some name, Some names => Some (name :: names)
      | _, _ => None
      end
  end.

(** The event is a mapping with a positive integer year, or a mapping
    without a year. *)
Definition dated_positive_or_undated (e : value) : bool :=
  match e with
  | VDict items =>
      match dict_get "year" items with
      | Some (VInt y) => (0 <? y)%Z
      | Some _ => false
      | None => true
      end
  | _ => false
  end.

End Notions.

(** [merge_data_sources] of the analysis agent: the sources, which
    [ensure_dict] has made dictionaries, are merged one after the other into
    an empty dictionary. *)
Module Sources.



End Sources.

(** [calculate_career_duration] of utils.py; [current_year] is
    [datetime.now().year]. *)
Module Duration.

Definition calculate_career_duration (current_year start_year : Z) : Z :=
  Z.max (current_year - start_year) 0.

End Duration.

(** ** models.py: the other classes *)

Module Creator.

Import Models.

(** What a constructor call can fail on: a required field that is not
    given, or a field whose constraint is violated. *)
Inductive failure : Type :=
| Missing (field : string)
| Invalid (e : error).

Inductive construction (A : Type) : Type :=
| Built (a : A)
| Rejected (failures : list failure).
Arguments Built {A} a.
Arguments Rejected {A} failures.

Module ValueObject.

Record t : Type := {
  name : string;
  origin : string;
  impact_today : string;
  description : option string
}.

(** The keyword arguments of a constructor call; [None] is an argument that
    is not given. *)
Record kwargs : Type := {
  kw_name : option string;
  kw_origin : option string;
  kw_impact_today : option string;
  kw_description : option (option string)
}.

(** A required field: [Field(...)] *)
Definition required (field : string) (check : string -> list error)
  (v : option string) : list failure :=
  match v with
  | None => [Missing field]
  | Some s => map Invalid (check s)
  end.

Definition failures (a : kwargs) : list failure :=
  required "name" (check_str "name" 2 50) (kw_name a) ++
  required "impact_today" (fun _ => []) (kw_impact_today a) ++
  match kw_description a with
  | Some (Some s) => map Invalid (check_str "description" 0 500 s)
  | _ => []
  end.

(** The constructor call with the arguments [a]: the defaults are
    ["Personal belief"] for [origin] and [None] for [description]. *)
Definition new (a : kwargs) : construction t :=
  match failures a, kw_name a, kw_impact_today a with
  | [], Some n, Some i =>
      Built {| name := n;
               origin := match kw_origin a with
                         | Some o => o
                         | None => "Personal belief"
                         end;
               impact_today := i;
               description := match kw_description a with
                              | Some d => d
                              | None => None
                              end |}
  | fs, _, _ => Rejected fs
  end.

(** The call of [process_creator_data] in app.py:
    [ValueObject(name=..., description=...)] *)
Definition app_call (value_name value_desc : string) : kwargs :=
  {| kw_name := Some value_name;
     kw_origin := None;
     kw_impact_today := None;
     kw_description := Some (Some value_desc) |}.

Definition to_dict (v : t) : value :=
  VDict [("name", VStr (name v));
         ("origin", VStr (origin v));
         ("impact_today", VStr (impact_today v));
         ("description", optional_value VStr (description v))].

End ValueObject.

Module AchievementObject.

Record t : Type := {
  description : string;
  year : Z;
  impact : string;
  metrics : list (string * Q)
}.

Definition to_dict (a : t) : value :=
  VDict [("description", VStr (description a));
         ("year", VInt (year a));
         ("impact", VStr (impact a));
         ("metrics", VDict (map (fun kv => (fst kv, VFloat (snd kv))) (metrics a)))].

End AchievementObject.

Module PersonalInfo.

Record t : Type := {
  full_name : string;
  channel_name : string;
  channel_url : string;
  niche : string;
  start_year : Z;
  country : option string;
  team_size : Z
}.

Definition to_dict (p : t) : value :=
  VDict [("full_name", VStr (full_name p));
         ("channel_name", VStr (channel_name p));
         ("channel_url", VStr (channel_url p));
         ("niche", VStr (niche p));
         ("start_year", VInt (start_year p));
         ("country", optional_value VStr (country p));
         ("team_size", VInt (team_size p))].

End PersonalInfo.

(** [c.dict()] of a challenge *)
Definition challenge_to_dict (c : ChallengeObject.t) : value :=
  VDict [("description", VStr (ChallengeObject.description c));
         ("year", VInt (ChallengeObject.year c));
         ("learnings", VStr (ChallengeObject.learnings c));
         ("duration", optional_value VInt (ChallengeObject.duration c))].

Module ContentCreatorInfo.

Record t : Type := {
  personal_info : PersonalInfo.t;
  values : list ValueObject.t;
  challenges : list ChallengeObject.t;
  achievements : list AchievementObject.t;
  life_events : list LifeEventObject.t;
  businesses : list BusinessObject.t;
  analysis_metadata : dict
}.

(** [creator_info.dict()], which app.py passes to [analyze_creator] *)
Definition to_dict (c : t) : dict :=
  [("personal_info", PersonalInfo.to_dict (personal_info c));
   ("values", VList (map ValueObject.to_dict (values c)));
   ("challenges", VList (map challenge_to_dict (challenges c)));
   ("achievements", VList (map AchievementObject.to_dict (achievements c)));
   ("life_events", VList (map LifeEventObject.to_dict (life_events c)));
   ("businesses", VList (map BusinessObject.to_dict (businesses c)));
   ("analysis_metadata", VDict (analysis_metadata c))].

End ContentCreatorInfo.

(** The analysis of a record of the schema, as [analyze_creator] returns it
    when it returns. *)
Definition expected_analysis (now_year : Z) (c : ContentCreatorInfo.t) : value :=
  let number_of {A} (l : list A) := VInt (Z.of_nat (length l)) in
  VDict
    [("basic_stats",
      VDict [("total_life_events", number_of (ContentCreatorInfo.life_events c));
             ("total_challenges", number_of (ContentCreatorInfo.challenges c));
             ("total_achievements", number_of (ContentCreatorInfo.achievements c));
             ("business_count", number_of (ContentCreatorInfo.businesses c))]);
     ("business_analysis",
      VDict [("total_businesses", number_of (ContentCreatorInfo.businesses c));
             ("active_businesses", VInt 0);
             ("average_revenue",
              match ContentCreatorInfo.businesses c with
              | [] => VInt 0
              | _ :: _ =>
                  VFloat (inject_Z 0
                          / inject_Z (Z.of_nat (length (ContentCreatorInfo.businesses c))))
              end)]);
     ("values_assessment",
      VDict [("core_values",
              VList (map (fun v => VStr (ValueObject.name v))
                         (ContentCreatorInfo.values c)));
             ("value_consistency_score",
              VFloat (inject_Z (Z.of_nat (length (ContentCreatorInfo.values c)))
                      / inject_Z 10))]);
     ("timeline_analysis",
      match map LifeEventObject.year (ContentCreatorInfo.life_events c) with
      | [] => VDict [("career_start", VNone); ("milestone_frequency", VInt 0)]
      | y :: ys =>
          VDict [("career_start", VInt (Spec.minimum y ys));
                 ("milestone_frequency",
                  VFloat (inject_Z (Z.of_nat (length (ContentCreatorInfo.life_events c)))
                          / inject_Z (now_year - Spec.minimum y ys)))]
      end)].

(** The earliest year of the life events is the current year. *)
Definition starts_this_year (now_year : Z) (c : ContentCreatorInfo.t) : bool :=
  match map LifeEventObject.year (ContentCreatorInfo.life_events c) with
  | [] => false
  | y :: ys => (Spec.minimum y ys =? now_year)%Z
  end.

End Creator.

(** ** The shape of the objects a value is built of *)

Module Objects.

Import Store.

(** [tree h v p F]: in the heap [h] the Python value [p] stands for the
    value [v], every dictionary and list of [v] is an object of its own, and
    all these objects have their references in [F].  No object is used
    twice: the elements of a list, and the values of a dictionary, occupy
    disjoint parts of [F], none of which contains the object itself. *)
Inductive tree (h : heap) : value -> pyval -> gset nat -> Prop :=
| tree_none F : tree h VNone PNone F
| tree_bool b F : tree h (VBool b) (PBool b) F
| tree_int n F : tree h (VInt n) (PInt n) F
| tree_float q F : tree h (VFloat q) (PFloat q) F
| tree_str s F : tree h (VStr s) (PStr s) F
| tree_list r vs ps F :
    h !! r = Some (OList ps) -> r ∈ F -> trees h vs ps (F ∖ {[r]}) ->
    tree h (VList vs) (PRef r) F
| tree_dict r items pitems F :
    h !! r = Some (ODict pitems) -> r ∈ F -> entries h items pitems (F ∖ {[r]}) ->
    tree h (VDict items) (PRef r) F
with trees (h : heap) : list value -> list pyval -> gset nat -> Prop :=
| trees_nil F : trees h [] [] F
| trees_cons v p vs ps F1 F2 F :
    tree h v p F1 -> trees h vs ps F2 -> F1 ## F2 -> F1 ∪ F2 ⊆ F ->
    trees h (v :: vs) (p :: ps) F
with entries (h : heap) : dict -> list (string * pyval) -> gset nat -> Prop :=
| entries_nil F : entries h [] [] F
| entries_cons k v p items pitems F1 F2 F :
    tree h v p F1 -> entries h items pitems F2 -> F1 ## F2 -> F1 ∪ F2 ⊆ F ->
    entries h ((k, v) :: items) ((k, p) :: pitems) F.

Scheme tree_mut := Minimality for tree Sort Prop
  with trees_mut := Minimality for trees Sort Prop
  with entries_mut := Minimality for entries Sort Prop.
Combined Scheme tree_mutind from tree_mut, trees_mut, entries_mut.

(** The references of the objects allocated between [h] and [h']. *)
Definition fresh (h h' : heap) : gset nat :=
  set_seq (length h) (length h' - length h).

(** Every reference of [F] is a reference of [h]. *)
Definition bounded (h : heap) (F : gset nat) : Prop :=
  forall a, a ∈ F -> (a < length h)%nat.

(** [store] builds [v] as a tree of new objects, on top of any heap. *)
Definition builds (v : value) : Prop :=
  forall h, exists ext,
    snd (store v h) = (h ++ ext)%list /\
    tree (h ++ ext)%list v (fst (store v h)) (fresh h (h ++ ext)%list).

(** One item of a dictionary, as [store] builds it. *)
Definition store_item (kv : string * value) (h : heap) : (string * pyval) * heap :=
  let p := store (snd kv) h in ((fst kv, fst p), snd p).

(** What a merge that starts in [h] and ends in [h'] with the result [r]
    has done, when its arguments occupy [F]: [r] stands for the value [m], in
    objects of [F] or new ones, and no older object outside [F] has
    changed. *)
Definition merge_post (h h' : heap) (m : value) (r : pyval) (F : gset nat) : Prop :=
  (length h <= length h')%nat /\
  tree h' m r (F ∪ fresh h h') /\
  (forall a, (a < length h)%nat -> a ∉ F -> h' !! a = h !! a).

(** [rec] merges as [Utils.recursive_merge] does, on disjoint trees whose
    update is nested at most [n] deep. *)
Definition rec_ok (rec : pyval -> pyval -> heap -> result (pyval * heap)) (n : nat)
  : Prop :=
  forall b u pb pu h Fb Fu,
    (height u <= n)%nat ->
    tree h b pb Fb -> tree h u pu Fu -> Fb ## Fu -> bounded h (Fb ∪ Fu) ->
    exists r h',
      rec pb pu h = Ok (r, h') /\
      merge_post h h' (Utils.recursive_merge b u) r (Fb ∪ Fu).

End Objects.

(** ** utils.py and agent.py: the report *)

Module Report.

Import Stdlib.Strings.Ascii.

(** The exceptions of the report functions.  [Runtime cause] is the
    [RuntimeError] that [save_output_to_markdown] raises from [cause]. *)
Inductive exception : Type :=
| FileNotFound (path : string)
| OSError (path : string)
| Runtime (cause : exception)
| Name (name : string)
| Value (message : string).

Inductive outcome (A : Type) : Type :=
| Returns (a : A)
| Raises (e : exception).
Arguments Returns {A} a.
Arguments Raises {A} e.

Definition newline : string := String (Ascii.ascii_of_nat 10) EmptyString.

(** [s.replace('_', ' ')] *)
Fixpoint replace_underscores (s : string) : string :=
  match s with
  | EmptyString => EmptyString
  | String c rest =>
      String (if Ascii.eqb c "_"%char then " "%char else c) (replace_underscores rest)
  end.

(** ["#" * level] *)
Fixpoint hashes (level : nat) : string :=
  match level with
  | O => EmptyString
  | S n => String "#"%char (hashes n)
  end.

(** [os.path.dirname] of a POSIX path: what stands before the last slash,
    without the slashes that end it, unless it consists of slashes only. *)
Fixpoint has_slash (s : string) : bool :=
  match s with
  | EmptyString => false
  | String c rest => Ascii.eqb c "/"%char || has_slash rest
  end.

Fixpoint only_slashes (s : string) : bool :=
  match s with
  | EmptyString => true
  | String c rest => Ascii.eqb c "/"%char && only_slashes rest
  end.

(** The path up to and including its last slash *)
Fixpoint head_of (s : string) : string :=
  match s with
  | EmptyString => EmptyString
  | String c rest => if has_slash s then String c (head_of rest) else EmptyString
  end.

(** [s.rstrip('/')] *)
Fixpoint rstrip_slashes (s : string) : string :=
  match s with
  | EmptyString => EmptyString
  | String c rest => if only_slashes s then EmptyString else String c (rstrip_slashes rest)
  end.

Definition dirname (path : string) : string :=
  let head := head_of path in
  if only_slashes head then head else rstrip_slashes head.

Section Functions.

(** What the library and the system do is taken as given: [title] is
    [str.title], [str] is the built-in [str], which the f-strings apply to
    a value; [mkdir_ok path] tells whether [os.makedirs] can create the
    directories of a path that is not empty, [open_ok path] whether the file
    can be opened for writing, and [abspath] is [os.path.abspath]. *)
Variable title : string -> string.
Variable str : value -> string.
Variable mkdir_ok : string -> bool.
Variable open_ok : string -> bool.
Variable abspath : string -> string.

(** [f"\n{header} {key.title().replace('_', ' ')}\n"] *)
Definition heading (level : nat) (key : string) : string :=
  newline ++ hashes level ++ " " ++ replace_underscores (title key) ++ newline.

(** [f"- {str(item)}\n"] *)
Definition bullet (item : value) : string :=
  "- " ++ str item ++ newline.

(** [f"**{key.title()}:** {value}\n\n"] *)
Definition key_value (key : string) (v : value) : string :=
  "**" ++ title key ++ ":** " ++ str v ++ newline ++ newline.

(** [process_section]: the lines it appends to [content], in order.  A
    value is a finite tree here; the limit of the interpreter on the depth
    of the recursion is left out. *)
Fixpoint process_section (key : string) (v : value) (level : nat) {struct v}
  : list string :=
  match v with
  | VDict items =>
      heading level key ::
      (fix sections (items : dict) : list string :=
         match items with
         | [] => []
         | (k, x) :: rest => (process_section k x (S level) ++ sections rest)%list
         end) items
  | VList elems =>
      heading level key ::
      (fix bullets (elems : list value) : list string :=
         match elems with
         | [] => []
         | item :: rest =>
             (match item with
              | VDict _ => process_section "" item (S level)
              | _ => [bullet item]
              end ++ bullets rest)%list
         end) elems
  | _ => [key_value key v]
  end.

(** What the loop over a list makes of one element *)
Definition render_item (level : nat) (item : value) : list string :=
  match item with
  | VDict _ => process_section "" item (S level)
  | _ => [bullet item]
  end.

(** A line of a section rendered at [level] that has [d] levels of
    headings: a heading of one of these levels, a bullet or a key-value
    line. *)
Definition section_line (level d : nat) (line : string) : Prop :=
  (exists l key, (level <= l < level + d)%nat /\ line = heading l key) \/
  (exists item, line = bullet item) \/
  (exists key v, line = key_value key v).

(** The lines of the whole report *)
Fixpoint sections_of (data : dict) : list string :=
  match data with
  | [] => []
  | (section, details) :: rest =>
      (process_section section details 2 ++ sections_of rest)%list
  end.

Definition content_of (data : dict) : list string :=
  ("# Content Creator Analysis Report" ++ newline) :: sections_of data.

(** [os.makedirs(path, exist_ok=True)]: the empty path cannot be created. *)
Definition makedirs (path : string) : outcome unit :=
  if String.eqb path "" then Raises (FileNotFound "")
  else if mkdir_ok path then Returns tt
  else Raises (OSError path).

(** [open(path, "w")] *)
Definition open_for_writing (path : string) : outcome unit :=
  if open_ok path then Returns tt else Raises (OSError path).

(** The body of the [try] of [save_output_to_markdown]; it returns the path
    and the lines written to the file.  [filename] is [None] when the
    argument is not given; [timestamp] is
    [datetime.now().strftime("%Y%m%d%H%M")]. *)
Definition save_body (data : dict) (filename : option string) (timestamp : string)
  : outcome (string * list string) :=
  let given := match filename with
               | Some f => negb (String.eqb f "")
               | None => false
               end in
  match (if given then Returns tt else makedirs "reports") with
  | Raises e => Raises e
  | Returns _ =>
      let filename := match filename with
                      | Some f => if given then f
                                  else "reports/creator_report_" ++ timestamp ++ ".md"
                      | None => "reports/creator_report_" ++ timestamp ++ ".md"
                      end in
      match makedirs (dirname filename) with
      | Raises e => Raises e
      | Returns _ =>
          let content := content_of data in
          match open_for_writing filename with
          | Raises e => Raises e
          | Returns _ => Returns (abspath filename, content)
          end
      end
  end.

(** [save_output_to_markdown]: every exception of the body is raised again
    as a [RuntimeError]. *)
Definition save_output_to_markdown (data : dict) (filename : option string)
  (timestamp : string) : outcome (string * list string) :=
  match save_body data filename timestamp with
  | Returns r => Returns r
  | Raises e => Raises (Runtime e)
  end.

(** [generate_report] of the agent, without the time of the last activity
    that it records first.  The module agent.py does not import [json], so
    the name is not defined when [json.dump] is reached. *)
Definition generate_report (analysis : dict) (format : string) (timestamp : string)
  : outcome string :=
  let filename := "creator_report_" ++ timestamp ++ "." ++ format in
  match
    (if String.eqb format "markdown"
     then match save_output_to_markdown analysis (Some filename) timestamp with
          | Returns _ => Returns tt
          | Raises e => Raises e
          end
     else if String.eqb format "json"
     then match open_for_writing filename with
          | Returns _ => Raises (Name "json")
          | Raises e => Raises e
          end
     else Raises (Value "Unsupported format. Use 'markdown' or 'json'"))
  with
  | Returns _ => Returns (abspath filename)
  | Raises e => Raises e
  end.

End Functions.

(** How many levels of headings a value takes: none for a scalar, one more
    than its entries for a dictionary, one more than the dictionaries among
    its elements for a list. *)
Fixpoint depth (v : value) : nat :=
  match v with
  | VDict items =>
      S ((fix go (items : dict) : nat :=
            match items with
            | [] => O
            | (_, x) :: rest => Nat.max (depth x) (go rest)
            end) items)
  | VList elems =>
      S ((fix go (elems : list value) : nat :=
            match elems with
            | [] => O
            | item :: rest =>
                Nat.max (match item with VDict _ => depth item | _ => O end) (go rest)
            end) elems)
  | _ => O
  end.

Fixpoint ends_with_newline (s : string) : bool :=
  match s with
  | EmptyString => false
  | String c EmptyString => Ascii.eqb c (Ascii.ascii_of_nat 10)
  | String _ rest => ends_with_newline rest
  end.

End Report.

(** ** utils.py and models.py: the patterns of a channel address *)

Module Url.

Import Stdlib.Strings.Ascii.

(** The regular expressions the patterns are written with.  [Void] matches
    nothing; no pattern has it, the matcher needs it. *)
Inductive re : Type :=
| Void
| Eps
| Chr (c : ascii)
| Class (p : ascii -> bool)
| Seq (r1 r2 : re)
| Alt (r1 r2 : re)
| Star (r : re).

(** [r?], [r+] and a literal text *)
Definition Opt (r : re) : re := Alt r Eps.
Definition Plus (r : re) : re := Seq r (Star r).

Fixpoint Lit (s : string) : re :=
  match s with
  | EmptyString => Eps
  | String c rest => Seq (Chr c) (Lit rest)
  end.

(** The texts an expression matches as a whole *)
Inductive lang : re -> string -> Prop :=
| lang_eps : lang Eps ""
| lang_chr (c : ascii) : lang (Chr c) (String c "")
| lang_class (p : ascii -> bool) (c : ascii) : p c = true -> lang (Class p) (String c "")
| lang_seq (r1 r2 : re) (s1 s2 : string) :
    lang r1 s1 -> lang r2 s2 -> lang (Seq r1 r2) (s1 ++ s2)
| lang_alt_l (r1 r2 : re) (s : string) : lang r1 s -> lang (Alt r1 r2) s
| lang_alt_r (r1 r2 : re) (s : string) : lang r2 s -> lang (Alt r1 r2) s
| lang_star_nil (r : re) : lang (Star r) ""
| lang_star_cons (r : re) (s1 s2 : string) :
    lang r s1 -> lang (Star r) s2 -> lang (Star r) (s1 ++ s2).

(** Matching by derivatives: [nullable r] tells whether [r] matches the
    empty text, [deriv c r] matches what [r] matches after a [c]. *)
Fixpoint nullable (r : re) : bool :=
  match r with
  | Void => false
  | Eps => true
  | Chr _ => false
  | Class _ => false
  | Seq r1 r2 => nullable r1 && nullable r2
  | Alt r1 r2 => nullable r1 || nullable r2
  | Star _ => true
  end.

Fixpoint deriv (c : ascii) (r : re) : re :=
  match r with
  | Void => Void
  | Eps => Void
  | Chr d => if Ascii.eqb c d then Eps else Void
  | Class p => if p c then Eps else Void
  | Seq r1 r2 =>
      if nullable r1 then Alt (Seq (deriv c r1) r2) (deriv c r2)
      else Seq (deriv c r1) r2
  | Alt r1 r2 => Alt (deriv c r1) (deriv c r2)
  | Star r1 => Seq (deriv c r1) (Star r1)
  end.

(** [re.match(pattern, s)] finds a match that starts at the beginning of
    [s] and may end anywhere; the result here is whether there is one. *)
Fixpoint re_match (r : re) (s : string) : bool :=
  nullable r ||
  match s with
  | EmptyString => false
  | String c rest => re_match (deriv c r) rest
  end.

(** What a pattern matches at the beginning of a text *)
Definition starts_with (r : re) (url : string) : Prop :=
  exists t rest, lang r t /\ url = t ++ rest.

Definition newline : ascii := Ascii.ascii_of_nat 10.

(** [.] is any character but the newline. *)
Definition dot : re := Class (fun c => negb (Ascii.eqb c newline)).

Section Patterns.

(** [word c] tells whether [\w] matches [c]. *)
Variable word : ascii -> bool.

(** [[\w-]] *)
Definition word_or_dash (c : ascii) : bool := word c || Ascii.eqb c "-"%char.

(** [(https?://)?] and [(www\.)?] *)
Definition scheme : re :=
  Opt (Seq (Lit "http") (Seq (Opt (Chr "s"%char)) (Lit "://"))).

Definition www : re := Opt (Lit "www.").

(** The two patterns of [validate_youtube_url]:
    [(https?://)?(www\.)?youtube\.com/(channel/|@|user/)[\w-]+] and
    [(https?://)?(www\.)?youtu\.be/[\w-]+] *)
Definition patterns : list re :=
  [ Seq scheme (Seq www (Seq (Lit "youtube.com/")
      (Seq (Alt (Lit "channel/") (Alt (Lit "@") (Lit "user/")))
           (Plus (Class word_or_dash)))));
    Seq scheme (Seq www (Seq (Lit "youtu.be/") (Plus (Class word_or_dash)))) ].

(** [any(re.match(pattern, url) for pattern in patterns)] *)
Definition validate_youtube_url (url : string) : bool :=
  existsb (fun pattern => re_match pattern url) patterns.

End Patterns.

(** The pattern of the field [channel_url] of [PersonalInfo]:
    [^(https?\:\/\/)?(www\.)?(youtube\.com|youtu\.?be)\/.+]; it is looked
    for at the beginning of the text and may end anywhere. *)
Definition channel_url_pattern : re :=
  Seq scheme (Seq www
    (Seq (Alt (Lit "youtube.com")
              (Seq (Lit "youtu") (Seq (Opt (Chr "."%char)) (Lit "be"))))
         (Seq (Chr "/"%char) (Plus dot)))).

Definition channel_url_ok (url : string) : bool :=
  re_match channel_url_pattern url.

(** The parts of an address that [validate_youtube_url] looks at *)
Definition schemes : list string := [""; "http://"; "https://"].
Definition hosts : list string := [""; "www."].
Definition channel_prefixes : list string :=
  ["youtube.com/channel/"; "youtube.com/@"; "youtube.com/user/"; "youtu.be/"].

(** [url] is a scheme or none, [www.] or not, one of the four beginnings,
    a character of [[\w-]], and anything after it. *)
Definition channel_shape (word : ascii -> bool) (url : string) : Prop :=
  exists s w p c rest,
    In s schemes /\ In w hosts /\ In p channel_prefixes /\
    word_or_dash word c = true /\
    url = s ++ w ++ p ++ String c rest.

(** The sites the pattern of [channel_url] takes, and the addresses it
    accepts *)
Definition sites : list string := ["youtube.com"; "youtu.be"; "youtube"].

Definition channel_url_shape (url : string) : Prop :=
  exists s w h c rest,
    In s schemes /\ In w hosts /\ In h sites /\
    negb (Ascii.eqb c newline) = true /\
    url = s ++ w ++ h ++ "/" ++ String c rest.

(** What [\w] matches among the characters of ASCII: letters, digits and
    the underscore *)
Definition ascii_word (c : ascii) : bool :=
  let n := nat_of_ascii c in
  ((97 <=? n) && (n <=? 122) || (65 <=? n) && (n <=? 90) ||
   (48 <=? n) && (n <=? 57) || (n =? 95))%nat.

End Url.

(** * Properties *)

(** ** Dictionaries as item lists *)

Section DictFacts.

Context {V : Type}.
Implicit Types (d items : list (string * V)) (k key : string) (v : V).

Lemma dict_get_set_same key v d : dict_get key (dict_set key v d) = Some v.
Proof.
  induction d as [|[k w] d IH]; simpl.
  - now rewrite String.eqb_refl.
  - destruct (String.eqb key k) eqn:E; simpl; rewrite E; auto.
Qed.

Lemma dict_get_set_other key k v d :
  key <> k -> dict_get key (dict_set k v d) = dict_get key d.
Proof.
  intros Hne. induction d as [|[k' w] d IH]; simpl.
  - apply String.eqb_neq in Hne. now rewrite Hne.
  - destruct (String.eqb k k') eqn:E; simpl.
    + apply String.eqb_eq in E. subst k'.
      apply String.eqb_neq in Hne. now rewrite Hne.
    + now rewrite IH.
Qed.

Lemma dict_get_none_mem key d :
  dict_get key d = None <-> mem_string key (keys d) = false.
Proof.
  induction d as [|[k w] d IH]; simpl; [tauto|].
  destruct (String.eqb key k); simpl; [split; discriminate | exact IH].
Qed.

Lemma dict_mem_keys key d : dict_mem key d = mem_string key (keys d).
Proof.
  unfold dict_mem. destruct (dict_get key d) eqn:E.
  - destruct (mem_string key (keys d)) eqn:M; auto.
    apply dict_get_none_mem in M. congruence.
  - symmetry. now apply dict_get_none_mem.
Qed.

(** Writing a key the dictionary does not have appends the item. *)
Lemma dict_set_new key v d :
  mem_string key (keys d) = false -> dict_set key v d = (d ++ [(key, v)])%list.
Proof.
  induction d as [|[k w] d IH]; simpl; auto.
  destruct (String.eqb key k); simpl; [discriminate|].
  intros H. now rewrite IH.
Qed.

Lemma keys_app d1 d2 : keys (d1 ++ d2)%list = (keys d1 ++ keys d2)%list.
Proof. apply map_app. Qed.

Lemma mem_string_app k (l1 l2 : list string) :
  mem_string k (l1 ++ l2)%list = mem_string k l1 || mem_string k l2.
Proof.
  induction l1 as [|x l1 IH]; simpl; auto.
  now rewrite IH, orb_assoc.
Qed.

Lemma mem_string_In k (l : list string) : mem_string k l = true <-> In k l.
Proof.
  induction l as [|x l IH]; simpl; [split; [discriminate | tauto]|].
  rewrite orb_true_iff, String.eqb_eq, IH. split; intros [H|H]; auto.
Qed.

Lemma disjoint_keys_cons_l k v d1 d2 :
  disjoint_keys ((k, v) :: d1) d2 =
  negb (mem_string k (keys d2)) && disjoint_keys d1 d2.
Proof. reflexivity. Qed.

Lemma disjoint_keys_spec d1 d2 :
  disjoint_keys d1 d2 = true <->
  (forall k, In k (keys d1) -> mem_string k (keys d2) = false).
Proof.
  unfold disjoint_keys. rewrite forallb_forall. split; intros H k Hk.
  - specialize (H k Hk). now apply negb_true_iff in H.
  - apply negb_true_iff. auto.
Qed.

Lemma disjoint_keys_sym d1 d2 :
  disjoint_keys d1 d2 = true -> disjoint_keys d2 d1 = true.
Proof.
  rewrite !disjoint_keys_spec. intros H k Hk.
  destruct (mem_string k (keys d1)) eqn:E; auto.
  apply mem_string_In in E. specialize (H k E).
  apply mem_string_In in Hk. congruence.
Qed.

Lemma unique_keys_app d1 d2 :
  unique_keys d1 = true -> unique_keys d2 = true ->
  disjoint_keys d1 d2 = true -> unique_keys (d1 ++ d2)%list = true.
Proof.
  induction d1 as [|[k v] d1 IH]; simpl; auto.
  rewrite disjoint_keys_cons_l, !andb_true_iff, !negb_true_iff.
  intros [Hk Hu] Hu2 [Hk2 Hd]. split; auto.
  now rewrite keys_app, mem_string_app, Hk, Hk2.
Qed.

End DictFacts.

(** ** The merge on values *)

Section MergeFacts.

Import Utils.

Lemma recursive_merge_dict (b u : dict) :
  recursive_merge (VDict b) (VDict u) = VDict (merge_items u b).
Proof.
  reflexivity.
Qed.

Lemma recursive_merge_list (xs ys : list value) :
  recursive_merge (VList xs) (VList ys) = VList (xs ++ ys).
Proof. reflexivity. Qed.

Lemma merge_items_cons key val rest b :
  merge_items ((key, val) :: rest) b = merge_items rest (merge_step key val b).
Proof.
  cbn [merge_items]. unfold merge_step, dict_mem.
  now destruct (dict_get key b).
Qed.

Lemma merge_step_get_other k key val b :
  k <> key -> dict_get k (merge_step key val b) = dict_get k b.
Proof.
  intros Hne. unfold merge_step.
  destruct (dict_get key b); now apply dict_get_set_other.
Qed.

Lemma merge_step_get_same key val b :
  dict_get key (merge_step key val b) =
  Some (match dict_get key b with
        | Some old => recursive_merge old val
        | None => val
        end).
Proof.
  unfold merge_step. destruct (dict_get key b); apply dict_get_set_same.
Qed.

(** A key that [update] does not have keeps its value. *)
Lemma merge_items_get_absent k u b :
  mem_string k (keys u) = false ->
  dict_get k (merge_items u b) = dict_get k b.
Proof.
  revert b. induction u as [|[key val] u IH]; intros b; [reflexivity|].
  unfold keys. cbn [map fst mem_string]. fold (keys u).
  rewrite orb_false_iff. intros [Hk Hu]. rewrite merge_items_cons.
  rewrite IH by exact Hu. apply merge_step_get_other.
  now apply String.eqb_neq.
Qed.

(** A key of [update] ends up with [update]'s value, merged into the value
    [base] had for it, if any. *)
Lemma merge_items_get_present k v u b :
  unique_keys u = true -> dict_get k u = Some v ->
  dict_get k (merge_items u b) =
  Some (match dict_get k b with
        | Some old => recursive_merge old v
        | None => v
        end).
Proof.
  revert b. induction u as [|[key val] u IH]; intros b; [discriminate|].
  cbn [unique_keys dict_get]. rewrite andb_true_iff, negb_true_iff.
  intros [Hfresh Hu] Hget. rewrite merge_items_cons.
  destruct (String.eqb k key) eqn:E.
  - apply String.eqb_eq in E. subst key. injection Hget as ->.
    rewrite merge_items_get_absent by exact Hfresh.
    apply merge_step_get_same.
  - rewrite (IH _ Hu Hget).
    rewrite merge_step_get_other; [reflexivity | now apply String.eqb_neq].
Qed.

(** When no key of [update] is in [base], the items of [update] are appended
    in their order. *)
Lemma merge_items_disjoint u b :
  unique_keys u = true -> disjoint_keys u b = true ->
  merge_items u b = (b ++ u)%list.
Proof.
  revert b. induction u as [|[key val] u IH]; intros b.
  - intros _ _. simpl. now rewrite app_nil_r.
  - cbn [unique_keys]. rewrite disjoint_keys_cons_l, !andb_true_iff, !negb_true_iff.
    intros [Hfresh Hu] [Hkb Hd]. rewrite merge_items_cons.
    unfold merge_step.
    rewrite (proj2 (dict_get_none_mem key b) Hkb).
    rewrite (dict_set_new _ _ _ Hkb).
    rewrite IH; auto.
    + now rewrite <- app_assoc.
    + apply disjoint_keys_spec. intros k Hk.
      rewrite keys_app, mem_string_app. simpl.
      rewrite (proj1 (disjoint_keys_spec u b) Hd k Hk). simpl.
      rewrite orb_false_r. apply String.eqb_neq. intros ->.
      apply mem_string_In in Hk. congruence.
Qed.

End MergeFacts.

Section MergeClaims.

Import Utils.

Lemma disjoint_keys_nil_r {V} (d : list (string * V)) :
  disjoint_keys d (@nil (string * V)) = true.
Proof. apply disjoint_keys_spec. reflexivity. Qed.

Lemma merge_dicts (b u : dict) :
  merge_content_creator_info (VDict b) (VDict u) = Ok (VDict (merge_items u b)).
Proof. reflexivity. Qed.

(** C4. The empty mapping is a two-sided identity of the merge: for every
    mapping [x], merging [x] into the empty mapping gives [x], and merging
    the empty mapping into [x] gives [x]. *)
Theorem C4_empty_mapping_is_identity (x : dict) :
  unique_keys x = true ->
  merge_content_creator_info (VDict []) (VDict x) = Ok (VDict x) /\
  merge_content_creator_info (VDict x) (VDict []) = Ok (VDict x).
Proof.
  intros Hx. split; [|reflexivity].
  rewrite merge_dicts, merge_items_disjoint; auto using disjoint_keys_nil_r.
Qed.

Lemma C4_empty_mapping_is_identity_witness :
  let x := [("name", VStr "Ada"); ("values", VList [VDict [("name", VStr "Honesty")]])] in
  unique_keys x = true /\
  merge_content_creator_info (VDict []) (VDict x) = Ok (VDict x) /\
  merge_content_creator_info (VDict x) (VDict []) = Ok (VDict x).
Proof.
  intros x. split; [reflexivity|].
  apply (C4_empty_mapping_is_identity x). reflexivity.
Defined.

(** C5. When [base] and [update] both hold a sequence under a key, the
    merged mapping holds under that key the elements of [base]'s sequence
    followed by those of [update]'s, each as often as it occurred.  So
    merging [{"x": [1]}] with [{"x": [2]}] gives [{"x": [1, 2]}], the other
    way round it gives [{"x": [2, 1]}], and the merge is not commutative. *)
Theorem C5_sequences_are_concatenated :
  (forall (base update : dict) (key : string) (xs ys : list value),
      unique_keys update = true ->
      dict_get key base = Some (VList xs) ->
      dict_get key update = Some (VList ys) ->
      exists merged,
        merge_content_creator_info (VDict base) (VDict update) = Ok (VDict merged) /\
        dict_get key merged = Some (VList (xs ++ ys))) /\
  merge_content_creator_info
    (VDict [("x", VList [VInt 1])]) (VDict [("x", VList [VInt 2])])
  = Ok (VDict [("x", VList [VInt 1; VInt 2])]) /\
  merge_content_creator_info
    (VDict [("x", VList [VInt 2])]) (VDict [("x", VList [VInt 1])])
  = Ok (VDict [("x", VList [VInt 2; VInt 1])]) /\
  merge_content_creator_info
    (VDict [("x", VList [VInt 1])]) (VDict [("x", VList [VInt 2])])
  <> merge_content_creator_info
    (VDict [("x", VList [VInt 2])]) (VDict [("x", VList [VInt 1])]).
Proof.
  split; [|split; [reflexivity | split; [reflexivity | discriminate]]].
  intros base update key xs ys Hu Hb Hk.
  exists (merge_items update base). split; [apply merge_dicts|].
  rewrite (merge_items_get_present key (VList ys) update base Hu Hk), Hb.
  reflexivity.
Qed.

Lemma C5_sequences_are_concatenated_witness :
  let base := [("values", VList [VStr "a"; VStr "b"]); ("n", VInt 1)] in
  let update := [("n", VInt 2); ("values", VList [VStr "b"; VStr "c"])] in
  exists merged,
    merge_content_creator_info (VDict base) (VDict update) = Ok (VDict merged) /\
    dict_get "values" merged = Some (VList [VStr "a"; VStr "b"; VStr "b"; VStr "c"]).
Proof.
  intros base update.
  apply (proj1 C5_sequences_are_concatenated base update "values"
           [VStr "a"; VStr "b"] [VStr "b"; VStr "c"]); reflexivity.
Defined.

(** C6. For mappings [a], [b] and [c] of which no two have a key in common,
    merging [c] into the merge of [a] and [b] gives the same as merging the
    merge of [b] and [c] into [a].  No key being common, the merge never
    descends into a value, so the statement holds whatever the values are,
    nested mappings included. *)
Theorem C6_merge_associative_on_disjoint_keys (a b c : dict) :
  unique_keys b = true -> unique_keys c = true ->
  disjoint_keys a b = true -> disjoint_keys a c = true ->
  disjoint_keys b c = true ->
  (ab <- merge_content_creator_info (VDict a) (VDict b) ;;
   merge_content_creator_info ab (VDict c))
  = (bc <- merge_content_creator_info (VDict b) (VDict c) ;;
     merge_content_creator_info (VDict a) bc) /\
  (ab <- merge_content_creator_info (VDict a) (VDict b) ;;
   merge_content_creator_info ab (VDict c))
  = Ok (VDict (a ++ b ++ c)).
Proof.
  intros Hb Hc Hab Hac Hbc.
  rewrite !merge_dicts. cbn [bind]. rewrite !merge_dicts.
  rewrite (merge_items_disjoint b a), (merge_items_disjoint c b);
    auto using disjoint_keys_sym.
  assert (Hc_ab : disjoint_keys c (a ++ b)%list = true).
  { apply disjoint_keys_spec. intros k Hk.
    rewrite keys_app, mem_string_app.
    rewrite (proj1 (disjoint_keys_spec c a) (disjoint_keys_sym _ _ Hac) k Hk).
    now rewrite (proj1 (disjoint_keys_spec c b) (disjoint_keys_sym _ _ Hbc) k Hk). }
  assert (Hbc_a : disjoint_keys (b ++ c)%list a = true).
  { apply disjoint_keys_spec. intros k Hk.
    rewrite keys_app in Hk. apply in_app_or in Hk. destruct Hk as [Hk|Hk].
    - exact (proj1 (disjoint_keys_spec b a) (disjoint_keys_sym _ _ Hab) k Hk).
    - exact (proj1 (disjoint_keys_spec c a) (disjoint_keys_sym _ _ Hac) k Hk). }
  rewrite (merge_items_disjoint c (a ++ b)%list) by auto.
  rewrite (merge_items_disjoint (b ++ c)%list a) by auto using unique_keys_app.
  now rewrite <- app_assoc.
Qed.

Lemma C6_merge_associative_on_disjoint_keys_witness :
  let a := [("personal_info", VDict [("name", VStr "Ada")])] in
  let b := [("values", VDict [("first", VDict [("name", VStr "Honesty")])])] in
  let c := [("businesses", VDict [("shop", VDict [("status", VStr "active")])])] in
  (ab <- merge_content_creator_info (VDict a) (VDict b) ;;
   merge_content_creator_info ab (VDict c))
  = (bc <- merge_content_creator_info (VDict b) (VDict c) ;;
     merge_content_creator_info (VDict a) bc) /\
  (ab <- merge_content_creator_info (VDict a) (VDict b) ;;
   merge_content_creator_info ab (VDict c))
  = Ok (VDict (a ++ b ++ c)).
Proof.
  intros a b c.
  apply (C6_merge_associative_on_disjoint_keys a b c); reflexivity.
Defined.

End MergeClaims.

(** ** The business analysis *)

Section BusinessClaims.

Import Agent.

(** C7. For a creator record whose list of businesses is empty (or absent,
    which the code reads as empty), the business analysis returns, without
    raising, a result whose average revenue is the integer 0. *)
Theorem C7_empty_businesses_average_is_zero (data : dict) :
  get_list data "businesses" = VList [] ->
  _analyze_business data =
  Ok (VDict [("total_businesses", VInt 0);
             ("active_businesses", VInt 0);
             ("average_revenue", VInt 0)]).
Proof.
  intros H. unfold _analyze_business. rewrite H. reflexivity.
Qed.

Lemma C7_empty_businesses_average_is_zero_witness :
  let data := [("life_events", VList [VDict [("year", VInt 2018)]]);
               ("businesses", VList [])] in
  get_list data "businesses" = VList [] /\
  _analyze_business data =
  Ok (VDict [("total_businesses", VInt 0);
             ("active_businesses", VInt 0);
             ("average_revenue", VInt 0)]).
Proof.
  intros data. split; [reflexivity|].
  apply (C7_empty_businesses_average_is_zero data). reflexivity.
Defined.

Lemma truediv_int (a n : Z) :
  n <> 0 ->
  Py.truediv (VInt a) (VInt n) = Ok (VFloat (inject_Z a / inject_Z n)).
Proof.
  intros Hn. unfold Py.truediv. cbn [Py.to_num Py.num_Q].
  destruct (Qeq_bool (inject_Z n) 0) eqn:E; [|reflexivity].
  apply Qeq_bool_eq in E. unfold Qeq in E. simpl in E. lia.
Qed.

Lemma truediv_int_zero (a : Z) :
  Py.truediv (VInt a) (VInt 0) = Raise ZeroDivisionError.
Proof. reflexivity. Qed.


(** A record made by the schema has no [is_active] entry and no [revenue]
    entry. *)
Lemma count_active_schema (bs : list Models.BusinessObject.t) (acc : Z) :
  count_active (map Models.BusinessObject.to_dict bs) acc = Ok acc.
Proof.
  revert acc. induction bs as [|b bs IH]; intros acc; [reflexivity|].
  cbn [map count_active]. unfold Models.BusinessObject.to_dict at 1.
  cbn. apply IH.
Qed.

Lemma sum_revenue_schema (bs : list Models.BusinessObject.t) :
  sum_revenue (map Models.BusinessObject.to_dict bs) (VInt 0) = Ok (VInt 0).
Proof.
  induction bs as [|b bs IH]; [reflexivity|].
  cbn [map sum_revenue]. unfold Models.BusinessObject.to_dict at 1.
  cbn. apply IH.
Qed.

(** C3, as the code has it.  For every list of businesses made by the
    schema, whatever their status, the business analysis reports 0 active
    businesses: it counts the entries with a true [is_active] flag, which no
    schema record has.  The sample store has status "active" and is valid, so
    the number of businesses with that status is 1 where the analysis
    reports 0. *)
Theorem C3_active_businesses_ignores_status :
  (forall bs : list Models.BusinessObject.t,
      exists average,
        _analyze_business
          (Spec.record_of "businesses" (map Models.BusinessObject.to_dict bs))
        = Ok (VDict [("total_businesses", VInt (Z.of_nat (length bs)));
                     ("active_businesses", VInt 0);
                     ("average_revenue", average)])) /\
  Models.BusinessObject.new 2026 2026 Sample.merch_store = Models.Valid Sample.merch_store /\
  Spec.active_status_count [Sample.merch_store] = 1%nat /\
  _analyze_business
    (Spec.record_of "businesses" [Models.BusinessObject.to_dict Sample.merch_store])
  = Ok (VDict [("total_businesses", VInt 1);
               ("active_businesses", VInt 0);
               ("average_revenue", VFloat (0 / 1))]).
Proof.
  split; [|split; [reflexivity | split; reflexivity]].
  intros bs. unfold _analyze_business, Spec.record_of.
  cbn [get_list dict_get String.eqb Ascii.eqb Bool.eqb Py.len Py.iter bind].
  rewrite List.length_map, count_active_schema. cbn [bind].
  destruct bs as [|b bs]; [eexists; reflexivity|].
  cbn [Py.truthy length Nat.eqb negb].
  rewrite sum_revenue_schema. cbn [bind].
  rewrite truediv_int by lia. eexists. reflexivity.
Qed.

End BusinessClaims.

(** ** The schema *)

Section SchemaClaims.

Import Models.

Lemma check_str_ok (field : string) (lo hi : nat) (s : string) :
  (lo <= String.length s <= hi)%nat -> check_str field lo hi s = [].
Proof.
  intros [Hlo Hhi]. unfold check_str.
  destruct (Nat.ltb_spec (String.length s) lo); [lia|].
  destruct (Nat.ltb_spec hi (String.length s)); [lia|reflexivity].
Qed.

Lemma check_int_ok (field : string) (lo hi v : Z) :
  lo <= v <= hi -> check_int field lo hi v = [].
Proof.
  intros [Hlo Hhi]. unfold check_int.
  destruct (Z.ltb_spec v lo); [lia|].
  destruct (Z.ltb_spec hi v); [lia|reflexivity].
Qed.

Lemma check_int_below (field : string) (lo hi v : Z) :
  v < lo -> check_int field lo hi v = [{| loc := field; violated := Ge lo |}].
Proof.
  intros H. unfold check_int. destruct (Z.ltb_spec v lo); [reflexivity|lia].
Qed.

Lemma check_int_above (field : string) (lo hi v : Z) :
  lo <= v -> hi < v ->
  check_int field lo hi v = [{| loc := field; violated := Le hi |}].
Proof.
  intros Hlo Hhi. unfold check_int.
  destruct (Z.ltb_spec v lo); [lia|].
  destruct (Z.ltb_spec hi v); [reflexivity|lia].
Qed.

(** C8. Take a challenge record whose description, learnings and duration
    satisfy their constraints.  If its year is below 2005 or above the
    current year, construction fails with a validation error, which names
    the year field and the bound that is violated; if its year is in
    [2005, current_year], construction succeeds and returns the record. *)
Theorem C8_challenge_year_range (current_year : Z) (c : ChallengeObject.t) :
  (10 <= String.length (ChallengeObject.description c) <= 200)%nat ->
  (10 <= String.length (ChallengeObject.learnings c) <= 500)%nat ->
  (forall months, ChallengeObject.duration c = Some months -> 1 <= months <= 120) ->
  (ChallengeObject.year c < 2005 ->
   ChallengeObject.new current_year c =
   ValidationError [{| loc := "year"; violated := Ge 2005 |}]) /\
  (2005 <= ChallengeObject.year c -> current_year < ChallengeObject.year c ->
   ChallengeObject.new current_year c =
   ValidationError [{| loc := "year"; violated := Le current_year |}]) /\
  (2005 <= ChallengeObject.year c <= current_year ->
   ChallengeObject.new current_year c = Valid c).
Proof.
  intros Hdescription Hlearnings Hduration.
  assert (Hd : check_optional (check_int "duration" 1 120) (ChallengeObject.duration c) = []).
  { destruct (ChallengeObject.duration c) as [months|]; [|reflexivity].
    apply check_int_ok. now apply Hduration. }
  unfold ChallengeObject.new, ChallengeObject.errors.
  rewrite (check_str_ok _ _ _ _ Hdescription), (check_str_ok _ _ _ _ Hlearnings), Hd.
  repeat split.
  - intros Hy. now rewrite check_int_below.
  - intros Hlo Hhi. now rewrite check_int_above.
  - intros Hy. now rewrite check_int_ok.
Qed.

Lemma C8_challenge_year_range_witness :
  ChallengeObject.new 2026 (Sample.burnout 1999) =
    ValidationError [{| loc := "year"; violated := Ge 2005 |}] /\
  ChallengeObject.new 2026 (Sample.burnout 2027) =
    ValidationError [{| loc := "year"; violated := Le 2026 |}] /\
  ChallengeObject.new 2026 (Sample.burnout 2005) = Valid (Sample.burnout 2005) /\
  ChallengeObject.new 2026 (Sample.burnout 2026) = Valid (Sample.burnout 2026).
Proof.
  assert (Hduration : forall months, Some 6 = Some months -> 1 <= months <= 120).
  { intros months H. injection H as <-. lia. }
  split; [|split; [|split]].
  - apply (C8_challenge_year_range 2026 (Sample.burnout 1999));
      [simpl; lia | simpl; lia | exact Hduration | simpl; lia].
  - apply (C8_challenge_year_range 2026 (Sample.burnout 2027));
      [simpl; lia | simpl; lia | exact Hduration | simpl; lia | simpl; lia].
  - apply (C8_challenge_year_range 2026 (Sample.burnout 2005));
      [simpl; lia | simpl; lia | exact Hduration | simpl; lia].
  - apply (C8_challenge_year_range 2026 (Sample.burnout 2026));
      [simpl; lia | simpl; lia | exact Hduration | simpl; lia].
Defined.

End SchemaClaims.

(** ** The timeline analysis *)

Section SortFacts.

Import Spec.

Lemma insert_sorted_tag (x : Z * value) (l : list (Z * value)) :
  Py.insert_sorted (tag x) (map tag l) = Ok (map tag (insert_Z x l)).
Proof.
  induction l as [|y l IH]; [reflexivity|].
  cbn [map Py.insert_sorted insert_Z]. unfold tag at 1 2. cbn [fst Py.lt Py.to_num bind].
  destruct (fst x <? fst y)%Z; [reflexivity|].
  fold (tag x). rewrite IH. reflexivity.
Qed.

Lemma sort_pairs_tag (todo acc : list (Z * value)) :
  Py.sort_pairs (map tag todo) (map tag acc) = Ok (map tag (sort_Z todo acc)).
Proof.
  revert acc. induction todo as [|x todo IH]; intros acc; [reflexivity|].
  cbn [map Py.sort_pairs sort_Z]. rewrite insert_sorted_tag. cbn [bind].
  apply IH.
Qed.

Lemma map_snd_tag (l : list (Z * value)) : map snd (map tag l) = map snd l.
Proof. induction l as [|p l IH]; [reflexivity|]. simpl. now rewrite IH. Qed.

Lemma insert_Z_length x l : length (insert_Z x l) = S (length l).
Proof.
  induction l as [|y l IH]; [reflexivity|]. simpl.
  destruct (fst x <? fst y)%Z; simpl; auto.
Qed.

Lemma sort_Z_length todo acc :
  length (sort_Z todo acc) = (length todo + length acc)%nat.
Proof.
  revert acc. induction todo as [|x todo IH]; intros acc; [reflexivity|].
  simpl. rewrite IH, insert_Z_length. lia.
Qed.

Lemma insert_Z_Forall (P : Z * value -> Prop) x l :
  P x -> Forall P l -> Forall P (insert_Z x l).
Proof.
  intros Hx Hl. induction Hl as [|y l Hy Hl IH]; simpl.
  - repeat constructor. exact Hx.
  - destruct (fst x <? fst y)%Z; repeat constructor; auto.
Qed.

Lemma sort_Z_Forall (P : Z * value -> Prop) todo acc :
  Forall P todo -> Forall P acc -> Forall P (sort_Z todo acc).
Proof.
  intros Htodo. revert acc.
  induction Htodo as [|x todo Hx Htodo IH]; intros acc Hacc; [exact Hacc|].
  simpl. apply IH. now apply insert_Z_Forall.
Qed.

(** The first pair after an insertion has the lesser of the new key and the
    key that was first. *)
Lemma insert_Z_head x y l :
  exists p rest, insert_Z x (y :: l) = p :: rest /\ fst p = Z.min (fst x) (fst y).
Proof.
  simpl. destruct (Z.ltb_spec (fst x) (fst y)).
  - exists x, (y :: l). split; [reflexivity|lia].
  - exists y, (insert_Z x l). split; [reflexivity|lia].
Qed.

Lemma sort_Z_head todo a acc :
  exists p rest,
    sort_Z todo (a :: acc) = p :: rest /\
    fst p = fold_left Z.min (map fst todo) (fst a).
Proof.
  revert a acc. induction todo as [|x todo IH]; intros a acc.
  - exists a, acc. split; reflexivity.
  - cbn [sort_Z map fold_left].
    destruct (insert_Z_head x a acc) as (p & rest & -> & Hp).
    destruct (IH p rest) as (q & rest' & Hq & Hfst).
    exists q, rest'. split; [exact Hq|].
    rewrite Hfst, Hp. f_equal. apply Z.min_comm.
Qed.

Lemma event_year_inv e y :
  event_year e = Some y ->
  exists items, e = VDict items /\ dict_get "year" items = Some (VInt y).
Proof.
  unfold event_year. destruct e as [| | | | | |items]; try discriminate.
  destruct (dict_get "year" items) as [[| |n| | | |]|] eqn:E; try discriminate.
  intros [= <-]. now exists items.
Qed.

Lemma event_key_get e k :
  event_key e = Some k -> Py.get e "year" (VInt 0) = Ok (VInt k).
Proof.
  unfold event_key. destruct e as [| | | | | |items]; try discriminate.
  cbn [Py.get].
  destruct (dict_get "year" items) as [[| |n| | | |]|] eqn:E; try discriminate;
    now intros [= <-].
Qed.

Lemma event_year_key e y : event_year e = Some y -> event_key e = Some y.
Proof.
  intros H. apply event_year_inv in H as (items & -> & H).
  unfold event_key. now rewrite H.
Qed.

Lemma all_some_cons_inv f e events ys :
  all_some f (e :: events) = Some ys ->
  exists y ys', ys = y :: ys' /\ f e = Some y /\ all_some f events = Some ys'.
Proof.
  cbn [all_some]. destruct (f e) as [y|]; [|discriminate].
  destruct (all_some f events) as [ys'|]; [|discriminate].
  intros [= <-]. now exists y, ys'.
Qed.

Lemma all_some_length f events ys :
  all_some f events = Some ys -> length ys = length events.
Proof.
  revert ys. induction events as [|e events IH]; intros ys.
  - intros [= <-]. reflexivity.
  - intros H. apply all_some_cons_inv in H as (y & ys' & -> & _ & H).
    simpl. f_equal. now apply IH.
Qed.

Lemma all_some_weaken (f g : value -> option Z) events ys :
  (forall e y, f e = Some y -> g e = Some y) ->
  all_some f events = Some ys -> all_some g events = Some ys.
Proof.
  intros Hfg. revert ys. induction events as [|e events IH]; intros ys; [auto|].
  intros H. apply all_some_cons_inv in H as (y & ys' & -> & He & H).
  cbn [all_some]. now rewrite (Hfg _ _ He), (IH _ H).
Qed.

Lemma all_some_carried f events ys :
  all_some f events = Some ys ->
  Forall (fun p => f (snd p) = Some (fst p)) (combine ys events).
Proof.
  revert ys. induction events as [|e events IH]; intros ys.
  - intros [= <-]. constructor.
  - intros H. apply all_some_cons_inv in H as (y & ys' & -> & He & H).
    simpl. constructor; auto.
Qed.

Lemma all_some_map_fst f events ys :
  all_some f events = Some ys -> map fst (combine ys events) = ys.
Proof.
  revert ys. induction events as [|e events IH]; intros ys.
  - intros [= <-]. reflexivity.
  - intros H. apply all_some_cons_inv in H as (y & ys' & -> & _ & H).
    simpl. f_equal. now apply IH.
Qed.

Lemma decorate_keys events ks :
  keys_of events = Some ks ->
  Py.decorate (fun x => Py.get x "year" (VInt 0)) events
  = Ok (map tag (combine ks events)).
Proof.
  revert ks. induction events as [|e events IH]; intros ks.
  - intros [= <-]. reflexivity.
  - intros H. apply all_some_cons_inv in H as (k & ks' & -> & He & H).
    cbn [Py.decorate]. rewrite (event_key_get _ _ He). cbn [bind].
    rewrite (IH _ H). reflexivity.
Qed.

Lemma combine_Forall_snd (Q : value -> Prop) (ks : list Z) events :
  Forall Q events -> Forall (fun p => Q (snd p)) (combine ks events).
Proof.
  intros H. revert ks. induction H as [|e events He H IH]; intros ks.
  - destruct ks; constructor.
  - destruct ks as [|k ks]; simpl; constructor; auto.
Qed.

(** Sorting events whose keys are integers succeeds.  The first event of the
    result has the least key, no event is lost or added, and what holds of
    every event holds of the first. *)
Lemma sorted_keyed_events (f : value -> option Z) (Q : value -> Prop)
  (data : dict) events k ks :
  (forall e y, f e = Some y -> event_key e = Some y) ->
  Agent.get_list data "life_events" = VList events ->
  all_some f events = Some (k :: ks) ->
  Forall Q events ->
  exists first rest,
    Agent.sorted_events data = Ok (first :: rest) /\
    f first = Some (minimum k ks) /\
    Q first /\
    length (first :: rest) = length events.
Proof.
  intros Hf Hdata Hkeys HQ.
  destruct events as [|e events]; [discriminate|].
  pose proof (decorate_keys _ _ (all_some_weaken _ _ _ _ Hf Hkeys)) as Hdec.
  pose proof (all_some_carried _ _ _ Hkeys) as Hcarried.
  pose proof (all_some_map_fst _ _ _ Hkeys) as Hfst.
  pose proof (all_some_length _ _ _ Hkeys) as Hlens.
  pose proof (combine_Forall_snd Q (k :: ks) _ HQ) as HQs.
  cbn [combine] in Hdec, Hcarried, Hfst, HQs.
  injection Hfst as Hfst.
  unfold Agent.sorted_events, Py.sorted. rewrite Hdata.
  cbn [Py.iter bind]. rewrite Hdec. cbn [bind].
  rewrite (sort_pairs_tag _ []). cbn [bind sort_Z insert_Z].
  destruct (sort_Z_head (combine ks events) (k, e) []) as (p & rest & Hsort & Hp).
  assert (Hall : Forall (fun p => f (snd p) = Some (fst p) /\ Q (snd p))
                    (sort_Z (combine ks events) [(k, e)])).
  { inversion Hcarried as [|? ? Hhead Htail]; subst.
    inversion HQs as [|? ? HQhead HQtail]; subst.
    apply sort_Z_Forall.
    - clear - Htail HQtail. induction Htail; inversion HQtail; subst;
        constructor; auto.
    - constructor; [split; assumption|constructor]. }
  pose proof (sort_Z_length (combine ks events) [(k, e)]) as Hlen.
  rewrite Hsort in Hall, Hlen |- *.
  apply Forall_inv in Hall. destruct Hall as [Hall HQp].
  rewrite Hp, Hfst in Hall. cbn [fst] in Hall.
  exists (snd p), (map snd rest).
  rewrite map_snd_tag. cbn [map].
  repeat split; auto.
  cbn [length] in *. rewrite List.length_map.
  rewrite length_combine in Hlen. lia.
Qed.

(** The least year is one of the years and is below all of them; it does not
    depend on their order. *)
Lemma minimum_le y ys : forall z, In z (y :: ys) -> minimum y ys <= z.
Proof.
  unfold minimum. revert y. induction ys as [|x ys IH]; intros y z.
  - intros [<-|[]]. simpl. lia.
  - cbn [fold_left]. intros [<-|[<-|Hz]].
    + specialize (IH (Z.min y x) (Z.min y x) (or_introl eq_refl)). lia.
    + specialize (IH (Z.min y x) (Z.min y x) (or_introl eq_refl)). lia.
    + apply IH. now right.
Qed.

Lemma minimum_In y ys : In (minimum y ys) (y :: ys).
Proof.
  unfold minimum. revert y. induction ys as [|x ys IH]; intros y.
  - now left.
  - cbn [fold_left]. destruct (IH (Z.min y x)) as [H|H].
    + rewrite <- H. destruct (Z.min_spec y x) as [[_ ->]|[_ ->]]; simpl; auto.
    + right. now right.
Qed.

Lemma minimum_unique y ys z zs :
  (forall x, In x (y :: ys) <-> In x (z :: zs)) -> minimum y ys = minimum z zs.
Proof.
  intros H.
  pose proof (minimum_le y ys (minimum z zs) (proj2 (H _) (minimum_In z zs))).
  pose proof (minimum_le z zs (minimum y ys) (proj1 (H _) (minimum_In y ys))).
  lia.
Qed.

End SortFacts.

Section TimelineClaims.

Import Spec Agent.

Lemma event_year_Some_key : forall e y, event_year e = Some y -> event_key e = Some y.
Proof. exact event_year_key. Qed.

(** The analysis of events that all carry a year, up to the division. *)
Lemma timelines_of_dated_events (now_year : Z) (data : dict) events y ys :
  get_list data "life_events" = VList events ->
  years_of events = Some (y :: ys) ->
  _analyze_timelines now_year data =
  (frequency <- Py.truediv (VInt (Z.of_nat (length events)))
                           (VInt (now_year - minimum y ys)) ;;
   Ok (VDict [("career_start", VInt (minimum y ys));
              ("milestone_frequency", frequency)])).
Proof.
  intros Hdata Hyears.
  destruct (sorted_keyed_events event_year (fun _ => True) data events y ys
              event_year_Some_key Hdata Hyears)
    as (first & rest & Hsorted & Hfirst & _ & Hlen).
  { apply Forall_forall. auto. }
  apply event_year_inv in Hfirst as (items & -> & Hyear).
  unfold _analyze_timelines. rewrite Hsorted. cbn [bind Py.getitem].
  rewrite Hyear. cbn [bind Py.sub Py.to_num]. rewrite Hlen. reflexivity.
Qed.

(** Away from the boundary the analysis returns the least year and the
    number of events divided by the years elapsed since. *)
Lemma timeline_report (now_year : Z) (data : dict) events y ys :
  get_list data "life_events" = VList events ->
  years_of events = Some (y :: ys) ->
  minimum y ys <> now_year ->
  _analyze_timelines now_year data =
  Ok (VDict [("career_start", VInt (minimum y ys));
             ("milestone_frequency",
              VFloat (inject_Z (Z.of_nat (length events))
                      / inject_Z (now_year - minimum y ys)))]).
Proof.
  intros Hdata Hyears Hne.
  rewrite (timelines_of_dated_events _ _ _ _ _ Hdata Hyears).
  rewrite truediv_int by lia. reflexivity.
Qed.

(** Without events the analysis returns no year and the frequency 0. *)
Lemma timeline_of_no_events (now_year : Z) (data : dict) :
  get_list data "life_events" = VList [] ->
  _analyze_timelines now_year data =
  Ok (VDict [("career_start", VNone); ("milestone_frequency", VInt 0)]).
Proof.
  intros H. unfold _analyze_timelines, sorted_events. rewrite H. reflexivity.
Qed.

Lemma all_some_In f events ys :
  all_some f events = Some ys ->
  forall y, In y ys <-> exists e, In e events /\ f e = Some y.
Proof.
  revert ys. induction events as [|e events IH]; intros ys.
  - intros [= <-] y. split; [intros []|intros (e & [] & _)].
  - intros H y. apply all_some_cons_inv in H as (y0 & ys' & -> & He & H).
    specialize (IH _ H y). split.
    + intros [<-|Hy].
      * exists e. split; [now left|exact He].
      * apply IH in Hy as (e' & Hin & He'). exists e'. split; [now right|exact He'].
    + intros (e' & [<-|Hin] & He').
      * left. congruence.
      * right. apply IH. now exists e'.
Qed.

Lemma all_some_defined f events :
  (forall e, In e events -> exists y, f e = Some y) ->
  exists ys, all_some f events = Some ys.
Proof.
  induction events as [|e events IH]; intros H.
  - now exists [].
  - destruct (H e (or_introl eq_refl)) as [y Hy].
    destruct IH as [ys Hys]; [intros e' He'; apply H; now right|].
    exists (y :: ys). cbn [all_some]. now rewrite Hy, Hys.
Qed.

Lemma all_some_each f events ys :
  all_some f events = Some ys ->
  forall e, In e events -> exists y, f e = Some y.
Proof.
  revert ys. induction events as [|e events IH]; intros ys H e' []; subst.
  - apply all_some_cons_inv in H as (y & _ & _ & He & _). now exists y.
  - apply all_some_cons_inv in H as (_ & ys' & _ & _ & H). now apply (IH ys').
Qed.

(** The report does not depend on the order the events come in. *)
Lemma timeline_order_independent (now_year : Z) (data data' : dict) events events' ys :
  get_list data "life_events" = VList events ->
  get_list data' "life_events" = VList events' ->
  Permutation events events' ->
  years_of events = Some ys ->
  _analyze_timelines now_year data = _analyze_timelines now_year data'.
Proof.
  intros Hdata Hdata' Hperm Hyears.
  destruct (all_some_defined event_year events') as [ys' Hyears'].
  { intros e He. apply (all_some_each _ _ _ Hyears).
    apply Permutation_sym in Hperm. now apply (Permutation_in _ Hperm). }
  pose proof (all_some_length _ _ _ Hyears) as Hlen.
  pose proof (all_some_length _ _ _ Hyears') as Hlen'.
  pose proof (Permutation_length Hperm) as Hlenp.
  destruct ys as [|y ys], ys' as [|y' ys'].
  - destruct events, events'; try discriminate.
    now rewrite !timeline_of_no_events.
  - simpl in *. lia.
  - simpl in *. lia.
  - rewrite (timelines_of_dated_events _ _ _ _ _ Hdata Hyears).
    rewrite (timelines_of_dated_events _ _ _ _ _ Hdata' Hyears').
    rewrite <- Hlenp.
    rewrite (minimum_unique y ys y' ys'); [reflexivity|].
    intros x. rewrite (all_some_In _ _ _ Hyears x), (all_some_In _ _ _ Hyears' x).
    split; intros (e & He & Hx); exists e; split; auto.
    + now apply (Permutation_in _ Hperm).
    + apply Permutation_sym in Hperm. now apply (Permutation_in _ Hperm).
Qed.

(** The three events of the specification, in any of two orders. *)
Example career_start_2018 :
  _analyze_timelines 2026
    (record_of "life_events"
       [VDict [("year", VInt 2018)]; VDict [("year", VInt 2020)];
        VDict [("year", VInt 2019)]])
  = Ok (VDict [("career_start", VInt 2018);
               ("milestone_frequency", VFloat (3 # 8))]) /\
  _analyze_timelines 2026
    (record_of "life_events"
       [VDict [("year", VInt 2020)]; VDict [("year", VInt 2019)];
        VDict [("year", VInt 2018)]])
  = Ok (VDict [("career_start", VInt 2018);
               ("milestone_frequency", VFloat (3 # 8))]).
Proof. split; reflexivity. Qed.

(** C1, as the code has it.  When the life events all carry a year and the
    least of these years is the current year, the timeline analysis raises
    the division error: the divisor [now_year - earliest year] is 0 and
    nothing replaces it by 1. *)
Theorem C1_milestone_frequency_divides_by_zero
  (now_year : Z) (data : dict) events y ys :
  get_list data "life_events" = VList events ->
  years_of events = Some (y :: ys) ->
  minimum y ys = now_year ->
  _analyze_timelines now_year data = Raise ZeroDivisionError.
Proof.
  intros Hdata Hyears Hmin.
  rewrite (timelines_of_dated_events _ _ _ _ _ Hdata Hyears), Hmin, Z.sub_diag.
  reflexivity.
Qed.

Lemma C1_milestone_frequency_divides_by_zero_witness :
  let launch := Sample.channel_launch 2026 in
  Models.LifeEventObject.new 2026 launch = Models.Valid launch /\
  _analyze_timelines 2026
    (record_of "life_events" [Models.LifeEventObject.to_dict launch])
  = Raise ZeroDivisionError.
Proof.
  intros launch. split; [reflexivity|].
  apply (C1_milestone_frequency_divides_by_zero 2026
           (record_of "life_events" [Models.LifeEventObject.to_dict launch])
           [Models.LifeEventObject.to_dict launch] 2026 []); reflexivity.
Defined.

(** C9, as the code has it.  For a single life event dated the current
    year, which the schema accepts, every event carries a year and the least
    year is the current year, yet the timeline analysis reports no career
    start: it raises the division error of the milestone frequency, which
    is computed for the same result. *)
Theorem C9_career_start_lost_at_boundary (now_year : Z) :
  let launch := Models.LifeEventObject.to_dict (Sample.channel_launch now_year) in
  years_of [launch] = Some [now_year] /\
  minimum now_year [] = now_year /\
  _analyze_timelines now_year (record_of "life_events" [launch])
  = Raise ZeroDivisionError.
Proof.
  intros launch. split; [reflexivity|]. split; [reflexivity|].
  unfold _analyze_timelines. cbn. rewrite Z.sub_diag. reflexivity.
Qed.

(** The first event in sorted order has no year: the lookup fails. *)
Lemma timelines_first_undated (now_year : Z) (data : dict) first rest :
  sorted_events data = Ok (first :: rest) ->
  lacks_year first = true ->
  _analyze_timelines now_year data = Raise (KeyError "year").
Proof.
  intros Hsorted Hlacks. unfold _analyze_timelines. rewrite Hsorted.
  destruct first as [| | | | | |items]; try discriminate.
  cbn [lacks_year] in Hlacks. apply negb_true_iff in Hlacks.
  rewrite dict_mem_keys in Hlacks. apply dict_get_none_mem in Hlacks.
  cbn [bind Py.getitem]. rewrite Hlacks. reflexivity.
Qed.

(** C10. There is a non-empty list of life events on which the timeline
    analysis raises a lookup error, and it does so on every list whose
    first event in the order of the sort, where a missing year counts as 0,
    has no year: the sort itself succeeds, and the year of that event is then
    read without a default. *)
Theorem C10_missing_year_raises_lookup_error :
  (exists events : list value,
      events <> [] /\
      forall now_year,
        _analyze_timelines now_year (record_of "life_events" events)
        = Raise (KeyError "year")) /\
  (forall (now_year : Z) (data : dict) (first : value) (rest : list value),
      sorted_events data = Ok (first :: rest) ->
      lacks_year first = true ->
      _analyze_timelines now_year data = Raise (KeyError "year")).
Proof.
  split; [|exact timelines_first_undated].
  exists [VDict [("name", VStr "Channel Launch"); ("year", VInt 2018)];
          VDict [("name", VStr "First Job")]].
  split; [discriminate|]. intros now_year. reflexivity.
Qed.

Lemma C10_missing_year_raises_lookup_error_witness :
  let data := record_of "life_events"
                [VDict [("name", VStr "Channel Launch"); ("year", VInt 2018)];
                 VDict [("name", VStr "First Job")];
                 VDict [("name", VStr "Moved"); ("year", VInt 2021)]] in
  sorted_events data
  = Ok [VDict [("name", VStr "First Job")];
        VDict [("name", VStr "Channel Launch"); ("year", VInt 2018)];
        VDict [("name", VStr "Moved"); ("year", VInt 2021)]] /\
  _analyze_timelines 2026 data = Raise (KeyError "year").
Proof.
  intros data. split; [reflexivity|].
  apply (proj2 C10_missing_year_raises_lookup_error 2026 data
           (VDict [("name", VStr "First Job")])
           [VDict [("name", VStr "Channel Launch"); ("year", VInt 2018)];
            VDict [("name", VStr "Moved"); ("year", VInt 2021)]]); reflexivity.
Defined.

End TimelineClaims.

(** ** The merge and its inputs *)

Section AliasingClaims.

Import Store.

(** C2, as the code has it.  [base] is [{"a": {"x": 1}}] and [update] is
    [{"a": {"y": 2}}], each built of objects of its own.  The merge returns
    [{"a": {"x": 1, "y": 2}}] in a new dictionary and leaves [update] as it
    was, but [base] reads [{"a": {"x": 1, "y": 2}}] afterwards: [copy]
    duplicates the outer dictionary only, and the inner dictionary of [base]
    is the one the loop writes to. *)
Theorem C2_merge_mutates_nested_base :
  exists base h1 update h2 merged h3,
    store Sample.nested_base [] = (base, h1) /\
    store Sample.nested_update h1 = (update, h2) /\
    merge_content_creator_info Sample.recursion_limit base update h2
    = Ok (merged, h3) /\
    snapshot 2 h2 base = Some Sample.nested_base /\
    snapshot 2 h2 update = Some Sample.nested_update /\
    snapshot 2 h3 merged = Some (VDict [("a", VDict [("x", VInt 1); ("y", VInt 2)])]) /\
    snapshot 2 h3 update = Some Sample.nested_update /\
    snapshot 2 h3 base = Some (VDict [("a", VDict [("x", VInt 1); ("y", VInt 2)])]) /\
    snapshot 2 h3 base <> snapshot 2 h2 base /\
    merged <> base.
Proof.
  do 6 eexists.
  split; [reflexivity|]. split; [reflexivity|]. split; [vm_compute; reflexivity|].
  repeat (split; [vm_compute; reflexivity|]).
  split; vm_compute; discriminate.
Qed.

End AliasingClaims.

(** ** More on the merge *)

Section MergeMore.

Import Utils Notions.

Lemma recursive_merge_overwrite (base update : value) :
  same_container base update = false -> recursive_merge base update = update.
Proof.
  destruct base, update; try reflexivity; discriminate.
Qed.

(** X1. Under each key the merged mapping holds: the value of [base] if only
    [base] has the key, the value of [update] if only [update] has it, the
    recursive merge of the two values if both have it, and nothing if
    neither has it. *)
Theorem X1_merge_lookup (base update : dict) (key : string) :
  unique_keys update = true ->
  exists merged,
    merge_content_creator_info (VDict base) (VDict update) = Ok (VDict merged) /\
    dict_get key merged =
    match dict_get key base, dict_get key update with
    | Some b, Some u => Some (recursive_merge b u)
    | Some b, None => Some b
    | None, Some u => Some u
    | None, None => None
    end.
Proof.
  intros Hu. exists (merge_items update base). split; [apply merge_dicts|].
  destruct (dict_get key update) as [u|] eqn:Eu.
  - rewrite (merge_items_get_present key u update base Hu Eu).
    now destruct (dict_get key base).
  - rewrite merge_items_get_absent by now apply dict_get_none_mem.
    now destruct (dict_get key base).
Qed.

Lemma X1_merge_lookup_witness :
  exists merged,
    merge_content_creator_info
      (VDict [("a", VDict [("x", VInt 1)]); ("b", VInt 2)])
      (VDict [("a", VDict [("y", VInt 3)]); ("c", VInt 4)])
    = Ok (VDict merged) /\
    dict_get "a" merged =
    match dict_get "a" [("a", VDict [("x", VInt 1)]); ("b", VInt 2)],
          dict_get "a" [("a", VDict [("y", VInt 3)]); ("c", VInt 4)] with
    | Some b, Some u => Some (recursive_merge b u)
    | Some b, None => Some b
    | None, Some u => Some u
    | None, None => None
    end.
Proof.
  apply (X1_merge_lookup [("a", VDict [("x", VInt 1)]); ("b", VInt 2)]
           [("a", VDict [("y", VInt 3)]); ("c", VInt 4)] "a").
  reflexivity.
Defined.

(** X2. When both inputs have a key and their values are not two mappings
    and not two sequences (a scalar on either side, or a mapping against a
    sequence), the merged mapping holds the value of [update]. *)
Theorem X2_update_wins (base update : dict) (key : string) (b u : value) :
  unique_keys update = true ->
  dict_get key base = Some b ->
  dict_get key update = Some u ->
  same_container b u = false ->
  exists merged,
    merge_content_creator_info (VDict base) (VDict update) = Ok (VDict merged) /\
    dict_get key merged = Some u.
Proof.
  intros Hu Hb Hk Hkind.
  exists (merge_items update base). split; [apply merge_dicts|].
  rewrite (merge_items_get_present key u update base Hu Hk), Hb.
  now rewrite recursive_merge_overwrite.
Qed.

Lemma X2_update_wins_witness :
  exists merged,
    merge_content_creator_info
      (VDict [("niche", VStr "Tech"); ("team", VList [VStr "Ada"])])
      (VDict [("team", VDict [("lead", VStr "Bob")]); ("niche", VStr "Gaming")])
    = Ok (VDict merged) /\
    dict_get "team" merged = Some (VDict [("lead", VStr "Bob")]).
Proof.
  apply (X2_update_wins
           [("niche", VStr "Tech"); ("team", VList [VStr "Ada"])]
           [("team", VDict [("lead", VStr "Bob")]); ("niche", VStr "Gaming")]
           "team" (VList [VStr "Ada"]) (VDict [("lead", VStr "Bob")]));
    reflexivity.
Defined.

Lemma keys_dict_set {V} (key : string) (v : V) (d : list (string * V)) :
  keys (dict_set key v d) =
  if mem_string key (keys d) then keys d else (keys d ++ [key])%list.
Proof.
  induction d as [|[k w] d IH]; [reflexivity|].
  cbn [dict_set]. unfold keys in *. cbn [map fst mem_string].
  destruct (String.eqb key k) eqn:E; cbn [orb map fst].
  - reflexivity.
  - rewrite IH. now destruct (mem_string key (map fst d)).
Qed.

Lemma keys_merge_step key val b :
  keys (merge_step key val b) =
  if mem_string key (keys b) then keys b else (keys b ++ [key])%list.
Proof.
  unfold merge_step. destruct (dict_get key b); apply keys_dict_set.
Qed.

Lemma filter_not_mem_ext (l1 l2 : list string) (ks : list string) :
  (forall k, In k ks -> mem_string k l1 = mem_string k l2) ->
  List.filter (fun k => negb (mem_string k l1)) ks =
  List.filter (fun k => negb (mem_string k l2)) ks.
Proof.
  intros H. induction ks as [|k ks IH]; [reflexivity|].
  cbn [List.filter]. rewrite (H k (or_introl eq_refl)), IH; [reflexivity|].
  intros k' Hk'. apply H. now right.
Qed.

Lemma new_keys_cons (b u : dict) key val :
  new_keys b ((key, val) :: u) =
  if mem_string key (keys b) then new_keys b u else key :: new_keys b u.
Proof.
  unfold new_keys, keys. cbn [map fst List.filter].
  now destruct (mem_string key (map fst b)).
Qed.

Lemma keys_merge_items (u b : dict) :
  unique_keys u = true ->
  keys (merge_items u b) = (keys b ++ new_keys b u)%list.
Proof.
  revert b. induction u as [|[key val] u IH]; intros b.
  - intros _. unfold new_keys. simpl. now rewrite app_nil_r.
  - cbn [unique_keys]. rewrite andb_true_iff, negb_true_iff. intros [Hfresh Hu].
    rewrite merge_items_cons, (IH _ Hu), new_keys_cons.
    pose proof (keys_merge_step key val b) as Hk.
    unfold new_keys at 1.
    rewrite (filter_not_mem_ext (keys (merge_step key val b)) (keys b) (keys u)).
    + fold (new_keys b u). rewrite Hk.
      destruct (mem_string key (keys b)); [reflexivity|].
      now rewrite <- app_assoc.
    + intros k Hin. rewrite Hk.
      destruct (mem_string key (keys b)) eqn:E; [reflexivity|].
      rewrite mem_string_app. cbn [mem_string]. rewrite orb_false_r.
      destruct (String.eqb k key) eqn:Ek; [|now rewrite orb_false_r].
      apply String.eqb_eq in Ek. subst k.
      apply mem_string_In in Hin. congruence.
Qed.

(** X3. The merged mapping lists the keys of [base] in their order, followed
    by the keys that only [update] has, in [update]'s order: a key keeps the
    position it has in [base]. *)
Theorem X3_merge_key_order (base update : dict) :
  unique_keys update = true ->
  exists merged,
    merge_content_creator_info (VDict base) (VDict update) = Ok (VDict merged) /\
    keys merged = (keys base ++ new_keys base update)%list.
Proof.
  intros Hu. exists (merge_items update base). split; [apply merge_dicts|].
  now apply keys_merge_items.
Qed.

Lemma X3_merge_key_order_witness :
  exists merged,
    merge_content_creator_info
      (VDict [("values", VList []); ("businesses", VList [])])
      (VDict [("challenges", VList []); ("businesses", VList [VInt 1]);
              ("achievements", VList [])])
    = Ok (VDict merged) /\
    keys merged = ["values"; "businesses"; "challenges"; "achievements"].
Proof.
  apply (X3_merge_key_order
           [("values", VList []); ("businesses", VList [])]
           [("challenges", VList []); ("businesses", VList [VInt 1]);
            ("achievements", VList [])]).
  reflexivity.
Defined.

Lemma unique_keys_dict_set {V} (key : string) (v : V) (d : list (string * V)) :
  unique_keys d = true -> unique_keys (dict_set key v d) = true.
Proof.
  induction d as [|[k w] d IH]; [reflexivity|].
  cbn [unique_keys dict_set]. rewrite andb_true_iff, negb_true_iff.
  intros [Hk Hd]. destruct (String.eqb key k) eqn:E; cbn [unique_keys].
  - now rewrite Hk, Hd.
  - rewrite (IH Hd), keys_dict_set, andb_true_r. apply negb_true_iff.
    destruct (mem_string key (keys d)); [exact Hk|].
    rewrite mem_string_app, Hk. cbn [mem_string orb].
    rewrite orb_false_r, String.eqb_sym. exact E.
Qed.

Lemma unique_keys_merge_items (u b : dict) :
  unique_keys b = true -> unique_keys (merge_items u b) = true.
Proof.
  revert b. induction u as [|[key val] u IH]; intros b Hb; [exact Hb|].
  rewrite merge_items_cons. apply IH. unfold merge_step.
  destruct (dict_get key b); now apply unique_keys_dict_set.
Qed.

(** X4. Merging keeps the invariant of dictionaries: if no key occurs twice
    in [base], no key occurs twice in the result. *)
Theorem X4_merge_keeps_keys_unique (base update : dict) :
  unique_keys base = true ->
  exists merged,
    merge_content_creator_info (VDict base) (VDict update) = Ok (VDict merged) /\
    unique_keys merged = true.
Proof.
  intros Hb. exists (merge_items update base). split; [apply merge_dicts|].
  now apply unique_keys_merge_items.
Qed.

Lemma X4_merge_keeps_keys_unique_witness :
  exists merged,
    merge_content_creator_info
      (VDict [("a", VInt 1); ("b", VInt 2)])
      (VDict [("b", VInt 3); ("c", VInt 4)])
    = Ok (VDict merged) /\
    unique_keys merged = true.
Proof.
  apply (X4_merge_keeps_keys_unique
           [("a", VInt 1); ("b", VInt 2)] [("b", VInt 3); ("c", VInt 4)]).
  reflexivity.
Defined.

End MergeMore.

(** ** Several sources, and the career duration *)

Section SourcesMore.

Import Utils Sources.




(** X6. The career duration is never negative: for a start year up to the
    current year it is the number of years between the two, and for a start
    year in the future it is 0. *)
Theorem X6_career_duration (current_year start_year : Z) :
  0 <= Duration.calculate_career_duration current_year start_year /\
  (start_year <= current_year ->
   start_year + Duration.calculate_career_duration current_year start_year
   = current_year) /\
  (current_year <= start_year ->
   Duration.calculate_career_duration current_year start_year = 0).
Proof. unfold Duration.calculate_career_duration. lia. Qed.

Lemma X6_career_duration_witness :
  2018 + Duration.calculate_career_duration 2026 2018 = 2026 /\
  Duration.calculate_career_duration 2026 2030 = 0.
Proof.
  split.
  - apply (X6_career_duration 2026 2018). lia.
  - apply (X6_career_duration 2026 2030). lia.
Defined.

End SourcesMore.

(** ** More on the analysis *)

Section StatsMore.

Import Agent.

(** X7. The basic statistics are the lengths of the four lists of the
    record, a list that the record does not have counting as empty. *)
Theorem X7_basic_stats_count (data : dict)
  (life_events challenges achievements businesses : list value) :
  get_list data "life_events" = VList life_events ->
  get_list data "challenges" = VList challenges ->
  get_list data "achievements" = VList achievements ->
  get_list data "businesses" = VList businesses ->
  _calculate_basic_stats data =
  Ok (VDict [("total_life_events", VInt (Z.of_nat (length life_events)));
             ("total_challenges", VInt (Z.of_nat (length challenges)));
             ("total_achievements", VInt (Z.of_nat (length achievements)));
             ("business_count", VInt (Z.of_nat (length businesses)))]).
Proof.
  intros H1 H2 H3 H4. unfold _calculate_basic_stats.
  rewrite H1, H2, H3, H4. reflexivity.
Qed.

Lemma X7_basic_stats_count_witness :
  _calculate_basic_stats
    [("life_events", VList [VDict [("year", VInt 2018)]; VDict [("year", VInt 2020)]]);
     ("businesses", VList [VDict [("name", VStr "Merch Store")]])]
  = Ok (VDict [("total_life_events", VInt 2);
               ("total_challenges", VInt 0);
               ("total_achievements", VInt 0);
               ("business_count", VInt 1)]).
Proof.
  apply (X7_basic_stats_count
           [("life_events", VList [VDict [("year", VInt 2018)]; VDict [("year", VInt 2020)]]);
            ("businesses", VList [VDict [("name", VStr "Merch Store")]])]
           [VDict [("year", VInt 2018)]; VDict [("year", VInt 2020)]] [] []
           [VDict [("name", VStr "Merch Store")]]); reflexivity.
Defined.

Lemma len_raises_TypeError (v : value) (e : exn) :
  Py.len v = Raise e -> e = TypeError.
Proof. destruct v; cbn; congruence. Qed.

(** X8. The default [[]] of [data.get] stands in for a missing entry only:
    when one of the four entries is present and has no length (null, a
    number, a boolean), the basic statistics raise a [TypeError]. *)
Theorem X8_basic_stats_null_entry (data : dict) (key : string) (v : value) :
  In key ["life_events"; "challenges"; "achievements"; "businesses"] ->
  dict_get key data = Some v ->
  Py.len v = Raise TypeError ->
  _calculate_basic_stats data = Raise TypeError.
Proof.
  intros Hkey Hget Hlen.
  assert (Hbad : Py.len (get_list data key) = Raise TypeError).
  { unfold get_list. now rewrite Hget. }
  unfold _calculate_basic_stats.
  destruct (Py.len (get_list data "life_events")) as [n1|e1] eqn:E1;
    [|now rewrite (len_raises_TypeError _ _ E1)].
  destruct (Py.len (get_list data "challenges")) as [n2|e2] eqn:E2;
    [|now rewrite (len_raises_TypeError _ _ E2)].
  destruct (Py.len (get_list data "achievements")) as [n3|e3] eqn:E3;
    [|now rewrite (len_raises_TypeError _ _ E3)].
  destruct (Py.len (get_list data "businesses")) as [n4|e4] eqn:E4;
    [|now rewrite (len_raises_TypeError _ _ E4)].
  exfalso. cbn [In] in Hkey.
  destruct Hkey as [<-|[<-|[<-|[<-|[]]]]]; congruence.
Qed.

Lemma X8_basic_stats_null_entry_witness :
  _calculate_basic_stats
    [("life_events", VList []); ("achievements", VNone)]
  = Raise TypeError.
Proof.
  apply (X8_basic_stats_null_entry
           [("life_events", VList []); ("achievements", VNone)]
           "achievements" VNone); [simpl; tauto | reflexivity | reflexivity].
Defined.

End StatsMore.

Section BusinessMore.

Import Agent Spec Notions.




End BusinessMore.

Section ValuesMore.

Import Agent Spec Notions.

Lemma value_names_named (entries : list dict) (names : list value) :
  names_of entries = Some names ->
  value_names (map VDict entries) = Ok names.
Proof.
  revert names. induction entries as [|d entries IH]; intros names.
  - intros [= <-]. reflexivity.
  - cbn [names_of map value_names Py.getitem].
    destruct (dict_get "name" d) as [name|]; [|discriminate].
    destruct (names_of entries) as [names'|]; [|discriminate].
    intros [= <-]. cbn [bind]. rewrite (IH _ eq_refl). reflexivity.
Qed.

(** X10. For values that are mappings with a name, the assessment returns
    the names in the order of the values and, as consistency score, the
    number of values divided by 10; the score is not capped, it exceeds 1
    as soon as there are more than 10 values. *)
Theorem X10_values_assessment (entries : list dict) (names : list value) :
  names_of entries = Some names ->
  _assess_values (record_of "values" (map VDict entries)) =
  Ok (VDict [("core_values", VList names);
             ("value_consistency_score",
              VFloat (inject_Z (Z.of_nat (length entries)) / inject_Z 10))]) /\
  ((1 < inject_Z (Z.of_nat (length entries)) / inject_Z 10)%Q <->
   (10 < length entries)%nat).
Proof.
  intros Hnames. split.
  - unfold _assess_values, record_of.
    cbn [get_list dict_get String.eqb Ascii.eqb Bool.eqb Py.len Py.iter bind].
    rewrite (value_names_named _ _ Hnames). cbn [bind].
    rewrite List.length_map, truediv_int by lia. reflexivity.
  - unfold Qlt, Qdiv, Qmult, Qinv, inject_Z. cbn. lia.
Qed.

Lemma X10_values_assessment_witness :
  _assess_values
    (record_of "values"
       [VDict [("name", VStr "A")]; VDict [("name", VStr "B")];
        VDict [("name", VStr "C")]])
  = Ok (VDict [("core_values", VList [VStr "A"; VStr "B"; VStr "C"]);
               ("value_consistency_score", VFloat (inject_Z 3 / inject_Z 10))]).
Proof.
  apply (X10_values_assessment
           [[("name", VStr "A")]; [("name", VStr "B")]; [("name", VStr "C")]]
           [VStr "A"; VStr "B"; VStr "C"]).
  reflexivity.
Defined.

Lemma value_names_unnamed (entries : list dict) :
  names_of entries = None ->
  value_names (map VDict entries) = Raise (KeyError "name").
Proof.
  induction entries as [|d entries IH]; [discriminate|].
  cbn [names_of map value_names Py.getitem].
  destruct (dict_get "name" d) as [name|]; [|reflexivity].
  destruct (names_of entries) as [names'|]; [discriminate|].
  intros _. cbn [bind]. rewrite (IH eq_refl). reflexivity.
Qed.

(** X11. The names are read with [v["name"]], without a default: when one of
    the values is a mapping without a name, the assessment raises the lookup
    error for ["name"]. *)
Theorem X11_values_without_name (entries : list dict) :
  names_of entries = None ->
  _assess_values (record_of "values" (map VDict entries)) = Raise (KeyError "name").
Proof.
  intros Hnames. unfold _assess_values, record_of.
  cbn [get_list dict_get String.eqb Ascii.eqb Bool.eqb Py.len Py.iter bind].
  now rewrite (value_names_unnamed _ Hnames).
Qed.

Lemma X11_values_without_name_witness :
  _assess_values
    (record_of "values"
       [VDict [("name", VStr "Honesty")]; VDict [("origin", VStr "Family")]])
  = Raise (KeyError "name").
Proof.
  apply (X11_values_without_name
           [[("name", VStr "Honesty")]; [("origin", VStr "Family")]]).
  reflexivity.
Defined.

End ValuesMore.

Section TimelineMore.

Import Agent Spec Notions.

(** X12. When the life events all carry a year and the least year is not
    the current year, the timeline analysis returns that least year as
    career start (it is the year of one of the events and no event is
    earlier) and, as milestone frequency, the number of events divided by
    the years from the least year to the current year. *)
Theorem X12_timeline_report (now_year : Z) (data : dict) events y ys :
  get_list data "life_events" = VList events ->
  years_of events = Some (y :: ys) ->
  minimum y ys <> now_year ->
  _analyze_timelines now_year data =
  Ok (VDict [("career_start", VInt (minimum y ys));
             ("milestone_frequency",
              VFloat (inject_Z (Z.of_nat (length events))
                      / inject_Z (now_year - minimum y ys)))]) /\
  In (minimum y ys) (y :: ys) /\
  (forall z, In z (y :: ys) -> minimum y ys <= z).
Proof.
  intros Hdata Hyears Hne. split; [|split].
  - rewrite (timelines_of_dated_events _ _ _ _ _ Hdata Hyears).
    rewrite truediv_int by lia. reflexivity.
  - apply minimum_In.
  - apply minimum_le.
Qed.

Lemma X12_timeline_report_witness :
  _analyze_timelines 2026
    (record_of "life_events"
       [VDict [("year", VInt 2020)]; VDict [("year", VInt 2018)];
        VDict [("year", VInt 2019)]])
  = Ok (VDict [("career_start", VInt 2018);
               ("milestone_frequency", VFloat (inject_Z 3 / inject_Z 8))]).
Proof.
  apply (X12_timeline_report 2026
           (record_of "life_events"
              [VDict [("year", VInt 2020)]; VDict [("year", VInt 2018)];
               VDict [("year", VInt 2019)]])
           [VDict [("year", VInt 2020)]; VDict [("year", VInt 2018)];
            VDict [("year", VInt 2019)]]
           2020 [2018; 2019]); [reflexivity | reflexivity | cbn; lia].
Defined.

(** X13. The timeline analysis does not depend on the order of the life
    events: for two records whose events all carry a year and are the same
    up to their order, it returns the same result, or raises the same
    error. *)
Theorem X13_timeline_order_independent
  (now_year : Z) (data data' : dict) events events' ys :
  get_list data "life_events" = VList events ->
  get_list data' "life_events" = VList events' ->
  Permutation events events' ->
  years_of events = Some ys ->
  _analyze_timelines now_year data = _analyze_timelines now_year data'.
Proof. apply timeline_order_independent. Qed.

Lemma X13_timeline_order_independent_witness :
  _analyze_timelines 2026
    (record_of "life_events"
       [VDict [("year", VInt 2020)]; VDict [("year", VInt 2018)]])
  = _analyze_timelines 2026
    (record_of "life_events"
       [VDict [("year", VInt 2018)]; VDict [("year", VInt 2020)]]).
Proof.
  apply (X13_timeline_order_independent 2026
           (record_of "life_events"
              [VDict [("year", VInt 2020)]; VDict [("year", VInt 2018)]])
           (record_of "life_events"
              [VDict [("year", VInt 2018)]; VDict [("year", VInt 2020)]])
           [VDict [("year", VInt 2020)]; VDict [("year", VInt 2018)]]
           [VDict [("year", VInt 2018)]; VDict [("year", VInt 2020)]]
           [2020; 2018]); [reflexivity | reflexivity | apply perm_swap | reflexivity].
Defined.

Lemma dated_or_undated_key (e : value) :
  dated_positive_or_undated e = true ->
  (lacks_year e = true /\ event_key e = Some 0) \/
  (exists y, event_key e = Some y /\ 0 < y /\ lacks_year e = false).
Proof.
  unfold dated_positive_or_undated, lacks_year, event_key, dict_mem.
  destruct e as [| | | | | |items]; try discriminate.
  destruct (dict_get "year" items) as [[| |n| | | |]|]; try discriminate.
  - intros H. right. exists n. apply Z.ltb_lt in H. auto.
  - intros _. left. auto.
Qed.

(** X14. When every life event is a mapping that has a positive integer year
    or no year at all, and at least one event has no year, the timeline
    analysis raises the lookup error for ["year"]: the event without a year
    is sorted first, as if dated 0, and its year is then read without a
    default. *)
Theorem X14_undated_event_raises (now_year : Z) (data : dict) events :
  get_list data "life_events" = VList events ->
  forallb dated_positive_or_undated events = true ->
  existsb lacks_year events = true ->
  _analyze_timelines now_year data = Raise (KeyError "year").
Proof.
  intros Hdata Hall Hsome.
  rewrite forallb_forall in Hall. apply existsb_exists in Hsome as (u & Hu & Hlacks).
  destruct (all_some_defined event_key events) as [ks Hkeys].
  { intros e He. destruct (dated_or_undated_key e (Hall e He)) as [[_ H]|(y & H & _)];
      eauto. }
  destruct ks as [|k ks].
  { apply all_some_length in Hkeys. destruct events; [destruct Hu|discriminate]. }
  destruct (sorted_keyed_events event_key
              (fun e => dated_positive_or_undated e = true) data events k ks)
    as (first & rest & Hsorted & Hfirst & HQ & _); auto.
  { apply List.Forall_forall. exact Hall. }
  apply (timelines_first_undated now_year data first rest Hsorted).
  destruct (dated_or_undated_key first HQ) as [[H _]|(y & Hy & Hpos & _)];
    [exact H|].
  exfalso.
  assert (Hzero : In 0 (k :: ks)).
  { apply (all_some_In _ _ _ Hkeys). exists u. split; [exact Hu|].
    destruct (dated_or_undated_key u (Hall u Hu)) as [[_ H]|(y' & _ & _ & H)];
      [exact H|congruence]. }
  pose proof (minimum_le k ks 0 Hzero).
  assert (y = minimum k ks) by congruence. lia.
Qed.

Lemma X14_undated_event_raises_witness :
  _analyze_timelines 2026
    (record_of "life_events"
       [VDict [("name", VStr "Channel Launch"); ("year", VInt 2018)];
        VDict [("name", VStr "Moved"); ("year", VInt 2021)];
        VDict [("name", VStr "First Job")]])
  = Raise (KeyError "year").
Proof.
  apply (X14_undated_event_raises 2026
           (record_of "life_events"
              [VDict [("name", VStr "Channel Launch"); ("year", VInt 2018)];
               VDict [("name", VStr "Moved"); ("year", VInt 2021)];
               VDict [("name", VStr "First Job")]])
           [VDict [("name", VStr "Channel Launch"); ("year", VInt 2018)];
            VDict [("name", VStr "Moved"); ("year", VInt 2021)];
            VDict [("name", VStr "First Job")]]); reflexivity.
Defined.

End TimelineMore.

(** ** More on the schema *)

Section SchemaMore.

Import Models.

Lemma check_str_nil (field : string) (lo hi : nat) (s : string) :
  check_str field lo hi s = [] <-> (lo <= String.length s <= hi)%nat.
Proof.
  unfold check_str.
  destruct (Nat.ltb_spec (String.length s) lo); [split; [discriminate|lia]|].
  destruct (Nat.ltb_spec hi (String.length s)); [split; [discriminate|lia]|].
  split; [lia|reflexivity].
Qed.

Lemma check_int_nil (field : string) (lo hi v : Z) :
  check_int field lo hi v = [] <-> lo <= v <= hi.
Proof.
  unfold check_int.
  destruct (Z.ltb_spec v lo); [split; [discriminate|lia]|].
  destruct (Z.ltb_spec hi v); [split; [discriminate|lia]|].
  split; [lia|reflexivity].
Qed.

Lemma check_pattern_nil (field : string) (alternatives : list string) (s : string) :
  check_pattern field alternatives s = [] <-> In s alternatives.
Proof.
  unfold check_pattern. rewrite <- mem_string_In.
  destruct (mem_string s alternatives); split; auto; discriminate.
Qed.

Lemma check_optional_nil {A} (check : A -> list error) (v : option A) :
  check_optional check v = [] <-> (forall a, v = Some a -> check a = []).
Proof.
  destruct v as [a|]; cbn [check_optional].
  - split; [intros H a' [= <-]; exact H | intros H; now apply H].
  - split; [intros _ a; discriminate | reflexivity].
Qed.

Lemma app_nil_iff {A} (l1 l2 : list A) :
  (l1 ++ l2)%list = [] <-> l1 = [] /\ l2 = [].
Proof.
  split; [apply List.app_eq_nil | intros [-> ->]; reflexivity].
Qed.

Lemma check_year_started_nil (current_year now_year v : Z) :
  BusinessObject.check_year_started current_year now_year v = [] <->
  2005 <= v <= current_year /\ v <= now_year.
Proof.
  unfold BusinessObject.check_year_started.
  destruct (check_int "year_started" 2005 current_year v) eqn:E.
  - apply check_int_nil in E. unfold BusinessObject.validate_year_started.
    destruct (Z.ltb_spec now_year v); [split; [discriminate|lia]|].
    split; [lia|reflexivity].
  - split; [discriminate|]. intros [H _].
    apply (proj2 (check_int_nil "year_started" 2005 current_year v)) in H.
    congruence.
Qed.

(** X15. The validator of [year_started] never rejects anything when the
    year of the construction is not before the year in which the class was
    defined: a year in the future is already rejected by the bound of the
    field, so the errors are those of the field constraints alone, and none
    of them comes from the validator. *)
Theorem X15_year_started_validator_is_redundant
  (current_year now_year : Z) (b : BusinessObject.t) :
  current_year <= now_year ->
  BusinessObject.check_year_started current_year now_year (BusinessObject.year_started b)
  = check_int "year_started" 2005 current_year (BusinessObject.year_started b) /\
  forall e message,
    In e (BusinessObject.errors current_year now_year b) ->
    violated e <> Validator message.
Proof.
  intros Hclock.
  assert (Hsame : forall v,
             BusinessObject.check_year_started current_year now_year v
             = check_int "year_started" 2005 current_year v).
  { intros v. unfold BusinessObject.check_year_started.
    destruct (check_int "year_started" 2005 current_year v) eqn:E; [|reflexivity].
    apply check_int_nil in E. unfold BusinessObject.validate_year_started.
    destruct (Z.ltb_spec now_year v); [lia|reflexivity]. }
  split; [apply Hsame|].
  intros e message He. unfold BusinessObject.errors in He. rewrite Hsame in He.
  repeat (apply in_app_or in He as [He|He]).
  - unfold check_str in He.
    repeat (destruct (Nat.ltb _ _) in He); destruct He as [<-|[]] || destruct He;
      discriminate.
  - unfold check_str in He.
    repeat (destruct (Nat.ltb _ _) in He); destruct He as [<-|[]] || destruct He;
      discriminate.
  - unfold check_int in He.
    repeat (destruct (Z.ltb _ _) in He); destruct He as [<-|[]] || destruct He;
      discriminate.
  - destruct (BusinessObject.annual_revenue b) as [q|]; cbn in He; [|destruct He].
    unfold BusinessObject.check_revenue in He.
    destruct (Qle_bool 0 q); destruct He as [<-|[]] || destruct He; discriminate.
  - unfold check_pattern in He.
    destruct (mem_string _ _) in He; destruct He as [<-|[]] || destruct He;
      discriminate.
  - unfold check_pattern in He.
    destruct (mem_string _ _) in He; destruct He as [<-|[]] || destruct He;
      discriminate.
Qed.

Lemma X15_year_started_validator_is_redundant_witness :
  BusinessObject.check_year_started 2026 2027 2027
  = check_int "year_started" 2005 2026 2027.
Proof.
  apply (X15_year_started_validator_is_redundant 2026 2027
           {| BusinessObject.name := "Merch Store";
              BusinessObject.description := "Shirts and mugs of the channel";
              BusinessObject.year_started := 2027;
              BusinessObject.annual_revenue := None;
              BusinessObject.business_type := "merchandise";
              BusinessObject.status := "active" |}).
  lia.
Defined.

(** X16. A business is constructed exactly when every field satisfies its
    constraint: name of 2 to 100 characters, description of 10 to 500, year
    started from 2005 to the current year (of the class definition and of
    the construction), revenue not negative if given, type and status in
    their closed sets.  The record that is constructed is the one given. *)
Theorem X16_business_validity
  (current_year now_year : Z) (b : BusinessObject.t) :
  (BusinessObject.new current_year now_year b = Valid b <->
   (2 <= String.length (BusinessObject.name b) <= 100)%nat /\
   (10 <= String.length (BusinessObject.description b) <= 500)%nat /\
   (2005 <= BusinessObject.year_started b <= current_year /\
    BusinessObject.year_started b <= now_year) /\
   (forall q, BusinessObject.annual_revenue b = Some q -> (0 <= q)%Q) /\
   In (BusinessObject.business_type b)
      ["merchandise"; "courses"; "sponsorships"; "production"; "other"] /\
   In (BusinessObject.status b) ["active"; "inactive"; "sold"; "acquired"]) /\
  (forall b', BusinessObject.new current_year now_year b = Valid b' -> b' = b).
Proof.
  unfold BusinessObject.new.
  assert (Hnil : BusinessObject.errors current_year now_year b = [] <->
                 (2 <= String.length (BusinessObject.name b) <= 100)%nat /\
                 (10 <= String.length (BusinessObject.description b) <= 500)%nat /\
                 (2005 <= BusinessObject.year_started b <= current_year /\
                  BusinessObject.year_started b <= now_year) /\
                 (forall q, BusinessObject.annual_revenue b = Some q -> (0 <= q)%Q) /\
                 In (BusinessObject.business_type b)
                    ["merchandise"; "courses"; "sponsorships"; "production"; "other"] /\
                 In (BusinessObject.status b) ["active"; "inactive"; "sold"; "acquired"]).
  { unfold BusinessObject.errors.
    rewrite !app_nil_iff, !check_str_nil, check_year_started_nil,
      !check_pattern_nil, check_optional_nil.
    assert (Hrev : (forall q, BusinessObject.annual_revenue b = Some q ->
                              BusinessObject.check_revenue q = []) <->
                   (forall q, BusinessObject.annual_revenue b = Some q -> (0 <= q)%Q)).
    { split; intros H q Hq; specialize (H q Hq);
        unfold BusinessObject.check_revenue in *;
        destruct (Qle_bool 0 q) eqn:E.
      - now apply Qle_bool_iff.
      - discriminate.
      - reflexivity.
      - apply Qle_bool_iff in H. congruence. }
    rewrite Hrev. tauto. }
  destruct (BusinessObject.errors current_year now_year b) as [|e errs].
  - split; [|now intros b' [= <-]]. split; [intros _; now apply Hnil|reflexivity].
  - split; [|discriminate]. split; [discriminate|].
    intros H. apply Hnil in H. discriminate.
Qed.

(** X17. A life event is constructed exactly when its name has 2 to 100
    characters, its year lies from 1900 to the current year, its description
    and its impact have 10 to 500 characters each, and its category, if
    given, is personal, professional or financial. *)
Theorem X17_life_event_validity (current_year : Z) (e : LifeEventObject.t) :
  LifeEventObject.new current_year e = Valid e <->
  (2 <= String.length (LifeEventObject.name e) <= 100)%nat /\
  1900 <= LifeEventObject.year e <= current_year /\
  (10 <= String.length (LifeEventObject.description e) <= 500)%nat /\
  (10 <= String.length (LifeEventObject.impact e) <= 500)%nat /\
  (forall c, LifeEventObject.category e = Some c ->
             In c ["personal"; "professional"; "financial"]).
Proof.
  unfold LifeEventObject.new.
  assert (Hnil : LifeEventObject.errors current_year e = [] <->
                 (2 <= String.length (LifeEventObject.name e) <= 100)%nat /\
                 1900 <= LifeEventObject.year e <= current_year /\
                 (10 <= String.length (LifeEventObject.description e) <= 500)%nat /\
                 (10 <= String.length (LifeEventObject.impact e) <= 500)%nat /\
                 (forall c, LifeEventObject.category e = Some c ->
                            In c ["personal"; "professional"; "financial"])).
  { unfold LifeEventObject.errors.
    rewrite !app_nil_iff, !check_str_nil, check_int_nil, check_optional_nil.
    assert (Hcat : (forall c, LifeEventObject.category e = Some c ->
                      check_pattern "category"
                        ["personal"; "professional"; "financial"] c = []) <->
                   (forall c, LifeEventObject.category e = Some c ->
                      In c ["personal"; "professional"; "financial"])).
    { split; intros H c Hc.
      - apply (proj1 (check_pattern_nil "category" _ c)). auto.
      - apply (proj2 (check_pattern_nil "category" _ c)). auto. }
    rewrite Hcat. tauto. }
  destruct (LifeEventObject.errors current_year e) as [|err errs].
  - split; [intros _; now apply Hnil|reflexivity].
  - split; [discriminate|]. intros H. apply Hnil in H. discriminate.
Qed.

(** X18. A challenge is constructed exactly when its description has 10 to
    200 characters, its year lies from 2005 to the current year, its
    learnings have 10 to 500 characters, and its duration, if given, is from
    1 to 120 months. *)
Theorem X18_challenge_validity (current_year : Z) (c : ChallengeObject.t) :
  ChallengeObject.new current_year c = Valid c <->
  (10 <= String.length (ChallengeObject.description c) <= 200)%nat /\
  2005 <= ChallengeObject.year c <= current_year /\
  (10 <= String.length (ChallengeObject.learnings c) <= 500)%nat /\
  (forall months, ChallengeObject.duration c = Some months -> 1 <= months <= 120).
Proof.
  unfold ChallengeObject.new.
  assert (Hnil : ChallengeObject.errors current_year c = [] <->
                 (10 <= String.length (ChallengeObject.description c) <= 200)%nat /\
                 2005 <= ChallengeObject.year c <= current_year /\
                 (10 <= String.length (ChallengeObject.learnings c) <= 500)%nat /\
                 (forall months, ChallengeObject.duration c = Some months ->
                                 1 <= months <= 120)).
  { unfold ChallengeObject.errors.
    rewrite !app_nil_iff, !check_str_nil, check_int_nil, check_optional_nil.
    assert (Hdur : (forall m, ChallengeObject.duration c = Some m ->
                      check_int "duration" 1 120 m = []) <->
                   (forall m, ChallengeObject.duration c = Some m -> 1 <= m <= 120)).
    { split; intros H m Hm.
      - apply (proj1 (check_int_nil "duration" 1 120 m)). auto.
      - apply (proj2 (check_int_nil "duration" 1 120 m)). auto. }
    rewrite Hdur. tauto. }
  destruct (ChallengeObject.errors current_year c) as [|err errs].
  - split; [intros _; now apply Hnil|reflexivity].
  - split; [discriminate|]. intros H. apply Hnil in H. discriminate.
Qed.

(** X19. A value cannot be constructed the way app.py does it, from a name
    and a description alone: [impact_today] is required and has no default,
    so the call is rejected whatever the name and the description are, and
    the missing field is among the failures. *)
Theorem X19_value_needs_impact_today (value_name value_desc : string) :
  exists failures,
    Creator.ValueObject.new (Creator.ValueObject.app_call value_name value_desc)
    = Creator.Rejected failures /\
    In (Creator.Missing "impact_today") failures.
Proof.
  exists (Creator.ValueObject.failures
            (Creator.ValueObject.app_call value_name value_desc)).
  split.
  - unfold Creator.ValueObject.new.
    destruct (Creator.ValueObject.failures _); reflexivity.
  - unfold Creator.ValueObject.failures, Creator.ValueObject.app_call.
    cbn [Creator.ValueObject.kw_name Creator.ValueObject.kw_impact_today
         Creator.ValueObject.kw_description Creator.ValueObject.required].
    apply in_or_app. right. now left.
Qed.

End SchemaMore.

Lemma X16_business_validity_witness :
  Models.BusinessObject.new 2026 2026 Sample.merch_store = Models.Valid Sample.merch_store.
Proof.
  apply (proj1 (X16_business_validity 2026 2026 Sample.merch_store)).
  split; [simpl; lia|]. split; [simpl; lia|]. split; [simpl; lia|].
  split; [|split; simpl; auto].
  intros q Hq. injection Hq as <-. unfold Qle. simpl. lia.
Defined.

Lemma X17_life_event_validity_witness :
  Models.LifeEventObject.new 2026 (Sample.channel_launch 2018)
  = Models.Valid (Sample.channel_launch 2018).
Proof.
  apply (X17_life_event_validity 2026 (Sample.channel_launch 2018)).
  split; [simpl; lia|]. split; [simpl; lia|]. split; [simpl; lia|].
  split; [simpl; lia|].
  intros c Hc. injection Hc as <-. simpl. auto.
Defined.

Lemma X18_challenge_validity_witness :
  Models.ChallengeObject.new 2026 (Sample.burnout 2020)
  = Models.Valid (Sample.burnout 2020).
Proof.
  apply (X18_challenge_validity 2026 (Sample.burnout 2020)).
  split; [simpl; lia|]. split; [simpl; lia|]. split; [simpl; lia|].
  intros m Hm. injection Hm as <-. lia.
Defined.

(** ** The analysis of a record of the schema *)

Section CreatorMore.

Import Agent Creator.

Lemma value_names_schema (vs : list ValueObject.t) :
  value_names (map ValueObject.to_dict vs)
  = Ok (map (fun v => VStr (ValueObject.name v)) vs).
Proof.
  induction vs as [|v vs IH]; [reflexivity|].
  cbn [map value_names]. unfold ValueObject.to_dict at 1.
  cbn [Py.getitem dict_get String.eqb Ascii.eqb Bool.eqb bind].
  rewrite IH. reflexivity.
Qed.

Lemma years_of_schema (es : list Models.LifeEventObject.t) :
  Spec.years_of (map Models.LifeEventObject.to_dict es)
  = Some (map Models.LifeEventObject.year es).
Proof.
  unfold Spec.years_of. induction es as [|e es IH]; [reflexivity|].
  cbn [map Spec.all_some]. rewrite IH. reflexivity.
Qed.

Lemma business_analysis_schema (data : dict) (bs : list Models.BusinessObject.t) :
  get_list data "businesses" = VList (map Models.BusinessObject.to_dict bs) ->
  _analyze_business data =
  Ok (VDict [("total_businesses", VInt (Z.of_nat (length bs)));
             ("active_businesses", VInt 0);
             ("average_revenue",
              match bs with
              | [] => VInt 0
              | _ :: _ => VFloat (inject_Z 0 / inject_Z (Z.of_nat (length bs)))
              end)]).
Proof.
  intros Hdata. unfold _analyze_business. rewrite Hdata.
  cbn [Py.len Py.iter bind].
  rewrite List.length_map, count_active_schema. cbn [bind].
  destruct bs as [|b bs]; [reflexivity|].
  cbn [Py.truthy map length Nat.eqb negb].
  change (Models.BusinessObject.to_dict b :: map Models.BusinessObject.to_dict bs)
    with (map Models.BusinessObject.to_dict (b :: bs)).
  rewrite sum_revenue_schema. cbn [bind].
  rewrite truediv_int by (cbn [length]; lia). reflexivity.
Qed.

(** X20. What app.py computes: the analysis of the dictionary of a creator
    record of the schema.  Unless the earliest life event is dated the
    current year, in which case the division error of the timeline is
    raised, [analyze_creator] returns the four sections: the four counts; the
    number of businesses with 0 active businesses and an average revenue of
    0, since the analysis reads [is_active] and [revenue] where the schema
    has [status] and [annual_revenue]; the names of the values with their
    number divided by 10; the earliest year with the milestone frequency. *)
Theorem X20_analysis_of_schema_record (now_year : Z) (c : ContentCreatorInfo.t) :
  analyze_creator now_year (ContentCreatorInfo.to_dict c) =
  if starts_this_year now_year c then Raise ZeroDivisionError
  else Ok (expected_analysis now_year c).
Proof.
  unfold analyze_creator.
  assert (Hstats : _calculate_basic_stats (ContentCreatorInfo.to_dict c) =
                   Ok (VDict [("total_life_events",
                               VInt (Z.of_nat (length (ContentCreatorInfo.life_events c))));
                              ("total_challenges",
                               VInt (Z.of_nat (length (ContentCreatorInfo.challenges c))));
                              ("total_achievements",
                               VInt (Z.of_nat (length (ContentCreatorInfo.achievements c))));
                              ("business_count",
                               VInt (Z.of_nat (length (ContentCreatorInfo.businesses c))))])).
  { unfold _calculate_basic_stats.
    change (get_list (ContentCreatorInfo.to_dict c) "life_events")
      with (VList (map Models.LifeEventObject.to_dict (ContentCreatorInfo.life_events c))).
    change (get_list (ContentCreatorInfo.to_dict c) "challenges")
      with (VList (map challenge_to_dict (ContentCreatorInfo.challenges c))).
    change (get_list (ContentCreatorInfo.to_dict c) "achievements")
      with (VList (map AchievementObject.to_dict (ContentCreatorInfo.achievements c))).
    change (get_list (ContentCreatorInfo.to_dict c) "businesses")
      with (VList (map Models.BusinessObject.to_dict (ContentCreatorInfo.businesses c))).
    cbn [Py.len bind]. rewrite !List.length_map. reflexivity. }
  rewrite Hstats. cbn [bind].
  rewrite (business_analysis_schema _ (ContentCreatorInfo.businesses c)) by reflexivity.
  cbn [bind].
  assert (Hvalues : _assess_values (ContentCreatorInfo.to_dict c) =
                    Ok (VDict [("core_values",
                                VList (map (fun v => VStr (ValueObject.name v))
                                           (ContentCreatorInfo.values c)));
                               ("value_consistency_score",
                                VFloat (inject_Z (Z.of_nat (length (ContentCreatorInfo.values c)))
                                        / inject_Z 10))])).
  { unfold _assess_values.
    change (get_list (ContentCreatorInfo.to_dict c) "values")
      with (VList (map ValueObject.to_dict (ContentCreatorInfo.values c))).
    cbn [Py.iter Py.len bind]. rewrite value_names_schema. cbn [bind].
    rewrite List.length_map, truediv_int by lia. reflexivity. }
  rewrite Hvalues. cbn [bind].
  unfold starts_this_year, expected_analysis.
  pose proof (years_of_schema (ContentCreatorInfo.life_events c)) as Hyears.
  assert (Hdata : get_list (ContentCreatorInfo.to_dict c) "life_events"
                  = VList (map Models.LifeEventObject.to_dict
                             (ContentCreatorInfo.life_events c))) by reflexivity.
  destruct (map Models.LifeEventObject.year (ContentCreatorInfo.life_events c))
    as [|y ys] eqn:Eyears.
  - destruct (ContentCreatorInfo.life_events c); [|discriminate].
    rewrite (timeline_of_no_events now_year _ Hdata). reflexivity.
  - rewrite (timelines_of_dated_events _ _ _ _ _ Hdata Hyears).
    rewrite List.length_map.
    destruct (Z.eqb_spec (Spec.minimum y ys) now_year) as [->|Hne].
    + rewrite Z.sub_diag. reflexivity.
    + rewrite truediv_int by lia. reflexivity.
Qed.

End CreatorMore.

(** ** The merge on objects that are not shared *)

Section ObjectFacts.

Import Store Objects.

Lemma elem_of_fresh a h h' : a ∈ fresh h h' <-> (length h <= a < length h')%nat.
Proof. unfold fresh. rewrite elem_of_set_seq. lia. Qed.

Lemma tree_mono_all h :
  (forall v p F, tree h v p F -> forall F', F ⊆ F' -> tree h v p F') /\
  (forall vs ps F, trees h vs ps F -> forall F', F ⊆ F' -> trees h vs ps F') /\
  (forall items pitems F, entries h items pitems F ->
     forall F', F ⊆ F' -> entries h items pitems F').
Proof.
  apply tree_mutind.
  - intros; constructor.
  - intros; constructor.
  - intros; constructor.
  - intros; constructor.
  - intros; constructor.
  - intros r vs ps F Hr Hin _ IH F' Hsub.
    econstructor; [exact Hr | set_solver | apply IH; set_solver].
  - intros r items pitems F Hr Hin _ IH F' Hsub.
    econstructor; [exact Hr | set_solver | apply IH; set_solver].
  - intros; constructor.
  - intros v p vs ps F1 F2 F Ht _ Hts _ Hd Hsub F' Hsub'.
    econstructor; [exact Ht | exact Hts | exact Hd | set_solver].
  - intros; constructor.
  - intros k v p items pitems F1 F2 F Ht _ Hes _ Hd Hsub F' Hsub'.
    econstructor; [exact Ht | exact Hes | exact Hd | set_solver].
Qed.

Lemma tree_mono h v p F F' : tree h v p F -> F ⊆ F' -> tree h v p F'.
Proof. intros H. now apply (proj1 (tree_mono_all h)). Qed.
Lemma trees_mono h vs ps F F' : trees h vs ps F -> F ⊆ F' -> trees h vs ps F'.
Proof. intros H. now apply (proj1 (proj2 (tree_mono_all h))). Qed.
Lemma entries_mono h items pitems F F' :
  entries h items pitems F -> F ⊆ F' -> entries h items pitems F'.
Proof. intros H. now apply (proj2 (proj2 (tree_mono_all h))). Qed.

(** Objects outside the footprint may change. *)
Lemma tree_frame_all h h' :
  (forall v p F, tree h v p F -> (forall a, a ∈ F -> h' !! a = h !! a) -> tree h' v p F) /\
  (forall vs ps F, trees h vs ps F -> (forall a, a ∈ F -> h' !! a = h !! a) -> trees h' vs ps F) /\
  (forall items pitems F, entries h items pitems F ->
     (forall a, a ∈ F -> h' !! a = h !! a) -> entries h' items pitems F).
Proof.
  apply tree_mutind.
  - intros; constructor.
  - intros; constructor.
  - intros; constructor.
  - intros; constructor.
  - intros; constructor.
  - intros r vs ps F Hr Hin _ IH Hsame.
    econstructor; [rewrite Hsame; eauto | exact Hin |].
    apply IH. intros a Ha. apply Hsame. set_solver.
  - intros r items pitems F Hr Hin _ IH Hsame.
    econstructor; [rewrite Hsame; eauto | exact Hin |].
    apply IH. intros a Ha. apply Hsame. set_solver.
  - intros; constructor.
  - intros v p vs ps F1 F2 F _ IHt _ IHts Hd Hsub Hsame.
    econstructor; [apply IHt | apply IHts | exact Hd | exact Hsub];
      intros a Ha; apply Hsame; set_solver.
  - intros; constructor.
  - intros k v p items pitems F1 F2 F _ IHt _ IHes Hd Hsub Hsame.
    econstructor; [apply IHt | apply IHes | exact Hd | exact Hsub];
      intros a Ha; apply Hsame; set_solver.
Qed.

Lemma tree_frame h h' v p F :
  tree h v p F -> (forall a, a ∈ F -> h' !! a = h !! a) -> tree h' v p F.
Proof. apply (proj1 (tree_frame_all h h')). Qed.
Lemma trees_frame h h' vs ps F :
  trees h vs ps F -> (forall a, a ∈ F -> h' !! a = h !! a) -> trees h' vs ps F.
Proof. apply (proj1 (proj2 (tree_frame_all h h'))). Qed.
Lemma entries_frame h h' items pitems F :
  entries h items pitems F -> (forall a, a ∈ F -> h' !! a = h !! a) ->
  entries h' items pitems F.
Proof. apply (proj2 (proj2 (tree_frame_all h h'))). Qed.

Lemma tree_snapshot_all h :
  (forall v p F, tree h v p F ->
     forall n, (height v <= n)%nat -> snapshot n h p = Some v) /\
  (forall vs ps F, trees h vs ps F ->
     forall n, (fold_right (fun x m => Nat.max (height x) m) 0%nat vs <= n)%nat ->
     mapM (snapshot n h) ps = Some vs) /\
  (forall items pitems F, entries h items pitems F ->
     forall n, (fold_right (fun kv m => Nat.max (height (snd kv)) m) 0%nat items <= n)%nat ->
     mapM (fun kv => pair (fst kv) <$> snapshot n h (snd kv)) pitems = Some items).
Proof.
  apply tree_mutind.
  - intros F [|n] _; reflexivity.
  - intros b F [|n] _; reflexivity.
  - intros z F [|n] _; reflexivity.
  - intros q F [|n] _; reflexivity.
  - intros s F [|n] _; reflexivity.
  - intros r vs ps F Hr Hin _ IH [|n] Hn; cbn [height] in Hn; [lia|].
    cbn [snapshot]. rewrite Hr, (IH n) by lia. reflexivity.
  - intros r items pitems F Hr Hin _ IH [|n] Hn; cbn [height] in Hn; [lia|].
    cbn [snapshot]. rewrite Hr, (IH n) by lia. reflexivity.
  - intros; reflexivity.
  - intros v p vs ps F1 F2 F _ IHt _ IHts _ _ n Hn. cbn [fold_right] in Hn.
    cbn [mapM]. rewrite (IHt n) by lia. rewrite (IHts n) by lia. reflexivity.
  - intros; reflexivity.
  - intros k v p items pitems F1 F2 F _ IHt _ IHes _ _ n Hn.
    cbn [fold_right snd] in Hn.
    cbn [mapM fst snd]. rewrite (IHt n) by lia. cbn. rewrite (IHes n) by lia.
    reflexivity.
Qed.

Lemma tree_snapshot h v p F n :
  tree h v p F -> (height v <= n)%nat -> snapshot n h p = Some v.
Proof. intros H Hn. exact (proj1 (tree_snapshot_all h) v p F H n Hn). Qed.

(** Heap extension *)
Lemma lookup_app_old (h ext : heap) a :
  (a < length h)%nat -> (h ++ ext)%list !! a = h !! a.
Proof. intros H. now apply lookup_app_l. Qed.

Lemma fresh_app_length h ext a :
  a ∈ fresh h (h ++ ext)%list <-> (length h <= a < length h + length ext)%nat.
Proof. rewrite elem_of_fresh, length_app. lia. Qed.

(** Induction on values, with the elements of lists and dictionaries. *)
Lemma value_ind_nested (P : value -> Prop) :
  P VNone -> (forall b, P (VBool b)) -> (forall n, P (VInt n)) ->
  (forall q, P (VFloat q)) -> (forall s, P (VStr s)) ->
  (forall elems, Forall P elems -> P (VList elems)) ->
  (forall items, Forall (fun kv => P (snd kv)) items -> P (VDict items)) ->
  forall v, P v.
Proof.
  intros HN HB HI HF HS HL HD.
  fix IH 1. intros v. destruct v as [| b | n | q | s | elems | items].
  - exact HN.
  - apply HB.
  - apply HI.
  - apply HF.
  - apply HS.
  - apply HL. revert elems. fix IHl 1. intros [|x elems].
    + constructor.
    + constructor; [apply IH | apply IHl].
  - apply HD. revert items. fix IHl 1. intros [|[k x] items].
    + constructor.
    + constructor; [apply IH | apply IHl].
Qed.

Lemma store_all_trees elems :
  Forall builds elems ->
  forall h, exists ext,
    snd (store_all store elems h) = (h ++ ext)%list /\
    trees (h ++ ext)%list elems (fst (store_all store elems h)) (fresh h (h ++ ext)%list).
Proof.
  induction 1 as [|v elems Hv _ IH]; intros h.
  - exists []. rewrite app_nil_r. split; [reflexivity|constructor].
  - cbn [store_all fst snd].
    destruct (Hv h) as (ext1 & Hh1 & Ht1). rewrite Hh1.
    destruct (IH (h ++ ext1)%list) as (ext2 & Hh2 & Ht2). rewrite Hh2.
    exists (ext1 ++ ext2)%list. rewrite app_assoc. split; [reflexivity|].
    eapply trees_cons; [| exact Ht2 | |].
    + eapply tree_frame; [exact Ht1|].
      intros a Ha. apply elem_of_fresh in Ha. apply lookup_app_l. lia.
    + apply elem_of_disjoint. intros a Ha1 Ha2.
      apply elem_of_fresh in Ha1, Ha2. lia.
    + intros a Ha. apply elem_of_union in Ha. apply elem_of_fresh.
      rewrite !elem_of_fresh in Ha. rewrite !length_app in *. lia.
Qed.

Lemma store_item_eq k v h :
  store_item (k, v) h = ((k, fst (store v h)), snd (store v h)).
Proof. reflexivity. Qed.

Lemma store_dict items h :
  store (VDict items) h =
  alloc (ODict (fst (store_all store_item items h))) (snd (store_all store_item items h)).
Proof. reflexivity. Qed.

Lemma store_list elems h :
  store (VList elems) h =
  alloc (OList (fst (store_all store elems h))) (snd (store_all store elems h)).
Proof. reflexivity. Qed.

Lemma store_all_entries items :
  Forall (fun kv => builds (snd kv)) items ->
  forall h, exists ext,
    snd (store_all store_item items h) = (h ++ ext)%list /\
    entries (h ++ ext)%list items (fst (store_all store_item items h))
      (fresh h (h ++ ext)%list).
Proof.
  induction 1 as [|[k v] items Hv _ IH]; intros h.
  - exists []. rewrite app_nil_r. split; [reflexivity|constructor].
  - cbn [store_all]. rewrite !store_item_eq. cbn [fst snd]. cbn [snd] in Hv.
    destruct (Hv h) as (ext1 & Hh1 & Ht1). rewrite Hh1.
    destruct (IH (h ++ ext1)%list) as (ext2 & Hh2 & Ht2). rewrite Hh2.
    exists (ext1 ++ ext2)%list. rewrite app_assoc. split; [reflexivity|].
    eapply entries_cons; [| exact Ht2 | |].
    + eapply tree_frame; [exact Ht1|].
      intros a Ha. apply elem_of_fresh in Ha. apply lookup_app_l. lia.
    + apply elem_of_disjoint. intros a Ha1 Ha2.
      apply elem_of_fresh in Ha1, Ha2. lia.
    + intros a Ha. apply elem_of_union in Ha. apply elem_of_fresh.
      rewrite !elem_of_fresh in Ha. rewrite !length_app in *. lia.
Qed.

Lemma alloc_tree_root (h ext : heap) (o : obj) a :
  a ∈ fresh h (h ++ ext)%list -> a ∈ fresh h ((h ++ ext) ++ [o])%list ∖ {[length (h ++ ext)%list]}.
Proof.
  rewrite elem_of_difference, !elem_of_fresh, elem_of_singleton, !length_app.
  simpl. lia.
Qed.

Lemma store_builds v : builds v.
Proof.
  induction v as [| b | n | q | s | elems IH | items IH] using value_ind_nested;
    intros h.
  1-5: exists []; rewrite app_nil_r; split; [reflexivity|constructor].
  - destruct (store_all_trees elems IH h) as (ext & Hh & Ht).
    rewrite store_list. cbn [alloc fst snd]. rewrite Hh.
    exists (ext ++ [OList (fst (store_all store elems h))])%list.
    rewrite app_assoc. split; [reflexivity|].
    eapply tree_list.
    + apply list_lookup_middle. reflexivity.
    + apply elem_of_fresh. rewrite !length_app. simpl. lia.
    + eapply trees_mono.
      * eapply trees_frame; [exact Ht|].
        intros a Ha. apply elem_of_fresh in Ha. apply lookup_app_l. lia.
      * intros a Ha. now apply alloc_tree_root.
  - destruct (store_all_entries items IH h) as (ext & Hh & Ht).
    rewrite store_dict. cbn [alloc fst snd]. rewrite Hh.
    eexists (ext ++ [ODict _])%list.
    rewrite app_assoc. split; [reflexivity|].
    eapply tree_dict.
    + apply list_lookup_middle. reflexivity.
    + apply elem_of_fresh. rewrite !length_app. simpl. lia.
    + eapply entries_mono.
      * eapply entries_frame; [exact Ht|].
        intros a Ha. apply elem_of_fresh in Ha. apply lookup_app_l. lia.
      * intros a Ha. now apply alloc_tree_root.
Qed.

Lemma trees_app h vs ps F1 us qs F2 :
  trees h vs ps F1 -> trees h us qs F2 -> F1 ## F2 ->
  trees h (vs ++ us)%list (ps ++ qs)%list (F1 ∪ F2).
Proof.
  intros H1 H2. revert F2 H2.
  induction H1 as [F|v p vs ps Fa Fb F Hv Hvs IH Hd Hsub]; intros F2 H2 Hdisj.
  - simpl. eapply trees_mono; [exact H2|]. clear. set_solver.
  - simpl. eapply trees_cons with (F1 := Fa) (F2 := Fb ∪ F2).
    + exact Hv.
    + apply (IH F2 H2). clear - Hsub Hdisj. set_solver.
    + clear - Hd Hsub Hdisj. set_solver.
    + clear - Hsub. set_solver.
Qed.

Lemma entries_absent h items pitems F k :
  entries h items pitems F -> dict_get k items = None ->
  dict_get k pitems = None /\
  forall h' v' p' F',
    (forall a, a ∈ F -> h' !! a = h !! a) ->
    tree h' v' p' F' -> F' ## F ->
    entries h' (dict_set k v' items) (dict_set k p' pitems) (F ∪ F').
Proof.
  induction 1 as [F|k0 v0 p0 items pitems F1 F2 F Hv Hes IH Hd Hsub].
  - intros _. split; [reflexivity|]. intros h' v' p' F' _ Hv' _. simpl.
    eapply entries_cons with (F1 := F') (F2 := (∅ : gset nat)).
    + exact Hv'.
    + apply entries_nil.
    + apply disjoint_empty_r.
    + clear Hv'. set_solver.
  - cbn [dict_get]. destruct (String.eqb k k0) eqn:E; [discriminate|].
    intros Hnone. destruct (IH Hnone) as [Hp Hset]. split; [exact Hp|].
    intros h' v' p' F' Hsame Hv' Hdisj. cbn [dict_set]. rewrite E.
    eapply entries_cons with (F1 := F1) (F2 := F2 ∪ F').
    + eapply tree_frame; [exact Hv|]. intros a Ha. apply Hsame.
      clear - Ha Hsub. set_solver.
    + apply (Hset h' v' p' F'); [|exact Hv'|clear - Hdisj Hsub; set_solver].
      intros a Ha. apply Hsame. clear - Ha Hsub. set_solver.
    + clear - Hd Hdisj Hsub. set_solver.
    + clear - Hsub. set_solver.
Qed.

Lemma entries_present h items pitems F k old :
  entries h items pitems F -> dict_get k items = Some old ->
  exists pold Fold Frest,
    dict_get k pitems = Some pold /\ tree h old pold Fold /\
    Fold ## Frest /\ Fold ∪ Frest ⊆ F /\
    forall h' v' p' F',
      (forall a, a ∈ Frest -> h' !! a = h !! a) ->
      tree h' v' p' F' -> F' ## Frest ->
      entries h' (dict_set k v' items) (dict_set k p' pitems) (F' ∪ Frest).
Proof.
  induction 1 as [F|k0 v0 p0 items pitems F1 F2 F Hv Hes IH Hd Hsub].
  - discriminate.
  - cbn [dict_get]. destruct (String.eqb k k0) eqn:E.
    + intros [= <-]. exists p0, F1, F2.
      split; [reflexivity|]. split; [exact Hv|]. split; [exact Hd|].
      split; [exact Hsub|].
      intros h' v' p' F' Hsame Hv' Hdisj. cbn [dict_set]. rewrite E.
      eapply entries_cons with (F1 := F') (F2 := F2);
        [exact Hv' | | exact Hdisj | reflexivity].
      eapply entries_frame; [exact Hes | exact Hsame].
    + intros Hget.
      destruct (IH Hget) as (pold & Fold & Frest & Hp & Hold & Hd' & Hsub' & Hset).
      exists pold, Fold, (F1 ∪ Frest).
      split; [exact Hp|]. split; [exact Hold|].
      split; [clear - Hd Hd' Hsub'; set_solver|].
      split; [clear - Hsub Hsub'; set_solver|].
      intros h' v' p' F' Hsame Hv' Hdisj. cbn [dict_set]. rewrite E.
      eapply entries_cons with (F1 := F1) (F2 := F' ∪ Frest).
      * eapply tree_frame; [exact Hv|]. intros a Ha. apply Hsame.
        clear - Ha. set_solver.
      * apply (Hset h' v' p' F'); [|exact Hv'|clear - Hdisj; set_solver].
        intros a Ha. apply Hsame. clear - Ha. set_solver.
      * clear - Hd Hdisj Hsub'. set_solver.
      * clear. set_solver.
Qed.

Global Instance set_unfold_fresh a h h' :
  SetUnfoldElemOf a (fresh h h') (length h <= a < length h')%nat.
Proof. constructor. apply elem_of_fresh. Qed.

Lemma drop_cons_inv {A} (l : list A) pos x rest :
  drop pos l = x :: rest -> l !! pos = Some x /\ drop (S pos) l = rest.
Proof.
  revert l. induction pos as [|pos IH]; intros [|y l]; simpl; try discriminate.
  - intros [= -> ->]. split; [reflexivity|]. now rewrite drop_0.
  - intros H. now apply IH.
Qed.

Lemma setitem_dict r key v h items :
  h !! r = Some (ODict items) ->
  setitem r key v h = Ok (<[r := ODict (dict_set key v items)]> h).
Proof. intros H. unfold setitem. now rewrite H. Qed.

Lemma merge_loop_tree rec n rb ru upitems :
  rec_ok rec n -> rb <> ru ->
  forall rem rem_p pos h b_items bpitems Fb Fr,
    h !! ru = Some (ODict upitems) ->
    drop pos upitems = rem_p ->
    h !! rb = Some (ODict bpitems) ->
    entries h b_items bpitems Fb ->
    entries h rem rem_p Fr ->
    Fb ## Fr -> rb ∉ Fb ∪ Fr -> ru ∉ Fb ∪ Fr -> bounded h (Fb ∪ Fr) ->
    Forall (fun kv => (height (snd kv) <= n)%nat) rem ->
    exists h' bpitems',
      merge_loop rec rb ru (length upitems) (length rem_p) pos h = Ok h' /\
      (length h <= length h')%nat /\
      h' !! rb = Some (ODict bpitems') /\
      entries h' (Utils.merge_items rem b_items) bpitems' (Fb ∪ Fr ∪ fresh h h') /\
      (forall a, (a < length h)%nat -> a ∉ {[rb]} ∪ Fb ∪ Fr -> h' !! a = h !! a).
Proof.
  intros Hrec Hne rem.
  induction rem as [|[k v] rem IH];
    intros rem_p pos h b_items bpitems Fb Fr Hu Hdrop Hb Hbe Hre Hdisj Hrb Hru
      Hbound Hheight.
  - inversion Hre; subst. cbn [length merge_loop]. rewrite Hu, Nat.eqb_refl.
    cbn [negb]. exists h, bpitems. split; [reflexivity|]. split; [lia|].
    split; [exact Hb|]. split; [|auto].
    cbn [Utils.merge_items]. eapply entries_mono; [exact Hbe|].
    clear. set_solver.
  - subst rem_p.
    inversion Hre as [|k0 v0 p items pitems F1 F2 F Hv Hes Hd Hsub Hitems Hpitems];
      subst.
    symmetry in Hpitems. apply drop_cons_inv in Hpitems as [Hpos Hdrop'].
    rewrite merge_items_cons.
    pose proof (lookup_lt_Some _ _ _ Hb) as Hrb_lt.
    pose proof (lookup_lt_Some _ _ _ Hu) as Hru_lt.
    apply Forall_cons in Hheight as [Hhv Hhrest]. cbn [snd] in Hhv.
    cbn [length merge_loop]. rewrite Hu, Nat.eqb_refl. cbn [negb].
    rewrite Hpos, Hb. unfold Utils.merge_step.
    destruct (dict_get k b_items) as [old|] eqn:Eg.
    + destruct (entries_present _ _ _ _ k old Hbe Eg)
        as (pold & Fold & Frest & Hp & Hold & Hd' & Hsub' & Hset).
      rewrite Hp.
      destruct (Hrec old v pold p h Fold F1 Hhv Hold Hv)
        as (r & h1 & Hrun1 & Hlen1 & Hr & Hframe1).
      { clear - Hdisj Hsub Hsub'. set_solver. }
      { clear - Hbound Hsub Hsub'. unfold bounded in *. intros a Ha.
        apply Hbound. set_solver. }
      rewrite Hrun1. cbn [bind fst snd].
      assert (Hb1 : h1 !! rb = Some (ODict bpitems)).
      { rewrite Hframe1; [exact Hb | exact Hrb_lt |].
        clear - Hrb Hsub Hsub'. set_solver. }
      rewrite (setitem_dict _ _ _ _ _ Hb1). cbn [bind].
      set (h2 := <[rb := ODict (dict_set k r bpitems)]> h1).
      assert (Hlen2 : length h2 = length h1) by apply length_insert.
      assert (Hsame2 : forall a, a <> rb -> h2 !! a = h1 !! a).
      { intros a Ha. apply list_lookup_insert_ne. congruence. }
      assert (Hsame : forall a, (a < length h)%nat -> a <> rb -> a ∉ Fold ∪ F1 ->
                                h2 !! a = h !! a).
      { intros a Ha1 Ha2 Ha3. rewrite Hsame2 by exact Ha2. now apply Hframe1. }
      destruct (IH pitems (S pos) h2
                  (dict_set k (Utils.recursive_merge old v) b_items)
                  (dict_set k r bpitems)
                  ((Fold ∪ F1 ∪ fresh h h1) ∪ Frest) F2)
        as (h' & bp' & Hrun & Hlen & Hb' & He' & Hframe).
      * rewrite Hsame; [exact Hu | exact Hru_lt | congruence |].
        clear - Hru Hsub Hsub'. set_solver.
      * exact Hdrop'.
      * apply list_lookup_insert_eq. lia.
      * apply (Hset h2 (Utils.recursive_merge old v) r (Fold ∪ F1 ∪ fresh h h1)).
        -- intros a Ha. apply Hsame.
           ++ apply Hbound. clear - Ha Hsub'. set_solver.
           ++ clear - Ha Hrb Hsub'. set_solver.
           ++ clear - Ha Hd' Hdisj Hsub Hsub'. set_solver.
        -- eapply tree_frame; [exact Hr|]. intros a Ha. apply Hsame2.
           clear - Ha Hrb Hrb_lt Hsub Hsub'. set_unfold. naive_solver lia.
        -- clear - Hd' Hdisj Hsub Hsub' Hbound. unfold bounded in Hbound.
           set_unfold. naive_solver lia.
      * eapply entries_frame; [exact Hes|]. intros a Ha. apply Hsame.
        -- apply Hbound. clear - Ha Hsub. set_solver.
        -- clear - Ha Hrb Hsub. set_solver.
        -- clear - Ha Hd Hdisj Hsub Hsub'. set_solver.
      * clear - Hdisj Hsub Hsub' Hd Hbound. unfold bounded in Hbound.
        set_unfold. naive_solver lia.
      * clear - Hrb Hsub Hsub' Hrb_lt. set_unfold. naive_solver lia.
      * clear - Hru Hsub Hsub' Hru_lt. set_unfold. naive_solver lia.
      * clear - Hbound Hsub Hsub' Hlen1 Hlen2. unfold bounded in *.
        rewrite Hlen2. intros a Ha. set_unfold.
        destruct Ha as [[[[Ha|Ha]|Ha]|Ha]|Ha]; try lia;
          (assert (a < length h)%nat by (apply Hbound; set_solver); lia).
      * exact Hhrest.
      * exists h', bp'. split; [exact Hrun|]. split; [lia|]. split; [exact Hb'|].
        split.
        -- eapply entries_mono; [exact He'|].
           clear - Hsub Hsub' Hlen1 Hlen2 Hlen. set_unfold. naive_solver lia.
        -- intros a Ha Hnot. rewrite Hframe.
           ++ apply Hsame; [exact Ha | |];
                clear - Hnot Hsub Hsub'; set_solver.
           ++ lia.
           ++ clear - Hnot Hsub Hsub' Ha. set_unfold. naive_solver lia.
    + destruct (entries_absent _ _ _ _ k Hbe Eg) as [Hp Hset].
      rewrite Hp, (setitem_dict _ _ _ _ _ Hb). cbn [bind].
      set (h2 := <[rb := ODict (dict_set k p bpitems)]> h).
      assert (Hlen2 : length h2 = length h) by apply length_insert.
      assert (Hsame2 : forall a, a <> rb -> h2 !! a = h !! a).
      { intros a Ha. apply list_lookup_insert_ne. congruence. }
      destruct (IH pitems (S pos) h2 (dict_set k v b_items) (dict_set k p bpitems)
                  (Fb ∪ F1) F2) as (h' & bp' & Hrun & Hlen & Hb' & He' & Hframe).
      * rewrite Hsame2 by congruence. exact Hu.
      * exact Hdrop'.
      * apply list_lookup_insert_eq. exact Hrb_lt.
      * apply (Hset h2 v p F1).
        -- intros a Ha. apply Hsame2. clear - Ha Hrb. set_solver.
        -- eapply tree_frame; [exact Hv|]. intros a Ha. apply Hsame2.
           clear - Ha Hrb Hsub. set_solver.
        -- clear - Hdisj Hsub. set_solver.
      * eapply entries_frame; [exact Hes|]. intros a Ha. apply Hsame2.
        clear - Ha Hrb Hsub. set_solver.
      * clear - Hdisj Hsub Hd. set_solver.
      * clear - Hrb Hsub. set_solver.
      * clear - Hru Hsub. set_solver.
      * clear - Hbound Hsub Hlen2. unfold bounded in *. rewrite Hlen2.
        intros a Ha. apply Hbound. set_solver.
      * exact Hhrest.
      * exists h', bp'. split; [exact Hrun|]. split; [lia|]. split; [exact Hb'|].
        split.
        -- eapply entries_mono; [exact He'|].
           clear - Hsub Hlen2. set_unfold. intros a. rewrite Hlen2. naive_solver.
        -- intros a Ha Hnot. rewrite Hframe.
           ++ apply Hsame2. clear - Hnot. set_solver.
           ++ lia.
           ++ clear - Hnot Hsub. set_solver.
Qed.

Lemma height_dict_le items m :
  (height (VDict items) <= S m)%nat ->
  Forall (fun kv => (height (snd kv) <= m)%nat) items.
Proof.
  cbn [height]. intros H. apply le_S_n in H.
  induction items as [|kv items IH]; constructor; cbn [fold_right] in H; [lia|].
  apply IH. lia.
Qed.

Lemma merge_post_same h u pu F :
  tree h u pu F -> merge_post h h u pu F.
Proof.
  intros Hu. split; [lia|]. split; [|auto].
  eapply tree_mono; [exact Hu|]. clear. set_solver.
Qed.

Lemma recursive_merge_dicts n rb ru h bpitems upitems :
  h !! rb = Some (ODict bpitems) -> h !! ru = Some (ODict upitems) ->
  recursive_merge (S n) (PRef rb) (PRef ru) h =
  (h' <- merge_loop (recursive_merge n) rb ru (length upitems) (length upitems)
           0%nat h ;;
   Ok (PRef rb, h')).
Proof. intros Hb Hu. cbn [recursive_merge]. rewrite Hb, Hu. reflexivity. Qed.

Lemma recursive_merge_step n :
  (forall m, n = S m -> rec_ok (recursive_merge n) m) ->
  rec_ok (recursive_merge (S n)) n.
Proof.
  intros Hkids b u pb pu h Fb Fu Hh Hb Hu Hdisj Hbound.
  assert (Hkeep : tree h u pu (Fb ∪ Fu)).
  { eapply tree_mono; [exact Hu|]. clear. set_solver. }
  destruct Hu as [F|x F|x F|x F|x F|ru us ups F Hru Hru_in Hus
                 |ru uitems upitems F Hru Hru_in Hues].
  1-5: (match type of Hkeep with tree _ _ ?p _ => exists p, h end; split;
        [destruct pb; reflexivity
        |destruct b; apply merge_post_same; exact Hkeep]).
  - (* update is a list *)
    destruct Hb as [F'|x F'|x F'|x F'|x F'|rb bs bps F' Hrb Hrb_in Hbs
                   |rb bitems bpitems F' Hrb Hrb_in Hbes].
    1-5: (exists (PRef ru), h; split;
          [reflexivity | apply merge_post_same; exact Hkeep]).
    + cbn [recursive_merge]. rewrite Hrb, Hru. cbn [alloc Utils.recursive_merge].
      eexists _, _. split; [reflexivity|].
      pose proof (lookup_lt_Some _ _ _ Hrb) as Hrb_lt.
      pose proof (lookup_lt_Some _ _ _ Hru) as Hru_lt.
      split; [rewrite length_app; lia|]. split.
      * eapply tree_list.
        -- apply list_lookup_middle. reflexivity.
        -- clear. set_unfold. rewrite length_app. simpl. lia.
        -- eapply trees_mono.
           ++ apply trees_app.
              ** eapply trees_frame; [exact Hbs|]. intros a Ha.
                 apply lookup_app_l. apply Hbound. clear - Ha. set_solver.
              ** eapply trees_frame; [exact Hus|]. intros a Ha.
                 apply lookup_app_l. apply Hbound. clear - Ha. set_solver.
              ** clear - Hdisj. set_solver.
           ++ clear - Hbound. unfold bounded in Hbound. set_unfold.
              intros a Ha. rewrite length_app. simpl.
              assert (a < length h)%nat by (apply Hbound; naive_solver).
              naive_solver lia.
      * intros a Ha _. now apply lookup_app_l.
    + exists (PRef ru), h. split.
      * cbn [recursive_merge]. rewrite Hrb, Hru. reflexivity.
      * apply merge_post_same. exact Hkeep.
  - (* update is a dictionary *)
    destruct Hb as [F'|x F'|x F'|x F'|x F'|rb bs bps F' Hrb Hrb_in Hbs
                   |rb bitems bpitems F' Hrb Hrb_in Hbes].
    1-5: (exists (PRef ru), h; split;
          [reflexivity | apply merge_post_same; exact Hkeep]).
    + exists (PRef ru), h. split.
      * cbn [recursive_merge]. rewrite Hrb, Hru. reflexivity.
      * apply merge_post_same. exact Hkeep.
    + destruct n as [|m]; [cbn [height] in Hh; lia|].
      pose proof (lookup_lt_Some _ _ _ Hrb) as Hrb_lt.
      pose proof (lookup_lt_Some _ _ _ Hru) as Hru_lt.
      assert (Hne : rb <> ru).
      { clear - Hdisj Hrb_in Hru_in. set_solver. }
      destruct (merge_loop_tree (recursive_merge (S m)) m rb ru upitems
                  (Hkids m eq_refl) Hne uitems upitems 0%nat h bitems bpitems
                  (F' ∖ {[rb]}) (F ∖ {[ru]}))
        as (h' & bp' & Hrun & Hlen & Hb' & He' & Hframe); auto.
      * clear - Hdisj. set_solver.
      * clear - Hdisj Hrb_in. set_solver.
      * clear - Hdisj Hru_in. set_solver.
      * clear - Hbound. unfold bounded in *. intros a Ha. apply Hbound. set_solver.
      * now apply height_dict_le.
      * exists (PRef rb), h'. split.
        -- rewrite (recursive_merge_dicts _ _ _ _ _ _ Hrb Hru), Hrun. reflexivity.
        -- split; [exact Hlen|]. split.
           ++ rewrite recursive_merge_dict. eapply tree_dict; [exact Hb' | |].
              ** clear - Hrb_in. set_solver.
              ** eapply entries_mono; [exact He'|].
                 clear - Hrb_lt Hdisj Hrb_in. set_unfold. naive_solver lia.
           ++ intros a Ha Hnot. apply Hframe; [exact Ha|].
              clear - Hnot Hrb_in. set_solver.
Qed.

Theorem recursive_merge_tree n : rec_ok (recursive_merge (S n)) n.
Proof.
  induction n as [|n IH]; apply recursive_merge_step.
  - discriminate.
  - intros m [= <-]. exact IH.
Qed.

(** The run of the merge on two dictionaries built of new objects. *)
Lemma merge_run (base update : dict) (h : heap) (depth : nat) :
  (height (VDict update) < depth)%nat ->
  exists rb h3 F,
    fst (store (VDict base) h) = PRef rb /\
    merge_content_creator_info depth
      (fst (store (VDict base) h))
      (fst (store (VDict update) (snd (store (VDict base) h))))
      (snd (store (VDict update) (snd (store (VDict base) h))))
    = Ok (PRef (length (snd (store (VDict update) (snd (store (VDict base) h))))), h3) /\
    tree h3 (VDict (Utils.merge_items update base))
      (PRef (length (snd (store (VDict update) (snd (store (VDict base) h)))))) F /\
    (rb < length (snd (store (VDict update) (snd (store (VDict base) h)))))%nat /\
    h3 !! rb = snd (store (VDict update) (snd (store (VDict base) h))) !! rb /\
    (forall a, (a < length h)%nat ->
               h3 !! a = h !! a).
Proof.
  intros Hdepth.
  destruct (store_builds (VDict base) h) as (ext1 & Hh1 & Ht1).
  destruct (store_builds (VDict update) (h ++ ext1)%list) as (ext2 & Hh2 & Ht2).
  rewrite Hh1, Hh2.
  remember (fst (store (VDict base) h)) as pb eqn:Epb.
  remember (fst (store (VDict update) (h ++ ext1)%list)) as pu eqn:Epu.
  clear Epb Epu Hh1 Hh2.
  set (h1 := (h ++ ext1)%list) in *.
  set (h2 := (h1 ++ ext2)%list) in *.
  inversion Ht1 as [| | | | | |rb items bp F Hrb Hrb_in Hbes Hitems Hpb HF]; subst items F.
  subst pb.
  pose proof (lookup_lt_Some _ _ _ Hrb) as Hrb_lt1.
  assert (Hlen1 : (length h <= length h1)%nat) by (unfold h1; rewrite length_app; lia).
  assert (Hlen2 : (length h1 <= length h2)%nat) by (unfold h2; rewrite length_app; lia).
  assert (Hrb2 : h2 !! rb = Some (ODict bp)).
  { unfold h2. rewrite lookup_app_l by exact Hrb_lt1. exact Hrb. }
  set (h2c := (h2 ++ [ODict bp])%list).
  assert (Hcopy : copy (PRef rb) h2 = Ok (PRef (length h2), h2c)).
  { unfold copy, heap. rewrite Hrb2. reflexivity. }
  set (Fc := ({[length h2]} ∪ (fresh h h1 ∖ {[rb]}) : gset nat)).
  set (Fu := fresh h1 h2).
  assert (Hbase : tree h2c (VDict base) (PRef (length h2)) Fc).
  { eapply tree_dict.
    - unfold h2c. apply list_lookup_middle. reflexivity.
    - unfold Fc. clear. set_solver.
    - eapply entries_mono.
      + eapply entries_frame; [exact Hbes|]. intros a Ha.
        unfold h2c, h2. rewrite <- app_assoc. apply lookup_app_l.
        clear - Ha. set_unfold. lia.
      + unfold Fc. clear - Hlen2. set_unfold. intros a Ha. naive_solver lia. }
  assert (Hupd : tree h2c (VDict update) pu Fu).
  { eapply tree_frame; [exact Ht2|]. intros a Ha.
    unfold h2c. apply lookup_app_l. clear - Ha. unfold Fu in Ha. set_unfold. lia. }
  destruct depth as [|n]; [lia|].
  destruct (recursive_merge_tree n (VDict base) (VDict update)
              (PRef (length h2)) pu h2c Fc Fu)
    as (r & h3 & Hrun & Hlen3 & Hr & Hframe); auto.
  { lia. }
  { unfold Fc, Fu. clear - Hlen2. set_unfold. naive_solver lia. }
  { unfold bounded, Fc, Fu, h2c. intros a Ha. rewrite length_app. simpl.
    clear - Ha Hlen2. set_unfold. naive_solver lia. }
  assert (Hroot : r = PRef (length h2)).
  { inversion Hupd as [| | | | | |ru uitems up F Hru Hru_in Hues Hitems Hpu HF].
    rewrite <- Hpu in Hrun.
    assert (Hc : h2c !! length h2 = Some (ODict bp)).
    { unfold h2c. apply list_lookup_middle. reflexivity. }
    rewrite (recursive_merge_dicts _ _ _ _ _ _ Hc Hru) in Hrun.
    destruct (merge_loop _ _ _ _ _ _ _) in Hrun; cbn [bind] in Hrun; congruence. }
  subst r.
  exists rb, h3, (Fc ∪ Fu ∪ fresh h2c h3).
  split; [reflexivity|]. split.
  { unfold merge_content_creator_info. rewrite Hcopy. cbn [bind fst snd]. exact Hrun. }
  split; [rewrite <- recursive_merge_dict; exact Hr|].
  split; [lia|]. split.
  - rewrite Hframe.
    + unfold h2c. apply lookup_app_l. lia.
    + unfold h2c. rewrite length_app. lia.
    + unfold Fc, Fu. clear - Hrb_lt1 Hlen2. set_unfold. naive_solver lia.
  - intros a Ha. rewrite Hframe.
    + unfold h2c, h2, h1. rewrite <- !app_assoc. now apply lookup_app_l.
    + unfold h2c. rewrite length_app. lia.
    + unfold Fc, Fu. clear - Ha Hlen1 Hlen2. set_unfold. naive_solver lia.
Qed.

(** X21. On two dictionaries built of objects of their own, with a limit of
    recursion above the nesting of [update], the merge on objects returns a
    reference that reads as the value the merge on values returns: without
    shared objects, what [merge_content_creator_info] builds in the heap is
    the merged structure. *)
Theorem X21_merge_on_objects_refines_values
  (base update : dict) (h : heap) (depth : nat) :
  (height (VDict update) < depth)%nat ->
  exists merged h' m,
    merge_content_creator_info depth
      (fst (store (VDict base) h))
      (fst (store (VDict update) (snd (store (VDict base) h))))
      (snd (store (VDict update) (snd (store (VDict base) h))))
    = Ok (merged, h') /\
    Utils.merge_content_creator_info (VDict base) (VDict update) = Ok m /\
    snapshot (height m) h' merged = Some m.
Proof.
  intros Hdepth.
  destruct (merge_run base update h depth Hdepth)
    as (rb & h3 & F & _ & Hrun & Htree & _).
  exists (PRef (length (snd (store (VDict update) (snd (store (VDict base) h)))))),
    h3, (VDict (Utils.merge_items update base)).
  split; [exact Hrun|]. split; [apply merge_dicts|].
  eapply tree_snapshot; [exact Htree|lia].
Qed.

Lemma X21_merge_on_objects_refines_values_witness :
  exists merged h' m,
    merge_content_creator_info Sample.recursion_limit
      (fst (store (VDict [("a", VDict [("x", VInt 1)]); ("l", VList [VInt 1])]) []))
      (fst (store (VDict [("a", VDict [("y", VInt 2)]); ("l", VList [VInt 2])])
              (snd (store (VDict [("a", VDict [("x", VInt 1)]); ("l", VList [VInt 1])]) []))))
      (snd (store (VDict [("a", VDict [("y", VInt 2)]); ("l", VList [VInt 2])])
              (snd (store (VDict [("a", VDict [("x", VInt 1)]); ("l", VList [VInt 1])]) []))))
    = Ok (merged, h') /\
    Utils.merge_content_creator_info
      (VDict [("a", VDict [("x", VInt 1)]); ("l", VList [VInt 1])])
      (VDict [("a", VDict [("y", VInt 2)]); ("l", VList [VInt 2])]) = Ok m /\
    snapshot (height m) h' merged = Some m.
Proof.
  apply (X21_merge_on_objects_refines_values
           [("a", VDict [("x", VInt 1)]); ("l", VList [VInt 1])]
           [("a", VDict [("y", VInt 2)]); ("l", VList [VInt 2])]
           [] Sample.recursion_limit).
  unfold Sample.recursion_limit. simpl. lia.
Defined.



End ObjectFacts.

(** ** The report *)

Section ReportMore.

Import Report.

Variable title : string -> string.
Variable str : value -> string.
Variable mkdir_ok : string -> bool.
Variable open_ok : string -> bool.
Variable abspath : string -> string.

Lemma has_slash_app (a b : string) :
  has_slash (a ++ b) = has_slash a || has_slash b.
Proof.
  induction a as [|c a IH]; simpl; [reflexivity|].
  rewrite IH. now rewrite orb_assoc.
Qed.

Lemma head_of_no_slash (s : string) : has_slash s = false -> head_of s = "".
Proof. destruct s as [|c s]; [reflexivity|]. intros H. cbn [head_of]. now rewrite H. Qed.

Lemma dirname_no_slash (s : string) : has_slash s = false -> dirname s = "".
Proof. intros H. unfold dirname. now rewrite (head_of_no_slash s H). Qed.

Lemma rstrip_slashes_empty (s : string) :
  rstrip_slashes s = "" -> only_slashes s = true.
Proof.
  destruct s as [|c s]; [reflexivity|].
  cbn [rstrip_slashes]. destruct (only_slashes (String c s)); [reflexivity|discriminate].
Qed.

Lemma dirname_slash (s : string) : has_slash s = true -> dirname s <> "".
Proof.
  intros H. unfold dirname.
  assert (Hhead : head_of s <> "").
  { destruct s as [|c s]; [discriminate|]. cbn [head_of]. now rewrite H. }
  destruct (only_slashes (head_of s)) eqn:Ho; [exact Hhead|].
  intros Hr. apply rstrip_slashes_empty in Hr. congruence.
Qed.

Lemma eqb_empty_false (s : string) : s <> "" -> String.eqb s "" = false.
Proof. intros H. now apply String.eqb_neq. Qed.

Lemma save_with_directory (data : dict) (f timestamp : string) :
  String.eqb f "" = false ->
  has_slash f = true -> mkdir_ok (dirname f) = true -> open_ok f = true ->
  save_output_to_markdown title str mkdir_ok open_ok abspath data (Some f) timestamp
  = Returns (abspath f, content_of title str data).
Proof.
  intros Hf Hs Hm Ho.
  unfold save_output_to_markdown, save_body. rewrite Hf. cbn [negb].
  unfold makedirs, open_for_writing.
  rewrite (eqb_empty_false _ (dirname_slash f Hs)), Hm, Ho. reflexivity.
Qed.

Lemma save_bare_name (data : dict) (f timestamp : string) :
  String.eqb f "" = false ->
  has_slash f = false ->
  save_output_to_markdown title str mkdir_ok open_ok abspath data (Some f) timestamp
  = Raises (Runtime (FileNotFound "")).
Proof.
  intros Hf Hs.
  unfold save_output_to_markdown, save_body. rewrite Hf. cbn [negb].
  rewrite (dirname_no_slash f Hs). reflexivity.
Qed.

(** X23: with a file name that is given (not empty),
    [save_output_to_markdown] returns exactly when the name has a directory
    part, the directories can be made and the file can be opened; it then
    returns the absolute path and has written the lines of the report.  A
    bare file name, as in the example of the docstring, ends in a
    [RuntimeError] raised from the [FileNotFoundError] of
    [os.makedirs] on the empty path. *)
Theorem X23_save_needs_directory_part (data : dict) (f timestamp : string) :
  String.eqb f "" = false ->
  (has_slash f = true -> mkdir_ok (dirname f) = true -> open_ok f = true ->
   save_output_to_markdown title str mkdir_ok open_ok abspath data (Some f) timestamp
   = Returns (abspath f, content_of title str data)) /\
  (has_slash f = false ->
   save_output_to_markdown title str mkdir_ok open_ok abspath data (Some f) timestamp
   = Raises (Runtime (FileNotFound ""))) /\
  ((exists r,
      save_output_to_markdown title str mkdir_ok open_ok abspath data (Some f) timestamp
      = Returns r) ->
   has_slash f = true /\ mkdir_ok (dirname f) = true /\ open_ok f = true).
Proof.
  intros Hf.
  split; [|split].
  - now apply save_with_directory.
  - now apply save_bare_name.
  - intros [r Hr]. destruct (has_slash f) eqn:Hs.
    + unfold save_output_to_markdown, save_body in Hr. rewrite Hf in Hr.
      cbn [negb] in Hr. unfold makedirs, open_for_writing in Hr.
      rewrite (eqb_empty_false _ (dirname_slash f Hs)) in Hr.
      destruct (mkdir_ok (dirname f)); [|discriminate].
      destruct (open_ok f); [|discriminate]. auto.
    + rewrite (save_bare_name data f timestamp Hf Hs) in Hr. discriminate.
Qed.

(** X24: [generate_report] never returns a path.  For the format
    [markdown] the file name it makes has no directory part, so saving ends
    in the [RuntimeError]; for [json] the file is opened and [json], which
    agent.py does not import, is not defined; any other format is refused
    with a [ValueError].  The time stamp is made of digits, so it has no
    slash. *)
Theorem X24_generate_report_never_returns (analysis : dict) (format timestamp : string) :
  has_slash timestamp = false ->
  exists e,
    generate_report title str mkdir_ok open_ok abspath analysis format timestamp = Raises e /\
    (format = "markdown" -> e = Runtime (FileNotFound "")) /\
    (format = "json" ->
     e = Name "json" \/ e = OSError ("creator_report_" ++ timestamp ++ ".json")) /\
    (format <> "markdown" -> format <> "json" ->
     e = Value "Unsupported format. Use 'markdown' or 'json'").
Proof.
  intros Hts. unfold generate_report.
  destruct (String.eqb format "markdown") eqn:Hmd.
  - apply String.eqb_eq in Hmd. subst format.
    assert (Hname : has_slash ("creator_report_" ++ timestamp ++ "." ++ "markdown") = false).
    { rewrite !has_slash_app, Hts. reflexivity. }
    assert (Hgiven :
              String.eqb ("creator_report_" ++ timestamp ++ "." ++ "markdown") "" = false)
      by reflexivity.
    cbv zeta.
    rewrite (save_bare_name analysis _ timestamp Hgiven Hname).
    exists (Runtime (FileNotFound "")).
    split; [reflexivity|]. split; [reflexivity|].
    split; [intros H; discriminate H|intros H; now contradiction H].
  - apply String.eqb_neq in Hmd. cbv zeta.
    destruct (String.eqb format "json") eqn:Hjs.
    + apply String.eqb_eq in Hjs. subst format.
      unfold open_for_writing.
      change ("." ++ "json") with ".json".
      destruct (open_ok ("creator_report_" ++ timestamp ++ ".json")).
      * exists (Name "json").
        split; [reflexivity|]. split; [intros H; discriminate H|].
        split; [now left|intros _ H; now contradiction H].
      * exists (OSError ("creator_report_" ++ timestamp ++ ".json")).
        split; [reflexivity|]. split; [intros H; discriminate H|].
        split; [now right|intros _ H; now contradiction H].
    + apply String.eqb_neq in Hjs.
      exists (Value "Unsupported format. Use 'markdown' or 'json'").
      split; [reflexivity|]. split; [intros H; now contradiction|].
      split; [intros H; now contradiction|reflexivity].
Qed.

(** *** The lines of the report *)

Lemma process_section_dict (key : string) (items : dict) (level : nat) :
  process_section title str key (VDict items) level
  = heading title level key ::
    flat_map (fun kv => process_section title str (fst kv) (snd kv) (S level)) items.
Proof.
  cbn [process_section]. f_equal.
  induction items as [|[k x] items IH]; [reflexivity|].
  cbn [flat_map fst snd]. now rewrite <- IH.
Qed.

Lemma process_section_list (key : string) (elems : list value) (level : nat) :
  process_section title str key (VList elems) level
  = heading title level key :: flat_map (render_item title str level) elems.
Proof. reflexivity. Qed.

Lemma sections_of_flat_map (data : dict) :
  sections_of title str data
  = flat_map (fun kv => process_section title str (fst kv) (snd kv) 2) data.
Proof.
  induction data as [|[k x] data IH]; [reflexivity|].
  cbn [sections_of flat_map fst snd]. now rewrite IH.
Qed.

Lemma ends_with_newline_append (a b : string) :
  ends_with_newline b = true -> ends_with_newline (a ++ b) = true.
Proof.
  intros Hb. induction a as [|c a IH]; [exact Hb|].
  change (String c a ++ b) with (String c (a ++ b)).
  destruct (a ++ b) as [|c' s]; [discriminate IH|exact IH].
Qed.

Lemma heading_ends (level : nat) (key : string) :
  ends_with_newline (heading title level key) = true.
Proof. unfold heading. repeat apply ends_with_newline_append. reflexivity. Qed.

Lemma bullet_ends (item : value) : ends_with_newline (bullet str item) = true.
Proof. unfold bullet. repeat apply ends_with_newline_append. reflexivity. Qed.

Lemma key_value_ends (key : string) (v : value) :
  ends_with_newline (key_value title str key v) = true.
Proof. unfold key_value. repeat apply ends_with_newline_append. reflexivity. Qed.

Lemma process_section_ends (v : value) :
  forall key level line,
    In line (process_section title str key v level) -> ends_with_newline line = true.
Proof.
  induction v as [| b | n | q | s | elems IH | items IH] using value_ind_nested;
    intros key level line Hin.
  1-5: destruct Hin as [<-|[]]; apply key_value_ends.
  - rewrite process_section_list in Hin. destruct Hin as [<-|Hin]; [apply heading_ends|].
    apply in_flat_map in Hin as (item & Hitem & Hin).
    rewrite List.Forall_forall in IH. specialize (IH item Hitem).
    destruct item; cbn [render_item] in Hin;
      try (destruct Hin as [<-|[]]; apply bullet_ends).
    eapply IH, Hin.
  - rewrite process_section_dict in Hin. destruct Hin as [<-|Hin]; [apply heading_ends|].
    apply in_flat_map in Hin as ([k x] & Hitem & Hin).
    rewrite List.Forall_forall in IH. eapply (IH (k, x) Hitem), Hin.
Qed.

(** X25: every line of the report ends with a newline, whatever the values
    and keys are, so that [writelines], which adds none, keeps the lines
    apart. *)
Theorem X25_report_lines_end_with_newline (data : dict) (line : string) :
  In line (content_of title str data) -> ends_with_newline line = true.
Proof.
  intros [<-|Hin]; [reflexivity|].
  rewrite sections_of_flat_map in Hin.
  apply in_flat_map in Hin as ([k x] & _ & Hin).
  eapply process_section_ends, Hin.
Qed.

Lemma section_line_mono (level d level' d' : nat) (line : string) :
  (level <= level')%nat -> (level' + d' <= level + d)%nat ->
  section_line title str level' d' line -> section_line title str level d line.
Proof.
  intros H1 H2 [(l & key & Hl & ->)|[H|H]].
  - left. exists l, key. split; [lia|reflexivity].
  - right. now left.
  - right. now right.
Qed.

Lemma depth_dict_entry (items : dict) (k : string) (x : value) :
  In (k, x) items -> (depth x < depth (VDict items))%nat.
Proof.
  cbn [depth]. induction items as [|[k' x'] items IH]; [intros []|].
  intros [Heq|Hin].
  - injection Heq as -> ->. lia.
  - specialize (IH Hin). lia.
Qed.

Lemma depth_list_item (elems : list value) (items : dict) :
  In (VDict items) elems -> (depth (VDict items) < depth (VList elems))%nat.
Proof.
  cbn [depth]. induction elems as [|item elems IH]; [intros []|].
  intros [->|Hin].
  - cbn [depth]. lia.
  - specialize (IH Hin). cbn [depth] in IH. lia.
Qed.

Lemma process_section_lines (v : value) :
  forall key level line,
    In line (process_section title str key v level) ->
    section_line title str level (depth v) line.
Proof.
  induction v as [| b | n | q | s | elems IH | items IH] using value_ind_nested;
    intros key level line Hin.
  1-5: destruct Hin as [<-|[]]; right; right; eexists _, _; reflexivity.
  - rewrite process_section_list in Hin. destruct Hin as [<-|Hin].
    { left. exists level, key. split; [cbn [depth]; lia|reflexivity]. }
    apply in_flat_map in Hin as (item & Hitem & Hin).
    rewrite List.Forall_forall in IH. specialize (IH item Hitem).
    destruct item as [| b | n | q | s | elems' | items'];
      cbn [render_item] in Hin;
      try (destruct Hin as [<-|[]]; right; left; eexists; reflexivity).
    apply IH in Hin. pose proof (depth_list_item elems items' Hitem) as Hd.
    eapply section_line_mono; [| |exact Hin]; lia.
  - rewrite process_section_dict in Hin. destruct Hin as [<-|Hin].
    { left. exists level, key. split; [cbn [depth]; lia|reflexivity]. }
    apply in_flat_map in Hin as ([k x] & Hitem & Hin).
    rewrite List.Forall_forall in IH. apply (IH (k, x) Hitem) in Hin.
    pose proof (depth_dict_entry items k x Hitem) as Hd. cbn [fst snd] in Hin.
    eapply section_line_mono; [| |exact Hin]; lia.
Qed.

(** X26: the headings of a section follow the nesting.  Every line that
    [process_section] makes for a value at a level is a heading whose level
    is at least that level and less than the level plus the depth of the
    value, or a bullet, or a key-value line; a scalar gives no heading at
    all.  In the report the sections start at level 2. *)
Theorem X26_heading_levels_follow_nesting (data : dict) (key : string) (v : value)
  (line : string) :
  In (key, v) data ->
  In line (process_section title str key v 2) ->
  In line (content_of title str data) /\
  ((exists l k, (2 <= l < 2 + depth v)%nat /\ line = heading title l k) \/
   (exists item, line = bullet str item) \/
   (exists k x, line = key_value title str k x)).
Proof.
  intros Hentry Hin. split.
  - right. rewrite sections_of_flat_map. apply in_flat_map.
    exists (key, v). split; [exact Hentry|exact Hin].
  - exact (process_section_lines v key 2 line Hin).
Qed.

End ReportMore.

Lemma X23_save_needs_directory_part_witness :
  String.eqb "report.md" "" = false /\
  Report.has_slash "report.md" = false /\
  Report.save_output_to_markdown (fun s => s) (fun _ => "Great creator")
    (fun _ => true) (fun _ => true) (fun s => s)
    [("summary", VStr "Great creator")] (Some "report.md") "202308011200"
  = Report.Raises (Report.Runtime (Report.FileNotFound "")).
Proof.
  split; [reflexivity|]. split; [reflexivity|].
  apply (X23_save_needs_directory_part (fun s => s) (fun _ => "Great creator")
           (fun _ => true) (fun _ => true) (fun s => s)
           [("summary", VStr "Great creator")] "report.md" "202308011200");
    reflexivity.
Defined.

Lemma X24_generate_report_never_returns_witness :
  Report.has_slash "202308011200" = false /\
  exists e,
    Report.generate_report (fun s => s) (fun _ => "3") (fun _ => true) (fun _ => true)
      (fun s => s) [("basic_stats", VDict [("total_businesses", VInt 3)])]
      "markdown" "202308011200" = Report.Raises e /\
    e = Report.Runtime (Report.FileNotFound "").
Proof.
  split; [reflexivity|].
  destruct (X24_generate_report_never_returns (fun s => s) (fun _ => "3")
              (fun _ => true) (fun _ => true) (fun s => s)
              [("basic_stats", VDict [("total_businesses", VInt 3)])]
              "markdown" "202308011200" eq_refl) as (e & He & Hmd & _).
  exists e. split; [exact He|]. apply Hmd. reflexivity.
Defined.

Lemma X25_report_lines_end_with_newline_witness :
  In (Report.key_value (fun s => s) (fun _ => "Great creator") "summary"
        (VStr "Great creator"))
     (Report.content_of (fun s => s) (fun _ => "Great creator")
        [("summary", VStr "Great creator")]) /\
  Report.ends_with_newline
    (Report.key_value (fun s => s) (fun _ => "Great creator") "summary"
       (VStr "Great creator")) = true.
Proof.
  split; [right; left; reflexivity|].
  apply (X25_report_lines_end_with_newline (fun s => s) (fun _ => "Great creator")
           [("summary", VStr "Great creator")]).
  right. left. reflexivity.
Defined.

Lemma X26_heading_levels_follow_nesting_witness :
  In ("values", VList [VStr "honesty"; VDict [("name", VStr "care")]])
     [("values", VList [VStr "honesty"; VDict [("name", VStr "care")]])] /\
  In (Report.heading (fun s => s) 3 "")
     (Report.process_section (fun s => s) (fun _ => "care") "values"
        (VList [VStr "honesty"; VDict [("name", VStr "care")]]) 2) /\
  In (Report.heading (fun s => s) 3 "")
     (Report.content_of (fun s => s) (fun _ => "care")
        [("values", VList [VStr "honesty"; VDict [("name", VStr "care")]])]).
Proof.
  split; [left; reflexivity|].
  split; [right; right; left; reflexivity|].
  apply (X26_heading_levels_follow_nesting (fun s => s) (fun _ => "care")
           [("values", VList [VStr "honesty"; VDict [("name", VStr "care")]])]
           "values" (VList [VStr "honesty"; VDict [("name", VStr "care")]])
           (Report.heading (fun s => s) 3 "")).
  - left. reflexivity.
  - right. right. left. reflexivity.
Defined.

(** ** The patterns of a channel address *)

Section UrlMore.

Import Url.
Import Stdlib.Strings.Ascii.

Lemma append_cons (x : Ascii.ascii) (a b : string) :
  (String x a ++ b = String x (a ++ b))%string.
Proof. reflexivity. Qed.

Lemma append_nil_l (a : string) : ("" ++ a = a)%string.
Proof. reflexivity. Qed.

Lemma append_assoc (a b c : string) : ((a ++ b) ++ c = a ++ (b ++ c))%string.
Proof. induction a as [|x a IH]; [reflexivity|]. rewrite !append_cons. now rewrite IH. Qed.

Lemma append_eq_nil (a b : string) : (a ++ b = "")%string -> a = "" /\ b = "".
Proof.
  destruct a as [|x a]; [rewrite append_nil_l; now intros ->|].
  rewrite append_cons. discriminate.
Qed.

Lemma lang_seq_eq (r1 r2 : re) (s1 s2 s : string) :
  lang r1 s1 -> lang r2 s2 -> s = s1 ++ s2 -> lang (Seq r1 r2) s.
Proof. intros H1 H2 ->. now constructor. Qed.

Lemma nullable_lang (r : re) : nullable r = true <-> lang r "".
Proof.
  split.
  - induction r as [| | c | p | r1 IH1 r2 IH2 | r1 IH1 r2 IH2 | r1 IH1];
      cbn [nullable]; intros H; try discriminate.
    + constructor.
    + apply andb_true_iff in H as [H1 H2].
      apply (lang_seq_eq r1 r2 "" ""); auto.
    + apply orb_true_iff in H as [H|H]; [apply lang_alt_l|apply lang_alt_r]; auto.
    + constructor.
  - intros H. remember "" as s eqn:Es.
    induction H as [| c | p c Hp | r1 r2 s1 s2 H1 IH1 H2 IH2 | r1 r2 s H IH
                   | r1 r2 s H IH | r | r s1 s2 H1 IH1 H2 IH2];
      cbn [nullable]; try discriminate; try reflexivity.
    + apply append_eq_nil in Es as [-> ->].
      now rewrite IH1, IH2.
    + now rewrite IH.
    + rewrite IH by assumption. apply orb_true_r.
Qed.

Lemma deriv_sound (c : Ascii.ascii) (r : re) :
  forall s, lang (deriv c r) s -> lang r (String c s).
Proof.
  induction r as [| | d | p | r1 IH1 r2 IH2 | r1 IH1 r2 IH2 | r1 IH1];
    cbn [deriv]; intros s H.
  - inversion H.
  - inversion H.
  - destruct (Ascii.eqb c d) eqn:E; [|inversion H].
    apply Ascii.eqb_eq in E. subst d. inversion H; subst. constructor.
  - destruct (p c) eqn:E; [|inversion H].
    inversion H; subst. now constructor.
  - assert (Hseq : forall s, lang (Seq (deriv c r1) r2) s -> lang (Seq r1 r2) (String c s)).
    { intros s' H'. inversion H' as [| | |? ? s1 s2 Ha Hb| | | |]; subst.
      apply (lang_seq_eq r1 r2 (String c s1) s2); auto. }
    destruct (nullable r1) eqn:En; [|now apply Hseq].
    inversion H as [| | | |? ? ? Ha|? ? ? Hb| |]; subst; [now apply Hseq|].
    apply (lang_seq_eq r1 r2 "" (String c s)); auto.
    now apply nullable_lang.
  - inversion H; subst; [apply lang_alt_l|apply lang_alt_r]; auto.
  - inversion H as [| | |? ? s1 s2 Ha Hb| | | |]; subst.
    change (String c (s1 ++ s2)) with (String c s1 ++ s2)%string.
    apply lang_star_cons; auto.
Qed.

Lemma deriv_complete (c : Ascii.ascii) (r : re) (x : string) :
  lang r x -> forall s, x = String c s -> lang (deriv c r) s.
Proof.
  intros H.
  induction H as [| d | p d Hp | r1 r2 s1 s2 H1 IH1 H2 IH2 | r1 r2 x H IH
                 | r1 r2 x H IH | r | r s1 s2 H1 IH1 H2 IH2];
    intros s Es; cbn [deriv].
  - discriminate.
  - injection Es as -> <-. rewrite Ascii.eqb_refl. constructor.
  - injection Es as -> <-. rewrite Hp. constructor.
  - destruct s1 as [|c1 s1].
    + rewrite append_nil_l in Es. subst s2.
      assert (Hn : nullable r1 = true) by now apply nullable_lang.
      rewrite Hn. apply lang_alt_r. now apply IH2.
    + rewrite append_cons in Es. injection Es as -> <-.
      assert (Hs : lang (Seq (deriv c r1) r2) (s1 ++ s2)).
      { constructor; [now apply IH1|exact H2]. }
      destruct (nullable r1); [now apply lang_alt_l|exact Hs].
  - apply lang_alt_l. now apply IH.
  - apply lang_alt_r. now apply IH.
  - discriminate.
  - destruct s1 as [|c1 s1].
    + rewrite append_nil_l in Es. now apply IH2.
    + rewrite append_cons in Es. injection Es as -> <-.
      constructor; [now apply IH1|exact H2].
Qed.

Lemma re_match_starts (url : string) :
  forall r, re_match r url = true <-> starts_with r url.
Proof.
  induction url as [|c url IH]; intros r; cbn [re_match].
  - rewrite orb_false_r, nullable_lang. split.
    + intros H. exists "", "". auto.
    + intros (t & rest & Ht & E). symmetry in E.
      apply append_eq_nil in E as [-> _]. exact Ht.
  - rewrite orb_true_iff, nullable_lang, IH. split.
    + intros [H|(t & rest & Ht & ->)].
      * exists "", (String c url). auto.
      * exists (String c t), rest. split; [now apply deriv_sound|reflexivity].
    + intros (t & rest & Ht & E). destruct t as [|c' t]; [now left|].
      right. rewrite append_cons in E. injection E as <- ->.
      exists t, rest. split; [|reflexivity].
      now apply (deriv_complete c r (String c t)).
Qed.

Lemma starts_seq (r1 r2 : re) (url : string) :
  starts_with (Seq r1 r2) url <->
  exists a u, lang r1 a /\ url = (a ++ u)%string /\ starts_with r2 u.
Proof.
  split.
  - intros (t & rest & Ht & ->).
    inversion Ht as [| | |? ? s1 s2 Ha Hb| | | |]; subst.
    exists s1, (s2 ++ rest)%string. split; [exact Ha|].
    split; [apply append_assoc|]. now exists s2, rest.
  - intros (a & u & Ha & -> & t & rest & Ht & ->).
    exists (a ++ t)%string, rest. split; [now constructor|].
    symmetry. apply append_assoc.
Qed.

Lemma starts_plus_class (p : Ascii.ascii -> bool) (url : string) :
  starts_with (Plus (Class p)) url <-> exists c rest, p c = true /\ url = String c rest.
Proof.
  split.
  - intros (t & rest & Ht & ->).
    inversion Ht as [| | |? ? s1 s2 Ha Hb| | | |]; subst.
    inversion Ha; subst. eexists _, _. split; [eassumption|reflexivity].
  - intros (c & rest & Hp & ->). exists (String c ""), rest.
    split; [|reflexivity].
    apply (lang_seq_eq _ _ (String c "") ""); [now constructor|constructor|reflexivity].
Qed.

Lemma lang_Lit (s x : string) : lang (Lit s) x <-> x = s.
Proof.
  revert x. induction s as [|c s IH]; intros x; cbn [Lit].
  - split; [intros H; now inversion H|intros ->; constructor].
  - split.
    + intros H. inversion H as [| | |? ? s1 s2 Ha Hb| | | |]; subst.
      inversion Ha; subst. apply IH in Hb. now subst.
    + intros ->. apply (lang_seq_eq _ _ (String c "") s);
        [constructor|now apply IH|reflexivity].
Qed.

Lemma lang_Opt (r : re) (x : string) : lang (Opt r) x <-> lang r x \/ x = "".
Proof.
  unfold Opt. split.
  - intros H. inversion H as [| | | |? ? ? Ha|? ? ? Hb| |]; subst; [now left|].
    inversion Hb. now right.
  - intros [H| ->]; [now apply lang_alt_l|apply lang_alt_r; constructor].
Qed.

Lemma lang_Alt (r1 r2 : re) (x : string) : lang (Alt r1 r2) x <-> lang r1 x \/ lang r2 x.
Proof.
  split.
  - intros H. inversion H; subst; auto.
  - intros [H|H]; [now apply lang_alt_l|now apply lang_alt_r].
Qed.

Lemma lang_Seq (r1 r2 : re) (x : string) :
  lang (Seq r1 r2) x <-> exists a b, lang r1 a /\ lang r2 b /\ x = (a ++ b)%string.
Proof.
  split.
  - intros H. inversion H as [| | |? ? s1 s2 Ha Hb| | | |]; subst. now exists s1, s2.
  - intros (a & b & Ha & Hb & ->). now constructor.
Qed.

Lemma lang_Chr (c : Ascii.ascii) (x : string) : lang (Chr c) x <-> x = String c "".
Proof.
  split; [intros H; now inversion H|intros ->; constructor].
Qed.

Lemma lang_scheme (x : string) : lang scheme x <-> In x schemes.
Proof.
  unfold scheme, schemes. rewrite lang_Opt, lang_Seq. split.
  - intros [(a & b & Ha & Hb & ->)| ->]; [|now left].
    apply lang_Lit in Ha. subst a.
    apply lang_Seq in Hb as (s & t & Hs & Ht & ->).
    apply lang_Lit in Ht. subst t.
    apply lang_Opt in Hs as [Hs| ->].
    + apply lang_Chr in Hs. subst s. right. right. now left.
    + right. now left.
  - intros [<-|[<-|[<-|[]]]].
    + now right.
    + left. exists "http", "://". split; [now apply lang_Lit|]. split; [|reflexivity].
      apply (lang_seq_eq _ _ "" "://"); [apply lang_Opt; now right
                                        |now apply lang_Lit|reflexivity].
    + left. exists "http", "s://". split; [now apply lang_Lit|]. split; [|reflexivity].
      apply (lang_seq_eq _ _ "s" "://"); [apply lang_Opt; left; constructor
                                         |now apply lang_Lit|reflexivity].
Qed.

Lemma lang_www (x : string) : lang www x <-> In x hosts.
Proof.
  unfold www, hosts. rewrite lang_Opt, lang_Lit. cbn [In]. intuition congruence.
Qed.

Lemma lang_site (x : string) :
  lang (Alt (Lit "youtube.com") (Seq (Lit "youtu") (Seq (Opt (Chr "."%char)) (Lit "be")))) x
  <-> In x sites.
Proof.
  unfold sites. rewrite lang_Alt, lang_Lit, lang_Seq. split.
  - intros [->|(a & b & Ha & Hb & ->)]; [now left|].
    apply lang_Lit in Ha. subst a.
    apply lang_Seq in Hb as (d & e & Hd & He & ->).
    apply lang_Lit in He. subst e.
    apply lang_Opt in Hd as [Hd| ->].
    + apply lang_Chr in Hd. subst d. right. now left.
    + right. right. now left.
  - intros [<-|[<-|[<-|[]]]].
    + now left.
    + right. exists "youtu", ".be". split; [now apply lang_Lit|]. split; [|reflexivity].
      apply (lang_seq_eq _ _ "." "be"); [apply lang_Opt; left; constructor
                                        |now apply lang_Lit|reflexivity].
    + right. exists "youtu", "be". split; [now apply lang_Lit|]. split; [|reflexivity].
      apply (lang_seq_eq _ _ "" "be"); [apply lang_Opt; now right
                                       |now apply lang_Lit|reflexivity].
Qed.

Lemma starts_prefixed (r : re) (s w : string) (u : string) :
  In s schemes -> In w hosts -> starts_with r u ->
  starts_with (Seq scheme (Seq www r)) (s ++ w ++ u).
Proof.
  intros Hs Hw Hu. apply starts_seq. exists s, (w ++ u)%string.
  split; [now apply lang_scheme|]. split; [reflexivity|].
  apply starts_seq. exists w, u. split; [now apply lang_www|]. now split.
Qed.

Lemma starts_prefixed_inv (r : re) (url : string) :
  starts_with (Seq scheme (Seq www r)) url ->
  exists s w u, In s schemes /\ In w hosts /\ starts_with r u /\ url = (s ++ w ++ u)%string.
Proof.
  intros H. apply starts_seq in H as (s & u1 & Hs & -> & H).
  apply starts_seq in H as (w & u & Hw & -> & H).
  exists s, w, u. split; [now apply lang_scheme|]. split; [now apply lang_www|]. now split.
Qed.

Section Word.

Variable word : Ascii.ascii -> bool.

Lemma validate_youtube_url_starts (url : string) :
  validate_youtube_url word url = true <->
  starts_with (List.nth 0 (patterns word) Void) url \/
  starts_with (List.nth 1 (patterns word) Void) url.
Proof.
  unfold validate_youtube_url, patterns. cbn [existsb List.nth].
  now rewrite orb_false_r, orb_true_iff, !re_match_starts.
Qed.

Lemma validate_youtube_url_accepts (url : string) :
  channel_shape word url -> validate_youtube_url word url = true.
Proof.
  intros (s & w & p & c & rest & Hs & Hw & Hp & Hc & ->).
  apply validate_youtube_url_starts. unfold patterns. cbn [List.nth].
  assert (Htail : starts_with (Plus (Class (word_or_dash word))) (String c rest)).
  { apply starts_plus_class. now exists c, rest. }
  destruct Hp as [<-|[<-|[<-|[<-|[]]]]].
  - left. apply starts_prefixed; [assumption..|].
    apply starts_seq. exists "youtube.com/", ("channel/" ++ String c rest)%string.
    split; [now apply lang_Lit|]. split; [reflexivity|].
    apply starts_seq. exists "channel/", (String c rest).
    split; [|split; [reflexivity|exact Htail]].
    apply lang_alt_l. now apply lang_Lit.
  - left. apply starts_prefixed; [assumption..|].
    apply starts_seq. exists "youtube.com/", ("@" ++ String c rest)%string.
    split; [now apply lang_Lit|]. split; [reflexivity|].
    apply starts_seq. exists "@", (String c rest).
    split; [|split; [reflexivity|exact Htail]].
    apply lang_alt_r, lang_alt_l. now apply lang_Lit.
  - left. apply starts_prefixed; [assumption..|].
    apply starts_seq. exists "youtube.com/", ("user/" ++ String c rest)%string.
    split; [now apply lang_Lit|]. split; [reflexivity|].
    apply starts_seq. exists "user/", (String c rest).
    split; [|split; [reflexivity|exact Htail]].
    apply lang_alt_r, lang_alt_r. now apply lang_Lit.
  - right. apply starts_prefixed; [assumption..|].
    apply starts_seq. exists "youtu.be/", (String c rest).
    split; [now apply lang_Lit|]. split; [reflexivity|exact Htail].
Qed.

Lemma validate_youtube_url_requires (url : string) :
  validate_youtube_url word url = true -> channel_shape word url.
Proof.
  intros H. apply validate_youtube_url_starts in H. unfold patterns in H.
  cbn [List.nth] in H. unfold channel_shape.
  destruct H as [H|H]; apply starts_prefixed_inv in H as (s & w & u & Hs & Hw & H & ->).
  - apply starts_seq in H as (h & u3 & Hh & -> & H).
    apply starts_seq in H as (k & u4 & Hk & -> & H).
    apply starts_plus_class in H as (c & rest & Hc & ->).
    apply lang_Lit in Hh. subst h.
    rewrite !lang_Alt, !lang_Lit in Hk.
    destruct Hk as [->|[->| ->]].
    + exists s, w, "youtube.com/channel/", c, rest. cbn [channel_prefixes In]. auto 10.
    + exists s, w, "youtube.com/@", c, rest. cbn [channel_prefixes In]. auto 10.
    + exists s, w, "youtube.com/user/", c, rest. cbn [channel_prefixes In]. auto 10.
  - apply starts_seq in H as (h & u3 & Hh & -> & H).
    apply starts_plus_class in H as (c & rest & Hc & ->).
    apply lang_Lit in Hh. subst h.
    exists s, w, "youtu.be/", c, rest. cbn [channel_prefixes In]. auto 10.
Qed.

Lemma channel_url_accepts (url : string) :
  channel_url_shape url -> channel_url_ok url = true.
Proof.
  intros (s & w & h & c & rest & Hs & Hw & Hh & Hc & ->).
  unfold channel_url_ok, channel_url_pattern. apply re_match_starts.
  apply starts_prefixed; [assumption..|].
  apply starts_seq. exists h, ("/" ++ String c rest)%string.
  split; [now apply lang_site|]. split; [reflexivity|].
  apply starts_seq. exists "/", (String c rest).
  split; [constructor|]. split; [reflexivity|].
  apply starts_plus_class. exists c, rest. now split.
Qed.

Lemma channel_url_requires (url : string) :
  channel_url_ok url = true -> channel_url_shape url.
Proof.
  unfold channel_url_ok, channel_url_pattern. intros H.
  apply re_match_starts in H.
  apply starts_prefixed_inv in H as (s & w & u & Hs & Hw & H & ->).
  apply starts_seq in H as (h & u3 & Hh & -> & H).
  apply starts_seq in H as (k & u4 & Hk & -> & H).
  apply starts_plus_class in H as (c & rest & Hc & ->).
  apply lang_site in Hh. apply lang_Chr in Hk. subst k.
  exists s, w, h, c, rest. auto 10.
Qed.

(** X27: [validate_youtube_url] accepts exactly the addresses made of an
    optional [http://] or [https://], an optional [www.], one of
    [youtube.com/channel/], [youtube.com/@], [youtube.com/user/] and
    [youtu.be/], and one character of [[\w-]]; what follows that character
    is not looked at, so an accepted address stays accepted with any text
    added at its end. *)
Theorem X27_validate_youtube_url_shape (url : string) :
  (validate_youtube_url word url = true <-> channel_shape word url) /\
  (validate_youtube_url word url = true ->
   forall extra, validate_youtube_url word (url ++ extra) = true).
Proof.
  split.
  - split; [apply validate_youtube_url_requires|apply validate_youtube_url_accepts].
  - intros H extra. apply validate_youtube_url_requires in H.
    destruct H as (s & w & p & c & rest & Hs & Hw & Hp & Hc & ->).
    apply validate_youtube_url_accepts.
    exists s, w, p, c, (rest ++ extra)%string.
    split; [exact Hs|]. split; [exact Hw|]. split; [exact Hp|]. split; [exact Hc|].
    now rewrite !append_assoc, append_cons.
Qed.

(** X28: the pattern of [PersonalInfo.channel_url] accepts exactly the
    addresses made of an optional scheme, an optional [www.], one of
    [youtube.com], [youtu.be] and [youtube], a slash and one character
    that is not a newline; what follows is not looked at.  So it takes
    [youtube/x], which names no site. *)
Theorem X28_channel_url_pattern_shape (url : string) :
  channel_url_ok url = true <-> channel_url_shape url.
Proof.
  split; [apply channel_url_requires|apply channel_url_accepts].
Qed.

(** X29: every address [validate_youtube_url] accepts also fits the
    pattern of [PersonalInfo.channel_url], as [\w] does not match the
    newline. *)
Theorem X29_validated_url_fits_schema (url : string) :
  word newline = false ->
  validate_youtube_url word url = true -> channel_url_ok url = true.
Proof.
  intros Hnl H. apply validate_youtube_url_requires in H.
  destruct H as (s & w & p & c & rest & Hs & Hw & Hp & Hc & ->).
  apply channel_url_accepts.
  destruct Hp as [<-|[<-|[<-|[<-|[]]]]].
  - exists s, w, "youtube.com", "c"%char, ("hannel/" ++ String c rest)%string.
    split; [exact Hs|]. split; [exact Hw|]. split; [now left|]. now split.
  - exists s, w, "youtube.com", "@"%char, (String c rest).
    split; [exact Hs|]. split; [exact Hw|]. split; [now left|]. now split.
  - exists s, w, "youtube.com", "u"%char, ("ser/" ++ String c rest)%string.
    split; [exact Hs|]. split; [exact Hw|]. split; [now left|]. now split.
  - exists s, w, "youtu.be", c, rest.
    split; [exact Hs|]. split; [exact Hw|]. split; [right; now left|].
    split; [|reflexivity].
    destruct (Ascii.eqb c newline) eqn:E; [|reflexivity].
    apply Ascii.eqb_eq in E. subst c. unfold word_or_dash in Hc.
    rewrite Hnl in Hc. discriminate Hc.
Qed.

(** X30: the address of a video, [youtube.com/watch...], with or without
    scheme and [www.], is refused by [validate_youtube_url], whose
    docstring speaks of channel and video addresses, and it fits the
    pattern of [PersonalInfo.channel_url]. *)
Theorem X30_video_address (s w rest : string) :
  In s schemes -> In w hosts ->
  validate_youtube_url word (s ++ w ++ "youtube.com/watch" ++ rest) = false /\
  channel_url_ok (s ++ w ++ "youtube.com/watch" ++ rest) = true.
Proof.
  intros Hs Hw. split.
  - destruct (validate_youtube_url word (s ++ w ++ "youtube.com/watch" ++ rest)) eqn:E;
      [|reflexivity].
    apply validate_youtube_url_requires in E.
    destruct E as (s' & w' & p & c & rest' & Hs' & Hw' & Hp & _ & E).
    exfalso. clear - Hs Hw Hs' Hw' Hp E.
    unfold schemes, hosts, channel_prefixes in *. cbn [In] in *.
    repeat match goal with
           | H : _ \/ _ |- _ => destruct H
           | H : False |- _ => destruct H
           end; subst; cbv [String.append] in E; discriminate E.
  - apply channel_url_accepts.
    exists s, w, "youtube.com", "w"%char, ("atch" ++ rest)%string.
    split; [exact Hs|]. split; [exact Hw|]. split; [now left|]. now split.
Qed.

End Word.

End UrlMore.

Lemma X27_validate_youtube_url_shape_witness :
  Url.validate_youtube_url Url.ascii_word "https://youtube.com/@channel" = true /\
  Url.validate_youtube_url Url.ascii_word
    ("https://youtube.com/@channel" ++ "/../<script>") = true.
Proof.
  split; [reflexivity|].
  apply (proj2 (X27_validate_youtube_url_shape Url.ascii_word
                  "https://youtube.com/@channel")).
  reflexivity.
Defined.

Lemma X28_channel_url_pattern_shape_witness :
  Url.channel_url_shape "youtube/x" /\ Url.channel_url_ok "youtube/x" = true.
Proof.
  assert (H : Url.channel_url_shape "youtube/x").
  { exists "", "", "youtube", (Ascii.ascii_of_nat 120), "".
    split; [left; reflexivity|]. split; [left; reflexivity|].
    split; [right; right; left; reflexivity|]. split; reflexivity. }
  split; [exact H|].
  apply (proj2 (X28_channel_url_pattern_shape "youtube/x")). exact H.
Defined.

Lemma X29_validated_url_fits_schema_witness :
  Url.ascii_word Url.newline = false /\
  Url.validate_youtube_url Url.ascii_word "https://youtube.com/@channel" = true /\
  Url.channel_url_ok "https://youtube.com/@channel" = true.
Proof.
  split; [reflexivity|]. split; [reflexivity|].
  apply (X29_validated_url_fits_schema Url.ascii_word "https://youtube.com/@channel");
    reflexivity.
Defined.

Lemma X30_video_address_witness :
  In "https://" Url.schemes /\ In "www." Url.hosts /\
  Url.validate_youtube_url Url.ascii_word
    ("https://" ++ "www." ++ "youtube.com/watch" ++ "?v=dQw4w9WgXcQ") = false /\
  Url.channel_url_ok
    ("https://" ++ "www." ++ "youtube.com/watch" ++ "?v=dQw4w9WgXcQ") = true.
Proof.
  split; [right; right; left; reflexivity|].
  split; [right; left; reflexivity|].
  apply (X30_video_address Url.ascii_word "https://" "www." "?v=dQw4w9WgXcQ").
  - right. right. left. reflexivity.
  - right. left. reflexivity.
Defined.
